(** * cans.guesser: quick parameter guesses for the plate growth model

    A shallow embedding of [src/cans/guesser.py] (class [Guesser]) and the
    properties of its guesses, bounds, quick-fit stages and kn calibration.

    Numbers.  The source computes in float64.  Its arithmetic is embedded
    three times, each where it decides a property:
    - exact: in the rationals [Q], compared with [==] ([Qeq]); a value
      that float64 would round is exact here.  This is the embedding of
      the whole class, for what does not hang on a rounding: which entries
      are read and written, orderings, bounds, errors.  NaN, which the
      source writes as a placeholder into a parameter vector, is the entry
      [None] of a vector of [entry]; a division by zero, which raises
      [ZeroDivisionError] on a Python float and gives inf or nan on a
      numpy float, stops the computation with [ZeroDivisionError] in both
      cases;
    - rounded: module [FP], where an operation returns the float [rnd] of
      its exact result and a float is a rational, an infinity or NaN.
      Under the standard model of floating-point arithmetic (a relative
      error of at most the unit roundoff [u], no overflow and no
      underflow) it gives what holds of float64 up to rounding;
    - binary64: module [F64], on Rocq's primitive floats, whose operations
      are those of IEEE 754 binary64.  It runs the code on given inputs.

    Errors.  A Python exception is the [Raise] case of [res].

    Collaborators.  [cans.plate] and [cans.model] are not part of the
    embedded file; what the guesser reads of them are record fields, and
    what it calls of them ([Culture.fit_model], [Plate(rows, cols)],
    [Plate.set_sim_data], the [b_index] of a quick model) are the
    variables of section [Guesser_methods].

    The module functions [fit_log_eq] and [fit_imag_neigh], which drive a
    guesser, and the line and group functions of [src/cans/parser.py]
    follow the class. *)

From Stdlib Require Import QArith Qround Qminmax Qabs Qpower.
From Stdlib Require Import ZArith String List Bool Arith Lia Lqa.
From Stdlib Require Import Sorted Permutation Ascii.
From Stdlib Require Import Floats Uint63.
Import ListNotations.

Open Scope Q_scope.

(** ** Python and numpy primitives *)

Inductive error : Type :=
| ValueError
| IndexError
| TypeError
| AttributeError
| NameError
| ZeroDivisionError
| OverflowError.

Inductive res (A : Type) : Type :=
| Ok (a : A)
| Raise (e : error).

Arguments Ok {A} a.
Arguments Raise {A} e.

Definition bind {A B : Type} (m : res A) (f : A -> res B) : res B :=
  match m with
  | Ok a => f a
  | Raise e => Raise e
  end.

Notation "x <- m ;; k" := (bind m (fun x => k))
  (at level 61, m at next level, right associativity).

Definition is_ok {A : Type} (m : res A) : bool :=
  match m with Ok _ => true | Raise _ => false end.

(** A float that may be NaN. *)
Definition entry : Type := option Q.

(** [num / den] on floats. *)
Definition fdiv (num den : Q) : res Q :=
  if Qeq_bool den 0 then Raise ZeroDivisionError else Ok (num / den).

(** [l[i]] on a list or array, [i >= 0]. *)
Definition getitem {A : Type} (l : list A) (i : nat) : res A :=
  match nth_error l i with
  | Some a => Ok a
  | None => Raise IndexError
  end.

(** [l[-1]]. *)
Definition getlast {A : Type} (l : list A) : res A :=
  match rev l with
  | a :: _ => Ok a
  | [] => Raise IndexError
  end.

(** [l[-n:]].  Python reads [-0] as [0]: [l[-0:]] is the whole of [l]. *)
Definition last_n {A : Type} (n : nat) (l : list A) : list A :=
  match n with
  | O => l
  | S _ => skipn (length l - n) l
  end.

(** [l.index(s)]. *)
Fixpoint py_index (s : string) (l : list string) : res nat :=
  match l with
  | [] => Raise ValueError
  | t :: l' => if String.eqb t s then Ok O else i <- py_index s l' ;; Ok (S i)
  end.

(** [i in l] for a collection of culture indices. *)
Definition mem (i : nat) (l : list nat) : bool := existsb (Nat.eqb i) l.

(** Truth value of a string: the empty string is false. *)
Definition truthy (s : string) : bool :=
  match s with EmptyString => false | _ => true end.

Definition np_sum (l : list Q) : Q := fold_right Qplus 0 l.

Definition of_nat (n : nat) : Q := inject_Z (Z.of_nat n).

(** [max(l)] and [min(l)]: [ValueError] on an empty sequence. *)
Definition py_max (l : list Q) : res Q :=
  match l with
  | [] => Raise ValueError
  | a :: l' => Ok (fold_left Qmax l' a)
  end.

Definition py_min (l : list Q) : res Q :=
  match l with
  | [] => Raise ValueError
  | a :: l' => Ok (fold_left Qmin l' a)
  end.

(** [np.mean] and [np.var] (population variance); nan on an empty array. *)
Definition np_mean (l : list Q) : res Q := fdiv (np_sum l) (of_nat (length l)).

Definition np_var (l : list Q) : res Q :=
  mu <- np_mean l ;;
  np_mean (map (fun v => (v - mu) * (v - mu)) l).

(** ** The collaborators' data, as the guesser reads it *)

(** What [Culture.fit_model] returns: the estimates [x] and the solver's
    status. *)
Record FitResult : Type := mkFit {
  x : list Q;
  success : bool
}.

(** A culture: its own time series, and the attributes the two quick-fit
    stages store on it ([None]: attribute not set). *)
Record Culture : Type := mkCulture {
  c_series : list Q;
  log_est : option FitResult;
  im_neigh_est : option FitResult
}.

Record Plate : Type := mkPlate {
  rows : nat;
  cols : nat;
  no_cultures : nat;
  times : list Q;
  c_meas : list Q;          (* all cultures, one block per time point *)
  c_meas_obj : list Q;      (* the same for the growers only *)
  internals : list nat;
  edges : list nat;
  empties : list nat;
  growers : list nat;
  cultures : list Culture;
  sim_params : list entry
}.

Record Model : Type := mkModel {
  species : list string;
  species_bc : list string;
  params : list string
}.

Record Guesser : Type := mkGuesser {
  plate : Plate;
  model : Model;
  area_ratio : option Q;
  C_ratio : option Q
}.

(** [Guesser.__init__]: a ratio is stored as [None] or as a float. *)
Definition new_Guesser (p : Plate) (m : Model) (area_ratio C_ratio : option Q)
    : Guesser :=
  mkGuesser p m area_ratio C_ratio.

(** A ratio attribute used in arithmetic: [None] is a [TypeError]. *)
Definition ratio (r : option Q) : res Q :=
  match r with
  | Some q => Ok q
  | None => Raise TypeError
  end.

(** ** Guesser: initial amounts *)

(** [np.sum(self.plate.c_meas_obj[-len(self.plate.growers):])] *)
Definition N_tot (g : Guesser) : Q :=
  np_sum (last_n (length (growers (plate g))) (c_meas_obj (plate g))).

Definition _guess_init_N (g : Guesser) : res (list Q) :=
  let N_tot := N_tot g in
  N_index <- py_index "N" (species (model g)) ;;
  bc <- getitem (species_bc (model g)) N_index ;;
  if truthy bc then
    let ni := of_nat (length (internals (plate g))) in
    let ne := of_nat (length (edges (plate g))) in
    r <- ratio (area_ratio g) ;;
    Ni <- fdiv N_tot (ni + ne * r) ;;
    Ne <- fdiv (N_tot - ni * Ni) ne ;;
    Ok [Ni; Ne]
  else
    N_all <- fdiv N_tot (of_nat (no_cultures (plate g))) ;;
    Ok [N_all].

Definition _guess_init_C (g : Guesser) : res (list Q) :=
  m <- py_max (last_n (no_cultures (plate g)) (c_meas (plate g))) ;;
  r <- ratio (C_ratio g) ;;
  Ok [m * r].

Definition make_first_guess (g : Guesser) (b_guess : Q) : res (list Q) :=
  C_0_guess <- _guess_init_C g ;;
  N_0_guess <- _guess_init_N g ;;
  let amount_guess := C_0_guess ++ N_0_guess in
  Ok (amount_guess ++ [b_guess]).

(** ** Guesser: bounds *)

(** A [(lower, upper)] pair; the upper bound [None] is Python's [None]:
    unbounded. *)
Definition bound : Type := (Q * option Q)%type.

Definition _bound_init_amounts (g : Guesser) (guess : list Q)
    (C_doubt N_doubt : Q) : res (list bound) :=
  g0 <- getitem guess 0 ;;
  lo0 <- fdiv g0 C_doubt ;;
  let bounds := [(lo0, Some (g0 * C_doubt))] in
  N_index <- py_index "N" (species (model g)) ;;
  bc <- getitem (species_bc (model g)) N_index ;;
  if negb (truthy bc) then
    g1 <- getitem guess 1 ;;
    Ok (bounds ++ [(g1 * (9 # 10), Some (g1 * N_doubt))])
  else
    g1 <- getitem guess 1 ;;
    lo1 <- fdiv g1 N_doubt ;;
    let bounds := bounds ++ [(lo1, Some (g1 * N_doubt))] in
    g2 <- getitem guess 2 ;;
    lo2 <- fdiv g2 N_doubt ;;
    Ok (bounds ++ [(lo2, Some (g2 * N_doubt))]).

Definition get_bounds (g : Guesser) (params : list Q)
    (C_doubt N_doubt kn_max : Q) : res (list bound) :=
  amount_bounds <- _bound_init_amounts g params C_doubt N_doubt ;;
  let kn_bound := [(0, Some kn_max)] in
  let b_bounds := map (fun _ => (0, None)) (seq 0 (no_cultures (plate g))) in
  Ok (amount_bounds ++ kn_bound ++ b_bounds).

(** [lower <= v <= upper]. *)
Definition within (v : Q) (b : bound) : Prop :=
  fst b <= v /\ match snd b with Some hi => v <= hi | None => True end.

(** [np.delete(l, i)] with an integer [i]. *)
Fixpoint delete_at {A : Type} (i : nat) (l : list A) : res (list A) :=
  match l, i with
  | [], _ => Raise IndexError
  | _ :: l', O => Ok l'
  | a :: l', S j => r <- delete_at j l' ;; Ok (a :: r)
  end.

Definition _sep_by_N_0 (g : Guesser) (param_guess : list Q)
    (bounds : list bound) : res (list (list Q) * list (list bound)) :=
  N_index <- py_index "N" (species (model g)) ;;
  bc <- getitem (species_bc (model g)) N_index ;;
  if truthy bc then
    p2 <- delete_at 2 param_guess ;;
    p1 <- delete_at 1 param_guess ;;
    b2 <- delete_at 2 bounds ;;
    b1 <- delete_at 1 bounds ;;
    Ok ([p2; p1], [b2; b1])
  else
    Ok ([param_guess], [bounds]).

(** ** Sorting and the median *)

(** [sorted] on [(C_f, est)] tuples, smallest [C_f] first.  Two tuples with
    the same [C_f] are compared on their [est], two arrays, whose comparison
    has no truth value when they hold more than one entry: [ValueError]. *)
Fixpoint insert_pair {A : Type} (p : Q * A) (l : list (Q * A))
    : res (list (Q * A)) :=
  match l with
  | [] => Ok [p]
  | q :: l' =>
      match fst p ?= fst q with
      | Lt => Ok (p :: q :: l')
      | Eq => Raise ValueError
      | Gt => r <- insert_pair p l' ;; Ok (q :: r)
      end
  end.

Fixpoint sorted_pairs {A : Type} (l : list (Q * A)) : res (list (Q * A)) :=
  match l with
  | [] => Ok []
  | p :: l' => s <- sorted_pairs l' ;; insert_pair p s
  end.

Fixpoint insert_Q (v : Q) (l : list Q) : list Q :=
  match l with
  | [] => [v]
  | w :: l' => if Qle_bool v w then v :: w :: l' else w :: insert_Q v l'
  end.

Definition sort_Q (l : list Q) : list Q := fold_right insert_Q [] l.

(** [np.median]: the middle of the sorted values, the mean of the two middle
    ones for an even count; nan on an empty array. *)
Definition np_median (l : list Q) : res Q :=
  let s := sort_Q l in
  let n := length s in
  match n with
  | O => Raise ZeroDivisionError
  | S _ =>
      if Nat.even n
      then Ok ((nth (n / 2 - 1) s 0 + nth (n / 2) s 0) / 2)
      else Ok (nth (n / 2) s 0)
  end.

(** [a[:, j]] on a 2-d array given by its rows.  An empty list of rows is a
    1-d array, and rows of different lengths do not make a 2-d array: both
    are an [IndexError]. *)
Definition column (j : nat) (rows : list (list Q)) : res (list Q) :=
  match rows with
  | [] => Raise IndexError
  | r0 :: _ =>
      if forallb (fun r => Nat.eqb (length r) (length r0)) rows
      then if Nat.ltb j (length r0)
           then Ok (map (fun r => nth j r 0) rows)
           else Raise IndexError
      else Raise IndexError
  end.

(** [l[i] = v] for [i >= 0]. *)
Fixpoint setitem {A : Type} (l : list A) (i : nat) (v : A) : res (list A) :=
  match l, i with
  | [], _ => Raise IndexError
  | _ :: l', O => Ok (v :: l')
  | a :: l', S j => r <- setitem l' j v ;; Ok (a :: r)
  end.

(** [np.insert(l, i, v)] for [0 <= i]; [i > len(l)] is an [IndexError]. *)
Fixpoint np_insert {A : Type} (l : list A) (i : nat) (v : A) {struct i}
    : res (list A) :=
  match i, l with
  | O, _ => Ok (v :: l)
  | S _, [] => Raise IndexError
  | S j, a :: l' => r <- np_insert l' j v ;; Ok (a :: r)
  end.

(** [holder[idxs] = vals]: one value per index, or a single value for all
    of them. *)
Fixpoint assign {A : Type} (holder : list A) (ivs : list (nat * A))
    : res (list A) :=
  match ivs with
  | [] => Ok holder
  | (i, v) :: ivs' => h <- setitem holder i v ;; assign h ivs'
  end.

Definition put (holder : list Q) (idxs : list nat) (vals : list Q)
    : res (list Q) :=
  if Nat.eqb (length vals) (length idxs)
  then assign holder (combine idxs vals)
  else if Nat.eqb (length vals) 1
       then assign holder (map (fun i => (i, hd 0 vals)) idxs)
       else Raise ValueError.

(** [l[j] = v] where [j] is known to be in range. *)
Fixpoint replace_nth {A : Type} (j : nat) (v : A) (l : list A) : list A :=
  match l, j with
  | [], _ => []
  | _ :: l', O => v :: l'
  | a :: l', S j' => a :: replace_nth j' v l'
  end.

(** [a[:, j].clip(max=mx, out=a[:, j])]: the column is a view, the rows of
    [a] change with it. *)
Definition clip_column (j : nat) (mx : Q) (rows : list (list Q))
    : list (list Q) :=
  map (fun r => replace_nth j (Qmin (nth j r 0) mx) r) rows.

(** [params.clip(min=0.0)]; NaN stays NaN. *)
Definition clip_min0 (e : entry) : entry := option_map (Qmax 0) e.

(** ** numpy: [linspace] and the least-squares line *)

(** [np.linspace(start, stop, num)] *)
Definition linspace (start stop : Q) (num : nat) : list Q :=
  match num with
  | O => []
  | 1%nat => [start]
  | _ =>
      let step := (stop - start) / of_nat (num - 1) in
      map (fun i => start + of_nat i * step) (seq 0 num)
  end.

Definition dot (xs ys : list Q) : Q :=
  np_sum (map (fun p => fst p * snd p) (combine xs ys)).

(** The determinant of the normal equations of the line through the
    abscissas [xs]: [n * sum(x^2) - sum(x)^2]. *)
Definition spread (xs : list Q) : Q :=
  of_nat (length xs) * dot xs xs - np_sum xs * np_sum xs.

(** [np.linalg.lstsq(np.vstack([xs, np.ones(len(xs))]).T, ys)[0]]: the
    slope and intercept [(m, c)] that minimise the sum of the squares of
    [y - (m*x + c)].  When all abscissas coincide (or there is none) the
    minimiser is not unique and [lstsq] gives the one of least norm. *)
Definition lstsq_line (xs ys : list Q) : Q * Q :=
  let n := of_nat (length xs) in
  let Sx := np_sum xs in
  let Sy := np_sum ys in
  let Sxx := dot xs xs in
  let Sxy := dot xs ys in
  let d := spread xs in
  if Qeq_bool d 0 then
    match xs with
    | [] => (0, 0)
    | x0 :: _ =>
        let ybar := Sy / n in
        (x0 * ybar / (1 + x0 * x0), ybar / (1 + x0 * x0))
    end
  else ((n * Sxy - Sx * Sy) / d, (Sxx * Sy - Sx * Sxy) / d).


(** ** The quick models, [cans.model.IndeModel] and [ImagNeighModel] *)

Inductive QuickModel : Type :=
| IndeModel
| ImagNeighModel (no_neighs : Z).

(** [getattr(c, est_name)] for the two attributes a stage may have set. *)
Definition getattr_est (c : Culture) (est_name : string) : res FitResult :=
  if String.eqb est_name "log_est" then
    match log_est c with Some r => Ok r | None => Raise AttributeError end
  else if String.eqb est_name "im_neigh_est" then
    match im_neigh_est c with Some r => Ok r | None => Raise AttributeError end
  else Raise AttributeError.

(** [[getattr(c, est_name).x for i, c in enumerate(cultures) if i in growers]],
    [i] counting from the index of the first culture of [cs]. *)
Fixpoint collect_ests (est_name : string) (growers : list nat) (i : nat)
    (cs : list Culture) : res (list (list Q)) :=
  match cs with
  | [] => Ok []
  | c :: cs' =>
      if mem i growers then
        r <- getattr_est c est_name ;;
        rest <- collect_ests est_name growers (S i) cs' ;;
        Ok (x r :: rest)
      else collect_ests est_name growers (S i) cs'
  end.

Definition set_cultures (p : Plate) (cs : list Culture) : Plate :=
  mkPlate (rows p) (cols p) (no_cultures p) (times p) (c_meas p)
          (c_meas_obj p) (internals p) (edges p) (empties p) (growers p)
          cs (sim_params p).

Definition set_plate (g : Guesser) (p : Plate) : Guesser :=
  mkGuesser p (model g) (area_ratio g) (C_ratio g).

Definition set_log_est (c : Culture) (r : FitResult) : Culture :=
  mkCulture (c_series c) (Some r) (im_neigh_est c).

Definition set_im_neigh_est (c : Culture) (r : FitResult) : Culture :=
  mkCulture (c_series c) (log_est c) (Some r).

Definition set_sim_params (p : Plate) (v : list entry) : Plate :=
  mkPlate (rows p) (cols p) (no_cultures p) (times p) (c_meas p)
          (c_meas_obj p) (internals p) (edges p) (empties p) (growers p)
          (cultures p) v.

Definition set_times (p : Plate) (t : list Q) : Plate :=
  mkPlate (rows p) (cols p) (no_cultures p) t (c_meas p)
          (c_meas_obj p) (internals p) (edges p) (empties p) (growers p)
          (cultures p) (sim_params p).

(** ** Guesser: aggregation of the quick estimates *)

Definition _get_top_half_C_f_ests (g : Guesser) (all_ests : list (list Q))
    : res (list (list Q)) :=
  let C_fs := last_n (no_cultures (plate g)) (c_meas (plate g)) in
  s <- sorted_pairs (combine C_fs all_ests) ;;
  let C_f_sorted := map snd s in
  let top_half_ests := skipn (no_cultures (plate g) / 2) C_f_sorted in
  Ok top_half_ests.

(** Lines 328-337: the growth rates of the growers, clipped on demand, in
    a vector with one entry per culture; also the estimates [all_ests] as
    the clipping leaves them. *)
Definition b_est_holder (b_index : nat) (g : Guesser) (est_name : string)
    (b_guess : Q) (clip : bool) : res (list (list Q) * list Q) :=
  all_ests <- collect_ests est_name (growers (plate g)) 0
                (cultures (plate g)) ;;
  b_ests <- column b_index all_ests ;;
  let all_ests := if clip then clip_column b_index (3 * b_guess) all_ests
                  else all_ests in
  let b_ests := if clip then map (fun b => Qmin b (3 * b_guess)) b_ests
                else b_ests in
  let holder := repeat 0 (no_cultures (plate g)) in
  holder <- put holder (growers (plate g)) b_ests ;;
  Ok (all_ests, holder).

Section Guesser_methods.

(** [quick_mod.b_index] *)
Variable b_index : QuickModel -> nat.
(** [culture.fit_model(model, param_guess, bounds)] *)
Variable fit_model :
  Culture -> QuickModel -> list Q -> list bound -> FitResult.
(** [Plate(rows, cols)] *)
Variable new_Plate : nat -> nat -> Plate.
(** [sim_plate.set_sim_data(model)]: simulates [model] with the plate's
    [sim_params] over its [times] and stores the result in [c_meas]. *)
Variable set_sim_data : Plate -> Model -> Plate.

Definition _process_quick_ests (g : Guesser) (quick_mod : QuickModel)
    (est_name : string) (b_guess : Q) (clip : bool)
    (C_0_handling : string) (plate_lvl : option (list Q))
    : res (list entry) :=
  ab <- b_est_holder (b_index quick_mod) g est_name b_guess clip ;;
  let all_ests := fst ab in
  let b_ests := snd ab in
  match plate_lvl with
  | Some pl => Ok (map Some (pl ++ b_ests))
  | None =>
      C_0_guess <-
        (if String.eqb C_0_handling "first_guess" then
           c <- _guess_init_C g ;; Ok (Some c)
         else if String.eqb C_0_handling "median" then
           col <- column 0 all_ests ;;
           m <- np_median col ;; Ok (Some [m])
         else if String.eqb C_0_handling "top_half" then
           included_ests <- _get_top_half_C_f_ests g all_ests ;;
           col <- column 0 included_ests ;;
           m <- np_median col ;; Ok (Some [m])
         else Ok None) ;;
      N_0_guess <- _guess_init_N g ;;
      (* an unknown policy leaves C_0_guess unbound *)
      C_0_guess <- match C_0_guess with
                   | Some c => Ok c
                   | None => Raise NameError
                   end ;;
      let new_guess := map Some (C_0_guess ++ N_0_guess ++ b_ests) in
      kn_index <- py_index "kn" (params (model g)) ;;
      np_insert new_guess kn_index None
  end.

(** ** Guesser: the logistic-equivalent stage *)

(** The loop of lines 439-442 over [zip(log_eq_guesses, cultures)]. *)
Fixpoint fit_log_eq_cultures (log_eq_mod : QuickModel)
    (log_eq_bounds : list bound) (log_eq_guesses : list (list Q))
    (cs : list Culture) : list Culture :=
  match log_eq_guesses, cs with
  | guess :: guesses', culture :: cs' =>
      set_log_est culture
        (fit_model culture log_eq_mod guess log_eq_bounds)
      :: fit_log_eq_cultures log_eq_mod log_eq_bounds guesses' cs'
  | _, _ => cs
  end.

(** Returns the new guess and the guesser with the cultures as the stage
    leaves them. *)
Definition quick_fit_log_eq (g : Guesser) (b_guess : Q)
    : res (list entry) * Guesser :=
  match make_first_guess g b_guess with
  | Raise e => (Raise e, g)
  | Ok first_guess =>
      match getitem first_guess 0 with
      | Raise e => (Raise e, g)
      | Ok C_0 =>
          let C_0_guess := [C_0] in
          let C_fs := last_n (no_cultures (plate g)) (c_meas (plate g)) in
          let log_eq_N_0_guesses := C_fs in
          let log_eq_guesses :=
            map (fun N_0 => C_0_guess ++ [N_0; b_guess])
                log_eq_N_0_guesses in
          let log_eq_bounds :=
            [(C_0, Some C_0); (0, None); (0, None)] in
          let log_eq_mod := IndeModel in
          let g' :=
            set_plate g
              (set_cultures (plate g)
                 (fit_log_eq_cultures log_eq_mod log_eq_bounds
                    log_eq_guesses (cultures (plate g)))) in
          (_process_quick_ests g' log_eq_mod "log_est" b_guess false
             "first_guess" None, g')
      end
  end.

(** ** Guesser: the imaginary-neighbour stage *)

(** Lines 472-481. *)
Definition imag_first_guess (g : Guesser) (N_index : nat) (N_bc : bool)
    (b_guess : Q) (plate_lvl : option (list Q)) : res (list Q) :=
  match plate_lvl with
  | None => make_first_guess g b_guess
  | Some pl =>
      match pl with
      | _ :: _ =>
          if N_bc then Ok (firstn (N_index + 2) pl ++ [b_guess])
          else Ok (firstn (N_index + 1) pl ++ [b_guess])
      | [] => Raise ValueError
      end
  end.

(** Lines 484-487. *)
Definition imag_N_0_min (g : Guesser) (N_index : nat)
    (plate_lvl : option (list Q)) : res Q :=
  match plate_lvl with
  | None => N_0 <- _guess_init_N g ;; py_min N_0
  | Some pl => getitem pl N_index
  end.

Definition imag_C_f_max (g : Guesser) : res Q :=
  py_max (last_n (no_cultures (plate g)) (c_meas (plate g))).

(** Lines 483-489. *)
Definition imag_no_neighs (g : Guesser) (N_index : nat)
    (no_neighs : option Z) (plate_lvl : option (list Q)) : res Z :=
  match no_neighs with
  | Some k => Ok k
  | None =>
      N_0_min <- imag_N_0_min g N_index plate_lvl ;;
      C_f_max <- imag_C_f_max g ;;
      q <- fdiv C_f_max N_0_min ;;
      Ok (Qceiling q)
  end.

(** The loop of lines 512-543, from culture [i] on.  [N_0_index] is the
    variable of that name: [None] while no iteration has bound it. *)
Fixpoint fit_imag_neigh_cultures (g : Guesser) (N_bc : bool)
    (imag_neigh_mod : QuickModel) (imag_neigh_params : list (list Q))
    (neigh_bounds : list (list bound)) (i : nat) (N_0_index : option nat)
    (cs : list Culture) : res unit * list Culture :=
  match cs with
  | [] => (Ok tt, [])
  | c :: cs' =>
      let N_0_index :=
        if negb N_bc then Some O
        else if mem i (internals (plate g)) then Some O
        else if mem i (edges (plate g)) then Some 1%nat
        else N_0_index in
      if mem i (empties (plate g)) then
        let (r, cs'') :=
          fit_imag_neigh_cultures g N_bc imag_neigh_mod imag_neigh_params
            neigh_bounds (S i) N_0_index cs' in
        (r, c :: cs'')
      else
        match (k <- match N_0_index with
                    | Some k => Ok k
                    | None => Raise NameError
                    end ;;
               p <- getitem imag_neigh_params k ;;
               b <- getitem neigh_bounds k ;;
               Ok (p, b)) with
        | Raise e => (Raise e, c :: cs')
        | Ok (p, b) =>
            let c' := set_im_neigh_est c (fit_model c imag_neigh_mod p b) in
            let (r, cs'') :=
              fit_imag_neigh_cultures g N_bc imag_neigh_mod
                imag_neigh_params neigh_bounds (S i) N_0_index cs' in
            (r, c' :: cs'')
        end
  end.

(** Lines 469-510: all that comes before the loop over the cultures. *)
Definition imag_setup (g : Guesser) (imag_neigh_params : list Q)
    (no_neighs : option Z) (plate_lvl : option (list Q))
    : res (bool * Q * QuickModel * list (list Q) * list (list bound)) :=
  N_index <- py_index "N" (species (model g)) ;;
  bc <- getitem (species_bc (model g)) N_index ;;
  let N_bc := truthy bc in
  b_guess <- getlast imag_neigh_params ;;
  first_guess <- imag_first_guess g N_index N_bc b_guess plate_lvl ;;
  no_neighs <- imag_no_neighs g N_index no_neighs plate_lvl ;;
  let imag_neigh_mod := ImagNeighModel no_neighs in
  let amount_bounds :=
    map (fun amount => (amount, Some amount)) (removelast first_guess) in
  p2 <- getitem imag_neigh_params 2 ;;
  p3 <- getitem imag_neigh_params 3 ;;
  let other_bounds :=
    [(0, None); (0, None); (p2, Some p2); (p3, Some p3); (0, None)] in
  let neigh_bounds := amount_bounds ++ other_bounds in
  let imag_neigh_params := removelast first_guess ++ imag_neigh_params in
  sep <- _sep_by_N_0 g imag_neigh_params neigh_bounds ;;
  Ok (N_bc, b_guess, imag_neigh_mod, fst sep, snd sep).

Definition quick_fit_imag_neighs (g : Guesser) (imag_neigh_params : list Q)
    (no_neighs : option Z) (plate_lvl : option (list Q))
    : res (list entry) * Guesser :=
  match imag_setup g imag_neigh_params no_neighs plate_lvl with
  | Raise e => (Raise e, g)
  | Ok (N_bc, b_guess, imag_neigh_mod, imag_neigh_params, neigh_bounds) =>
      let (r, cs) :=
        fit_imag_neigh_cultures g N_bc imag_neigh_mod imag_neigh_params
          neigh_bounds 0 None (cultures (plate g)) in
      let g' := set_plate g (set_cultures (plate g) cs) in
      match r with
      | Raise e => (Raise e, g')
      | Ok _ =>
          (_process_quick_ests g' imag_neigh_mod "im_neigh_est" b_guess
             true "first_guess" plate_lvl, g')
      end
  end.

(** ** Guesser: calibration of kn *)

(** The loop of lines 570-575.  Returns the simulated variances and the
    array [params] as the loop leaves it; [sim_plate] is the one plate
    every iteration simulates on. *)
Fixpoint kn_sweep (g : Guesser) (kn_index : nat) (kns : list Q)
    (params0 : list entry) (sim_plate : Plate)
    : res (list Q) * list entry :=
  match kns with
  | [] => (Ok [], params0)
  | kn :: kns' =>
      match setitem params0 kn_index (Some kn) with
      | Raise e => (Raise e, params0)
      | Ok params1 =>
          let sim_plate := set_sim_params sim_plate params1 in
          let sim_plate := set_sim_data sim_plate (model g) in
          let C_fs :=
            last_n (no_cultures sim_plate) (c_meas sim_plate) in
          match np_var C_fs with
          | Raise e => (Raise e, params1)
          | Ok v =>
              let (r, params2) :=
                kn_sweep g kn_index kns' params1 sim_plate in
              (vs <- r ;; Ok (v :: vs), params2)
          end
      end
  end.

(** Returns the clipped copy and the caller's array [params] as the call
    leaves it. *)
Definition guess_kn (g : Guesser) (start stop : Q) (num : nat)
    (params0 : list entry) : res (list entry) * list entry :=
  match np_var (last_n (no_cultures (plate g)) (c_meas (plate g))) with
  | Raise e => (Raise e, params0)
  | Ok C_f_var_true =>
      let kns := linspace start stop num in
      match py_index "kn" (params (model g)) with
      | Raise e => (Raise e, params0)
      | Ok kn_index =>
          let sim_plate := new_Plate (rows (plate g)) (cols (plate g)) in
          let sim_plate := set_times sim_plate (times (plate g)) in
          let (r, params1) :=
            kn_sweep g kn_index kns params0 sim_plate in
          match r with
          | Raise e => (Raise e, params1)
          | Ok C_f_vars =>
              let (m, c) := lstsq_line kns C_f_vars in
              match fdiv (C_f_var_true - c) m with
              | Raise e => (Raise e, params1)
              | Ok kn_guess =>
                  match setitem params1 kn_index (Some kn_guess) with
                  | Raise e => (Raise e, params1)
                  | Ok params2 => (Ok (map clip_min0 params2), params2)
                  end
              end
          end
      end
  end.

End Guesser_methods.

(** ** The module functions [fit_log_eq] and [fit_imag_neigh] *)

Section Fit_functions.

Variable b_index : QuickModel -> nat.
Variable fit_model :
  Culture -> QuickModel -> list Q -> list bound -> FitResult.
Variable new_Plate : nat -> nat -> Plate.
Variable set_sim_data : Plate -> Model -> Plate.

(** Returns the guess and the guesser; the array [guess_kn] writes to is
    the one [quick_fit_log_eq] returned and is dropped. *)
Definition fit_log_eq (plate : Plate) (plate_model : Model) (b_guess : Q)
    (area_ratio C_ratio : option Q) (kn_start kn_stop : Q) (kn_num : nat)
    : res (list entry) * Guesser :=
  let guesser := new_Guesser plate plate_model area_ratio C_ratio in
  match quick_fit_log_eq b_index fit_model guesser b_guess with
  | (Raise e, guesser) => (Raise e, guesser)
  | (Ok quick_guess, guesser) =>
      (fst (guess_kn new_Plate set_sim_data guesser kn_start kn_stop kn_num
              quick_guess), guesser)
  end.

Definition fit_imag_neigh (plate : Plate) (plate_model : Model)
    (area_ratio C_ratio : option Q) (imag_neigh_params : list Q)
    (no_neighs : option Z) (kn_start kn_stop : Q) (kn_num : nat)
    (plate_lvl : option (list Q)) : res (list entry) * Guesser :=
  let guesser := new_Guesser plate plate_model area_ratio C_ratio in
  match quick_fit_imag_neighs b_index fit_model guesser imag_neigh_params
          no_neighs plate_lvl with
  | (Raise e, guesser) => (Raise e, guesser)
  | (Ok quick_guess, guesser) =>
      match plate_lvl with
      | None =>
          (fst (guess_kn new_Plate set_sim_data guesser kn_start kn_stop
                  kn_num quick_guess), guesser)
      | Some _ => (Ok quick_guess, guesser)
      end
  end.

End Fit_functions.

(** ** cans.parser: lines and groups of a reaction file *)

Open Scope char_scope.

(** The characters [str.split()] splits on. *)
Definition is_space (c : ascii) : bool :=
  Ascii.eqb c " " || Ascii.eqb c "009" || Ascii.eqb c "010"
  || Ascii.eqb c "011" || Ascii.eqb c "012" || Ascii.eqb c "013".

Close Scope char_scope.

(** [line.split("#")[0]] *)
Fixpoint before_hash (line : string) : string :=
  match line with
  | EmptyString => EmptyString
  | String c line' =>
      if Ascii.eqb c "#"%char then EmptyString
      else String c (before_hash line')
  end.

(** ["".join(line.split())] *)
Fixpoint remove_whitespace (line : string) : string :=
  match line with
  | EmptyString => EmptyString
  | String c line' =>
      if is_space c then remove_whitespace line'
      else String c (remove_whitespace line')
  end.

(** Truth value of a line in [if line]. *)
Definition nonempty (line : string) : bool :=
  match line with EmptyString => false | String _ _ => true end.

Definition _clean_lines (lines : list string) : list string :=
  let lines := map before_hash lines in
  map remove_whitespace (filter nonempty lines).

(** [re.findall(r'@[^@]+', data)], by one pass from the end of [data]:
    the first component is the run of characters other than [@] that
    [data] starts with, the second the matches found in [data]. *)
Fixpoint findall_at (data : string) : string * list string :=
  match data with
  | EmptyString => (EmptyString, [])
  | String c data' =>
      let (run, found) := findall_at data' in
      if Ascii.eqb c "@"%char then
        (EmptyString,
         match run with
         | EmptyString => found
         | String _ _ => String c run :: found
         end)
      else (String c run, found)
  end.

(** [re.split(r'\n', group)] *)
Fixpoint split_newline (group : string) : list string :=
  match group with
  | EmptyString => [EmptyString]
  | String c group' =>
      if Ascii.eqb c "010"%char then EmptyString :: split_newline group'
      else match split_newline group' with
           | line :: lines => String c line :: lines
           | [] => [String c EmptyString]
           end
  end.

Definition group_data (data : string) : list (list string) :=
  let groups := snd (findall_at data) in
  let groups := map split_newline groups in
  let groups := map _clean_lines groups in
  groups.

(** Every character of [s] passes the test [f]. *)
Fixpoint all_chars (f : ascii -> bool) (s : string) : bool :=
  match s with
  | EmptyString => true
  | String c s' => f c && all_chars f s'
  end.

(** Neither [#] nor a whitespace character. *)
Definition clean_char (c : ascii) : bool :=
  negb (Ascii.eqb c "#"%char) && negb (is_space c).

Definition not_at (c : ascii) : bool := negb (Ascii.eqb c "@"%char).

(** ** Specification vocabulary *)

(** Whether the nutrient species has a boundary condition:
    [bool(self.model.species_bc[self.model.species.index("N")])]. *)
Definition N_bc (g : Guesser) : res bool :=
  N_index <- py_index "N" (species (model g)) ;;
  bc <- getitem (species_bc (model g)) N_index ;;
  Ok (truthy bc).

Definition n_internal (g : Guesser) : Q := of_nat (length (internals (plate g))).
Definition n_edge (g : Guesser) : Q := of_nat (length (edges (plate g))).
Definition total_culture_count (g : Guesser) : Q :=
  of_nat (no_cultures (plate g)).

(** The computation does not stop on a [TypeError], the exception that
    arithmetic on a [None] ratio raises. *)
Definition no_type_error {A : Type} (m : res A) : Prop := m <> Raise TypeError.

(** A single-nutrient model over the species C and N. *)
Definition CompModel : Model :=
  mkModel ["C"; "N"]%string [""; ""]%string
          ["C_0"; "N_0"; "kn"; "b"]%string.

(** The same with separate nutrient amounts for internal and edge cultures. *)
Definition CompModelBC : Model :=
  mkModel ["C"; "N"]%string [""; "NE_0"]%string
          ["C_0"; "N_0"; "NE_0"; "kn"; "b"]%string.

Definition no_est (series : list Q) : Culture := mkCulture series None None.

(** A plate without any culture. *)
Definition plate_0x0 : Plate :=
  mkPlate 0 0 0 [] [] [] [] [] [] [] [] [].

(** A 3x3 plate measured at two times, all cultures growing: eight edge
    cultures around one internal culture. *)
Definition plate_3x3 : Plate :=
  mkPlate 3 3 9 [0; 1]
    [0; 0; 0; 0; 0; 0; 0; 0; 0;  2; 3; 2; 3; 8; 3; 2; 3; 2]
    [0; 0; 0; 0; 0; 0; 0; 0; 0;  2; 3; 2; 3; 8; 3; 2; 3; 2]
    [4%nat] [0; 1; 2; 3; 5; 6; 7; 8]%nat [] [0; 1; 2; 3; 4; 5; 6; 7; 8]%nat
    (map no_est [[0; 2]; [0; 3]; [0; 2]; [0; 3]; [0; 8]; [0; 3]; [0; 2];
                 [0; 3]; [0; 2]])
    [].

(** A 2x2 plate measured at two times whose culture 0 is empty. *)
Definition plate_2x2_gap : Plate :=
  mkPlate 2 2 4 [0; 1]
    [0; 0; 0; 0;  0; 9; 1; 2]
    [0; 0; 0;  9; 1; 2]
    [] [0; 1; 2; 3]%nat [0%nat] [1; 2; 3]%nat
    (map no_est [[0; 0]; [0; 9]; [0; 1]; [0; 2]])
    [].

(** [b_ests] is the growth-rate sub-vector of the aggregated guess [v]:
    what follows the plate-level amounts, with NaN inserted at the index
    of kn when the amounts are inferred from the data. *)
Definition growth_rates_of (g : Guesser) (plate_lvl : option (list Q))
    (v : list entry) (b_ests : list Q) : Prop :=
  exists amounts : list Q,
    match plate_lvl with
    | Some pl => amounts = pl /\ v = map Some amounts ++ map Some b_ests
    | None =>
        exists kn_index,
          py_index "kn" (params (model g)) = Ok kn_index /\
          np_insert (map Some amounts ++ map Some b_ests) kn_index None
            = Ok v /\
          ((kn_index <= length amounts)%nat ->
           exists pre, v = pre ++ map Some b_ests)
    end.

(** Collaborators to run the stages with: the parameter layouts
    [[C_0, N_0, b]] and [[C_0, N_0, kn1, kn2, b-, b+, b]] of the two quick
    models, and a solver that returns its initial guess. *)
Definition layout_b_index (m : QuickModel) : nat :=
  match m with
  | IndeModel => 2
  | ImagNeighModel _ => 6
  end.

Definition echo_fit_model (c : Culture) (m : QuickModel) (guess : list Q)
    (bds : list bound) : FitResult :=
  mkFit guess true.

(** A solver whose estimates are its initial guess scaled by the final
    measurement of the culture. *)
Definition scaling_fit_model (c : Culture) (m : QuickModel) (guess : list Q)
    (bds : list bound) : FitResult :=
  mkFit (map (Qmult (last (c_series c) 0)) guess) true.

(** The guesser of the examples: the 2x2 plate with a gap, one nutrient. *)
Definition guesser_2x2_gap : Guesser :=
  mkGuesser plate_2x2_gap CompModel (Some 1) (Some (1 # 10000)).

(** A 1x2 plate measured once: final amounts 0 and 1, variance 1/4. *)
Definition plate_1x2 : Plate :=
  mkPlate 1 2 2 [1] [0; 1] [0; 1] [] [0; 1]%nat [] [0; 1]%nat
    (map no_est [[0]; [1]]) [].

Definition guesser_1x2 : Guesser :=
  mkGuesser plate_1x2 CompModel (Some 1) (Some (1 # 10000)).

(** Collaborators to run the calibration with: a plate constructor that
    fills in the geometry, and a simulator of two cultures whose final
    amounts are 0 and [2 * kn], of variance [kn * kn]. *)
Definition grid_Plate (rows cols : nat) : Plate :=
  mkPlate rows cols (rows * cols) [] [] [] [] (seq 0 (rows * cols)) []
    (seq 0 (rows * cols)) [] [].

Definition set_c_meas (p : Plate) (m : list Q) : Plate :=
  mkPlate (rows p) (cols p) (no_cultures p) (times p) m m (internals p)
    (edges p) (empties p) (growers p) (cultures p) (sim_params p).

Definition toy_set_sim_data (p : Plate) (m : Model) : Plate :=
  let kn :=
    match py_index "kn" (params m) with
    | Ok k => match nth_error (sim_params p) k with
              | Some (Some q) => q
              | _ => 0
              end
    | Raise _ => 0
    end in
  set_c_meas p [0; 2 * kn].

(** ** Rounded arithmetic: the initial nutrient amounts and the neighbours *)

Module FP.

(** A float: a finite value, an infinity or NaN.  The sign of a zero is
    not kept. *)
Inductive fl : Type :=
| Fin (q : Q)
| PInf
| NInf
| NaN.

(** The infinity of the sign of [q], NaN for zero: [q / 0.0] and
    [q * inf] on numpy floats. *)
Definition signed_inf (q : Q) : fl :=
  match q ?= 0 with
  | Gt => PInf
  | Lt => NInf
  | Eq => NaN
  end.

(** [a < b]; a comparison with NaN is false. *)
Definition fl_ltb (a b : fl) : bool :=
  match a, b with
  | NaN, _ | _, NaN => false
  | Fin x, Fin y => negb (Qle_bool y x)
  | _, NInf => false
  | NInf, _ => true
  | PInf, _ => false
  | Fin _, PInf => true
  end.

(** [min(l)]: the first of the least entries, as [<] finds them. *)
Definition py_min (l : list fl) : res fl :=
  match l with
  | [] => Raise ValueError
  | a :: l' => Ok (fold_left (fun m v => if fl_ltb v m then v else m) l' a)
  end.

(** [int(np.ceil(a))] *)
Definition int_ceil (a : fl) : res Z :=
  match a with
  | Fin q => Ok (Qceiling q)
  | NaN => Raise ValueError
  | PInf | NInf => Raise OverflowError
  end.

Section Rounded.

(** The float an exact result is rounded to. *)
Variable rnd : Q -> Q.
(** [np.sum] of floats: the additions and their order are numpy's. *)
Variable fl_sum : list Q -> Q.

Definition fl_add (a b : fl) : fl :=
  match a, b with
  | Fin x, Fin y => Fin (rnd (x + y))
  | NaN, _ | _, NaN => NaN
  | PInf, NInf | NInf, PInf => NaN
  | PInf, _ | _, PInf => PInf
  | NInf, _ | _, NInf => NInf
  end.

Definition fl_sub (a b : fl) : fl :=
  match a, b with
  | Fin x, Fin y => Fin (rnd (x - y))
  | NaN, _ | _, NaN => NaN
  | PInf, PInf | NInf, NInf => NaN
  | PInf, _ | _, NInf => PInf
  | NInf, _ | _, PInf => NInf
  end.

Definition fl_mul (a b : fl) : fl :=
  match a, b with
  | Fin x, Fin y => Fin (rnd (x * y))
  | NaN, _ | _, NaN => NaN
  | Fin x, PInf | PInf, Fin x => signed_inf x
  | Fin x, NInf | NInf, Fin x => signed_inf (- x)
  | PInf, PInf | NInf, NInf => PInf
  | PInf, NInf | NInf, PInf => NInf
  end.

Definition fl_div (a b : fl) : fl :=
  match a, b with
  | Fin x, Fin y => if Qeq_bool y 0 then signed_inf x else Fin (rnd (x / y))
  | NaN, _ | _, NaN => NaN
  | Fin _, _ => Fin 0
  | PInf, Fin y => if Qle_bool 0 y then PInf else NInf
  | NInf, Fin y => if Qle_bool 0 y then NInf else PInf
  | _, _ => NaN
  end.

(** [np.sum(self.plate.c_meas_obj[-len(self.plate.growers):])] *)
Definition N_tot (g : Guesser) : Q :=
  fl_sum (last_n (length (growers (plate g))) (c_meas_obj (plate g))).

Definition _guess_init_N (g : Guesser) : res (list fl) :=
  let N_tot := Fin (N_tot g) in
  N_index <- py_index "N" (species (model g)) ;;
  bc <- getitem (species_bc (model g)) N_index ;;
  if truthy bc then
    let ni := Fin (of_nat (length (internals (plate g)))) in
    let ne := Fin (of_nat (length (edges (plate g)))) in
    r <- ratio (area_ratio g) ;;
    let Ni := fl_div N_tot (fl_add ni (fl_mul ne (Fin r))) in
    let Ne := fl_div (fl_sub N_tot (fl_mul ni Ni)) ne in
    Ok [Ni; Ne]
  else
    let N_all := fl_div N_tot (Fin (of_nat (no_cultures (plate g)))) in
    Ok [N_all].

(** Lines 484-487; [plate_lvl] holds numpy floats. *)
Definition imag_N_0_min (g : Guesser) (N_index : nat)
    (plate_lvl : option (list Q)) : res fl :=
  match plate_lvl with
  | None => N_0 <- _guess_init_N g ;; py_min N_0
  | Some pl => v <- getitem pl N_index ;; Ok (Fin v)
  end.

(** Lines 483-489. *)
Definition imag_no_neighs (g : Guesser) (N_index : nat)
    (no_neighs : option Z) (plate_lvl : option (list Q)) : res Z :=
  match no_neighs with
  | Some k => Ok k
  | None =>
      N_0_min <- imag_N_0_min g N_index plate_lvl ;;
      C_f_max <- imag_C_f_max g ;;
      int_ceil (fl_div (Fin C_f_max) N_0_min)
  end.

End Rounded.

End FP.

(** The unit roundoff of float64, and a rounding that is off by all of
    it, away from zero. *)
Definition unit_roundoff : Q := 1 # 9007199254740992.

Definition round_away (v : Q) : Q := v * (1 + unit_roundoff).

(** ** binary64: the same code run on floats *)

Module F64.

Open Scope float_scope.

(** [float(n)] for a count [n]. *)
Definition of_nat (n : nat) : float := of_uint63 (Uint63.of_Z (Z.of_nat n)).

(** The rational a finite float stands for. *)
Definition value (v : float) : option Q :=
  match Prim2SF v with
  | S754_zero _ => Some 0%Q
  | S754_finite s m e =>
      Some ((if s then - inject_Z (Z.pos m) else inject_Z (Z.pos m))
            * Qpower 2 e)%Q
  | _ => None
  end.

(** [np.sum]: the entries added one after the other.  numpy adds longer
    arrays in another order; the sums of the examples are exact in every
    order. *)
Definition np_sum (l : list float) : float := fold_left PrimFloat.add l 0.

(** [np.mean] and [np.var]; nan on an empty array. *)
Definition np_mean (l : list float) : float := np_sum l / of_nat (length l).

Definition np_var (l : list float) : float :=
  let mu := np_mean l in
  np_mean (map (fun v => (v - mu) * (v - mu)) l).

(** [np.linspace(start, stop, num)]: the last candidate is [stop]
    itself. *)
Definition linspace (start stop : float) (num : nat) : list float :=
  match num with
  | O => []
  | 1%nat => [start]
  | _ =>
      let step := (stop - start) / of_nat (num - 1) in
      map (fun i => of_nat i * step + start) (seq 0 (num - 1)) ++ [stop]
  end.

(** [params.clip(min=0.0)] on one entry; NaN stays NaN. *)
Definition clip_min0 (v : float) : float := if v <? 0 then 0 else v.

(** The fields of [Plate] the two functions read. *)
Record Plate : Type := mkPlate {
  rows : nat;
  cols : nat;
  no_cultures : nat;
  times : list float;
  c_meas : list float;
  c_meas_obj : list float;
  internals : list nat;
  edges : list nat;
  growers : list nat;
  sim_params : list float
}.

Record Guesser : Type := mkGuesser {
  plate : Plate;
  model : Model;
  area_ratio : option float;
  C_ratio : option float
}.

Definition ratio (r : option float) : res float :=
  match r with
  | Some q => Ok q
  | None => Raise TypeError
  end.

Definition set_sim_params (p : Plate) (v : list float) : Plate :=
  mkPlate (rows p) (cols p) (no_cultures p) (times p) (c_meas p)
          (c_meas_obj p) (internals p) (edges p) (growers p) v.

Definition set_times (p : Plate) (t : list float) : Plate :=
  mkPlate (rows p) (cols p) (no_cultures p) t (c_meas p)
          (c_meas_obj p) (internals p) (edges p) (growers p) (sim_params p).

Definition _guess_init_N (g : Guesser) : res (list float) :=
  let N_tot :=
    np_sum (last_n (length (growers (plate g))) (c_meas_obj (plate g))) in
  N_index <- py_index "N" (species (model g)) ;;
  bc <- getitem (species_bc (model g)) N_index ;;
  if truthy bc then
    let ni := of_nat (length (internals (plate g))) in
    let ne := of_nat (length (edges (plate g))) in
    r <- ratio (area_ratio g) ;;
    let Ni := N_tot / (ni + ne * r) in
    let Ne := (N_tot - ni * Ni) / ne in
    Ok [Ni; Ne]
  else
    let N_all := N_tot / of_nat (no_cultures (plate g)) in
    Ok [N_all].

Section Calibration.

(** [Plate(rows, cols)] *)
Variable new_Plate : nat -> nat -> Plate.
(** [sim_plate.set_sim_data(model)] *)
Variable set_sim_data : Plate -> Model -> Plate.
(** [np.linalg.lstsq(np.vstack([xs, np.ones(len(xs))]).T, ys)[0]] *)
Variable lstsq : list float -> list float -> float * float.

(** The loop of lines 570-575. *)
Fixpoint kn_sweep (g : Guesser) (kn_index : nat) (kns : list float)
    (params0 : list float) (sim_plate : Plate)
    : res (list float) * list float :=
  match kns with
  | [] => (Ok [], params0)
  | kn :: kns' =>
      match setitem params0 kn_index kn with
      | Raise e => (Raise e, params0)
      | Ok params1 =>
          let sim_plate := set_sim_params sim_plate params1 in
          let sim_plate := set_sim_data sim_plate (model g) in
          let C_fs :=
            last_n (no_cultures sim_plate) (c_meas sim_plate) in
          let v := np_var C_fs in
          let (r, params2) :=
            kn_sweep g kn_index kns' params1 sim_plate in
          (vs <- r ;; Ok (v :: vs), params2)
      end
  end.

(** Returns the clipped copy and the caller's array [params] as the call
    leaves it. *)
Definition guess_kn (g : Guesser) (start stop : float) (num : nat)
    (params0 : list float) : res (list float) * list float :=
  let C_f_var_true :=
    np_var (last_n (no_cultures (plate g)) (c_meas (plate g))) in
  let kns := linspace start stop num in
  match py_index "kn" (params (model g)) with
  | Raise e => (Raise e, params0)
  | Ok kn_index =>
      let sim_plate := new_Plate (rows (plate g)) (cols (plate g)) in
      let sim_plate := set_times sim_plate (times (plate g)) in
      let (r, params1) :=
        kn_sweep g kn_index kns params0 sim_plate in
      match r with
      | Raise e => (Raise e, params1)
      | Ok C_f_vars =>
          let (m, c) := lstsq kns C_f_vars in
          let kn_guess := (C_f_var_true - c) / m in
          match setitem params1 kn_index kn_guess with
          | Raise e => (Raise e, params1)
          | Ok params2 => (Ok (map clip_min0 params2), params2)
          end
      end
  end.

End Calibration.

(** *** Plates and collaborators to run the code on *)

(** A plate of [rows * cols] cultures, all of them growers, measured once,
    with the final amounts [finals]. *)
Definition measured_Plate (rows cols : nat) (internals edges : list nat)
    (finals : list float) : Plate :=
  mkPlate rows cols (rows * cols) [1] finals finals internals edges
    (seq 0 (rows * cols)) [].

(** A 7x7 plate on which one culture grew to 1 and the others not at
    all, one nutrient. *)
Definition guesser_7x7 : Guesser :=
  mkGuesser (measured_Plate 7 7 [] [] (repeat 0 48 ++ [1]))
    CompModel (Some 1) (Some 0.5).

(** A 3x3 plate, eight edge cultures around one internal culture, final
    amounts of sum 5, separate nutrient amounts and area ratio 1.5. *)
Definition guesser_3x3 : Guesser :=
  mkGuesser
    (measured_Plate 3 3 [4%nat] [0; 1; 2; 3; 5; 6; 7; 8]%nat
       [1; 0; 1; 0; 1; 0; 1; 0; 1])
    CompModelBC (Some 1.5) (Some 0.5).

(** A plate without any culture. *)
Definition guesser_0x0 : Guesser :=
  mkGuesser (measured_Plate 0 0 [] [] []) CompModel (Some 1) (Some 0.5).


Definition grid_Plate (rows cols : nat) : Plate :=
  mkPlate rows cols (rows * cols) [] [] [] [] (seq 0 (rows * cols))
    (seq 0 (rows * cols)) [].


Definition dot (xs ys : list float) : float :=
  np_sum (map (fun p => fst p * snd p) (combine xs ys)).


Close Scope float_scope.

End F64.

(** ** Arithmetic helpers *)

Lemma fdiv_ok (num den : Q) : ~ den == 0 -> fdiv num den = Ok (num / den).
Proof.
  intros H. unfold fdiv.
  destruct (Qeq_bool den 0) eqn:E; [| reflexivity].
  apply Qeq_bool_eq in E. contradiction.
Qed.

Lemma of_nat_pos (n : nat) : (0 < n)%nat -> 0 < of_nat n.
Proof.
  intros H. unfold of_nat, Qlt. simpl. lia.
Qed.

Lemma of_nat_S (n : nat) : of_nat (S n) == of_nat n + 1.
Proof.
  unfold of_nat. rewrite Nat2Z.inj_succ, <- Z.add_1_r, inject_Z_plus.
  reflexivity.
Qed.

Lemma bind_ok_inv {A B : Type} (m : res A) (f : A -> res B) (b : B) :
  (x <- m ;; f x) = Ok b -> exists a, m = Ok a /\ f a = Ok b.
Proof.
  destruct m as [a | e]; simpl; [eauto | discriminate].
Qed.

(** ** Initial nutrient amounts *)

(** When the last block of [c_meas_obj] lists the final amounts of the
    growers, [N_tot] is the sum of the final measured amounts over the
    growing cultures. *)
Lemma N_tot_growers (g : Guesser) :
  let finals := last_n (no_cultures (plate g)) (c_meas (plate g)) in
  last_n (length (growers (plate g))) (c_meas_obj (plate g))
  = map (fun i => nth i finals 0) (growers (plate g)) ->
  N_tot g = np_sum (map (fun i => nth i finals 0) (growers (plate g))).
Proof.
  intros finals H. unfold N_tot. now rewrite H.
Qed.

(** ** Rounded arithmetic *)

Lemma Qabs_mult_le (a t b : Q) : Qabs t <= b -> Qabs (a * t) <= Qabs a * b.
Proof.
  intros H. rewrite Qabs_Qmult.
  pose proof (Qabs_nonneg a). nra.
Qed.

Lemma Qabs_lin2 (a b t p al be : Q) :
  Qabs t <= al -> Qabs p <= be ->
  Qabs (a * t - b * p) <= Qabs a * al + Qabs b * be.
Proof.
  intros Ht Hp. unfold Qminus.
  eapply Qle_trans; [apply Qabs_triangle |].
  rewrite Qabs_opp.
  pose proof (Qabs_mult_le a t al Ht). pose proof (Qabs_mult_le b p be Hp).
  lra.
Qed.

(** Two relative errors compose: [(1 + d)(1 + e) = 1 + (d + e + d * e)]. *)
Lemma Qabs_pert (d e al be : Q) :
  Qabs d <= al -> Qabs e <= be ->
  Qabs (d + e + d * e) <= al + be + al * be.
Proof.
  intros Hd He.
  eapply Qle_trans; [apply Qabs_triangle |].
  eapply Qle_trans; [apply Qplus_le_compat; [apply Qabs_triangle | apply Qle_refl] |].
  rewrite Qabs_Qmult.
  pose proof (Qabs_nonneg d). pose proof (Qabs_nonneg e). nra.
Qed.

Lemma Qabs_add_le (a b al be : Q) :
  Qabs a <= al -> Qabs b <= be -> Qabs (a + b) <= al + be.
Proof.
  intros Ha Hb. eapply Qle_trans; [apply Qabs_triangle | lra].
Qed.

Lemma Qabs_sub_le (a b al be : Q) :
  Qabs a <= al -> Qabs b <= be -> Qabs (a - b) <= al + be.
Proof.
  intros Ha Hb. unfold Qminus. apply Qabs_add_le; [exact Ha |].
  now rewrite Qabs_opp.
Qed.

Lemma Qabs_mul_le (a b al be : Q) :
  Qabs a <= al -> Qabs b <= be -> Qabs (a * b) <= al * be.
Proof.
  intros Ha Hb. rewrite Qabs_Qmult.
  pose proof (Qabs_nonneg a). pose proof (Qabs_nonneg b). nra.
Qed.

Section Rounding_error.

(** The standard model of floating-point arithmetic: an operation returns
    the exact result within the relative error [u], the unit roundoff
    ([2^-53] for float64 rounded to nearest), as long as it neither
    overflows nor underflows. *)
Variable u : Q.
Variable rnd : Q -> Q.
Hypothesis Hu : 0 <= u <= 1 # 4.
Hypothesis Hrnd : forall v, Qabs (rnd v - v) <= u * Qabs v.

Lemma rnd_rel (v : Q) : exists d, Qabs d <= u /\ rnd v == v * (1 + d).
Proof.
  destruct (Qeq_dec v 0) as [E | E].
  - exists 0. split; [simpl; lra |].
    pose proof (Hrnd v) as H.
    assert (HA : Qabs v == 0) by (rewrite E; reflexivity).
    assert (H0 : Qabs (rnd v - v) <= 0) by nra.
    apply Qabs_Qle_condition in H0. lra.
  - exists ((rnd v - v) / v). split.
    + pose proof (Hrnd v) as H.
      unfold Qdiv. rewrite Qabs_Qmult, Qabs_Qinv.
      assert (Hp : 0 < Qabs v).
      { pose proof (Qabs_nonneg v).
        destruct (Qeq_dec (Qabs v) 0) as [Z | Z]; [| lra].
        exfalso. apply E.
        assert (Hc : - 0 <= v <= 0)
          by (apply Qabs_Qle_condition; rewrite Z; lra).
        lra. }
      apply Qle_shift_div_r; [exact Hp | exact H].
    + field. exact E.
Qed.

Lemma rnd_nonneg (v : Q) : 0 <= v -> 0 <= rnd v.
Proof.
  intros Hv. destruct (rnd_rel v) as [d [Hd ->]].
  apply Qabs_Qle_condition in Hd. nra.
Qed.

Lemma rnd_pos (v : Q) : 0 < v -> 0 < rnd v.
Proof.
  intros Hv. destruct (rnd_rel v) as [d [Hd ->]].
  apply Qabs_Qle_condition in Hd. nra.
Qed.

Lemma rnd_nonzero (v : Q) : ~ v == 0 -> ~ rnd v == 0.
Proof.
  intros Hv. destruct (rnd_rel v) as [d [Hd ->]].
  apply Qabs_Qle_condition in Hd. intros H.
  assert (H1 : 0 < 1 + d) by lra.
  apply Hv. nra.
Qed.

(** One division: [N / n] rounded, times [n], is [N] within [u]. *)
Lemma quotient_bound (N n : Q) :
  ~ n == 0 -> Qabs (rnd (N / n) * n - N) <= u * Qabs N.
Proof.
  intros Hn. destruct (rnd_rel (N / n)) as [d [Hd E]]. rewrite E.
  assert (H : N / n * (1 + d) * n - N == N * d) by (field; exact Hn).
  rewrite H, (Qmult_comm u). now apply Qabs_mult_le.
Qed.

(** Lines 170-171 on numbers: the internal amount [Ni], the edge amount
    [Ne], and how far they are from the two laws they are solved from. *)
Lemma bc_amounts_bounds (N ni ne r : Q) :
  0 < ne -> ~ ni + rnd (ne * r) == 0 ->
  let D := rnd (ni + rnd (ne * r)) in
  let Ni := rnd (N / D) in
  let Ne := rnd (rnd (N - rnd (ni * Ni)) / ne) in
  ~ D == 0 /\
  Qabs (ni * Ni + ne * Ne - N)
    <= 3 * u * Qabs N + 4 * u * Qabs (ni * Ni) /\
  Qabs (ne * (Ne - Ni * r))
    <= 10 * u * (Qabs Ni * (Qabs ni + Qabs (ne * r))).
Proof.
  intros Hne HD0 D Ni Ne.
  assert (HD : ~ D == 0) by (apply rnd_nonzero; exact HD0).
  split; [exact HD |].
  destruct (rnd_rel (ne * r)) as [d1 [Hd1 E1]].
  destruct (rnd_rel (ni + rnd (ne * r))) as [d2 [Hd2 E2]]. fold D in E2.
  destruct (rnd_rel (N / D)) as [d3 [Hd3 E3]]. fold Ni in E3.
  destruct (rnd_rel (ni * Ni)) as [d4 [Hd4 E4]].
  destruct (rnd_rel (N - rnd (ni * Ni))) as [d5 [Hd5 E5]].
  destruct (rnd_rel (rnd (N - rnd (ni * Ni)) / ne)) as [d6 [Hd6 E6]].
  fold Ne in E6.
  set (t := rnd (ne * r)) in *.
  set (P := rnd (ni * Ni)) in *. set (S := rnd (N - P)) in *.
  clearbody Ne S P Ni D t.
  set (th := d5 + d6 + d5 * d6).
  assert (Hth : Qabs th <= (9 # 4) * u).
  { pose proof (Qabs_pert d5 d6 u u Hd5 Hd6). unfold th. nra. }
  assert (HneNe : ne * Ne == (N - ni * Ni * (1 + d4)) * (1 + th)).
  { rewrite E6, E5, E4. unfold th. field. lra. }
  split.
  - set (ph := d4 + th + d4 * th).
    assert (Hph : Qabs ph <= 4 * u).
    { pose proof (Qabs_pert d4 th u ((9 # 4) * u) Hd4 Hth). unfold ph. nra. }
    assert (HE : ni * Ni + ne * Ne - N == N * th - (ni * Ni) * ph).
    { rewrite HneNe. unfold ph. ring. }
    rewrite HE.
    eapply Qle_trans; [apply (Qabs_lin2 _ _ _ _ _ _ Hth Hph) |].
    pose proof (Qabs_nonneg N). pose proof (Qabs_nonneg (ni * Ni)). nra.
  - assert (H3 : (3 # 4) <= 1 + d3).
    { apply Qabs_Qle_condition in Hd3. lra. }
    set (a12 := d1 + d2 + d1 * d2). set (a34 := d3 + d4 + d3 * d4).
    assert (Ha12 : Qabs a12 <= (9 # 4) * u).
    { pose proof (Qabs_pert d1 d2 u u Hd1 Hd2). unfold a12. nra. }
    assert (Ha34 : Qabs a34 <= (9 # 4) * u).
    { pose proof (Qabs_pert d3 d4 u u Hd3 Hd4). unfold a34. nra. }
    set (A := (d2 - a34) * (1 + th)).
    set (B := a12 + th + a12 * th - d3).
    assert (HA : Qabs A <= 6 * u).
    { unfold A.
      pose proof (Qabs_sub_le d2 a34 _ _ Hd2 Ha34) as H1.
      assert (H2 : Qabs (1 + th) <= 1 + (9 # 4) * u)
        by (apply Qabs_add_le; [simpl; lra | exact Hth]).
      pose proof (Qabs_mul_le _ _ _ _ H1 H2). nra. }
    assert (HB : Qabs B <= 7 * u).
    { unfold B.
      pose proof (Qabs_pert a12 th _ _ Ha12 Hth) as H1.
      pose proof (Qabs_sub_le _ d3 _ _ H1 Hd3). nra. }
    assert (HN : N == Ni * D / (1 + d3)).
    { rewrite E3. field. split; [exact HD | lra]. }
    assert (K : (1 + d3) * (ne * (Ne - Ni * r))
                == Ni * (ni * A + ne * r * B)).
    { assert (K1 : ne * (Ne - Ni * r) == ne * Ne - ne * Ni * r) by ring.
      rewrite K1, HneNe, HN, E2, E1. unfold A, B, a12, a34. field. lra. }
    assert (HAB : Qabs (ni * A + ne * r * B)
                  <= 7 * u * (Qabs ni + Qabs (ne * r))).
    { pose proof (Qabs_mult_le ni A _ HA) as H1.
      pose proof (Qabs_mult_le (ne * r) B _ HB) as H2.
      pose proof (Qabs_add_le _ _ _ _ H1 H2) as H4.
      pose proof (Qabs_nonneg ni). pose proof (Qabs_nonneg (ne * r)). nra. }
    assert (HY : Qabs ((1 + d3) * (ne * (Ne - Ni * r)))
                 <= Qabs Ni * (7 * u * (Qabs ni + Qabs (ne * r)))).
    { rewrite K. now apply Qabs_mult_le. }
    rewrite Qabs_Qmult, (Qabs_pos (1 + d3)) in HY by lra.
    pose proof (Qabs_nonneg (ne * (Ne - Ni * r))).
    pose proof (Qabs_nonneg Ni). pose proof (Qabs_nonneg ni).
    pose proof (Qabs_nonneg (ne * r)).
    set (X := Qabs (ne * (Ne - Ni * r))) in *.
    set (M := Qabs Ni * (Qabs ni + Qabs (ne * r))) in *.
    assert (HM : 0 <= M) by (unfold M; nra).
    assert (HY' : (1 + d3) * X <= 7 * u * M) by (unfold M; nra).
    nra.
Qed.

(** [np.sum] of floats.  Whatever the order of its additions, a sum of
    [n] floats is within [((1 + u)^n - 1) * sum |x|] of the exact sum. *)
Variable fl_sum : list Q -> Q.
Hypothesis Hsum :
  forall l, Qabs (fl_sum l - np_sum l)
            <= ((1 + u) ^ Z.of_nat (length l) - 1) * np_sum (map Qabs l).

(** C1 (as amended).  In rounded arithmetic of unit roundoff [u], [N_tot]
    is the float sum of the last block of [c_meas_obj], the final amounts
    of the growers, within the rounding of its additions of their exact
    sum.  On a plate with at least one culture whose nutrient species has
    no boundary condition, [_guess_init_N] returns [[N_all]] with
    [N_all * total_culture_count] within [u * |N_tot|] of [N_tot]; with a
    boundary condition, an [area_ratio], at least one edge culture and a
    float [ni + ne * area_ratio] other than zero, it returns [[Ni; Ne]]
    with [ni * Ni + ne * Ne] within [3u |N_tot| + 4u |ni * Ni|] of [N_tot]
    and [ne * Ne] within [10u |Ni| (ni + |ne * area_ratio|)] of
    [ne * Ni * area_ratio].  For [u = 0], exact arithmetic, these are the
    laws [N_all * total_culture_count = N_tot],
    [ni * Ni + ne * Ne = N_tot] and [Ne = Ni * area_ratio]. *)
Theorem guess_init_N_conserves (g : Guesser) (bc : bool)
    (Hbc : N_bc g = Ok bc) :
  let finals :=
    last_n (length (growers (plate g))) (c_meas_obj (plate g)) in
  let N_tot := FP.N_tot fl_sum g in
  (N_tot = fl_sum finals /\
   Qabs (N_tot - np_sum finals)
     <= ((1 + u) ^ Z.of_nat (length finals) - 1)
        * np_sum (map Qabs finals)) /\
  (bc = false -> (0 < no_cultures (plate g))%nat ->
   exists N_all,
     FP._guess_init_N rnd fl_sum g = Ok [FP.Fin N_all] /\
     Qabs (N_all * total_culture_count g - N_tot) <= u * Qabs N_tot) /\
  (bc = true -> forall r : Q,
   area_ratio g = Some r ->
   0 < n_edge g ->
   ~ n_internal g + rnd (n_edge g * r) == 0 ->
   exists Ni Ne,
     FP._guess_init_N rnd fl_sum g = Ok [FP.Fin Ni; FP.Fin Ne] /\
     Qabs (n_internal g * Ni + n_edge g * Ne - N_tot)
       <= 3 * u * Qabs N_tot + 4 * u * Qabs (n_internal g * Ni) /\
     Qabs (n_edge g * (Ne - Ni * r))
       <= 10 * u * (Qabs Ni * (n_internal g + Qabs (n_edge g * r)))).
Proof.
  intros finals N_tot.
  split; [split; [reflexivity | apply Hsum] |].
  unfold N_bc in Hbc.
  apply bind_ok_inv in Hbc as [N_index [HN Hbc]].
  apply bind_ok_inv in Hbc as [flag [Hflag Hbc]].
  injection Hbc as Hbc.
  unfold FP._guess_init_N. rewrite HN. cbn [bind]. rewrite Hflag. cbn [bind].
  rewrite Hbc. fold N_tot.
  split.
  - intros -> Hpos.
    assert (Hn : ~ of_nat (no_cultures (plate g)) == 0).
    { pose proof (of_nat_pos _ Hpos). lra. }
    unfold FP.fl_div.
    destruct (Qeq_bool _ 0) eqn:E; [apply Qeq_bool_eq in E; contradiction |].
    eexists. split; [reflexivity |].
    unfold total_culture_count. now apply quotient_bound.
  - intros -> r Hr Hne Hden.
    rewrite Hr. cbn [bind ratio].
    fold (n_internal g) (n_edge g).
    destruct (bc_amounts_bounds N_tot (n_internal g) (n_edge g) r Hne Hden)
      as [HD [H1 H2]].
    cbn [FP.fl_mul FP.fl_add FP.fl_div].
    destruct (Qeq_bool (rnd (n_internal g + rnd (n_edge g * r))) 0) eqn:E;
      [apply Qeq_bool_eq in E; contradiction |].
    cbn [FP.fl_mul FP.fl_sub FP.fl_div].
    destruct (Qeq_bool (n_edge g) 0) eqn:E';
      [apply Qeq_bool_eq in E'; lra |].
    do 2 eexists. split; [reflexivity |].
    split; [exact H1 |].
    rewrite (Qabs_pos (n_internal g)) in H2; [exact H2 |].
    unfold n_internal, of_nat, Qle. simpl. lia.
Qed.

(** X4.  In rounded arithmetic, when the final amounts of the growers sum
    to a nonnegative [N_tot] and the area ratio is not negative, the
    amount [N_all], or the internal amount [Ni], is not negative; the
    edge amount [Ne] is the difference of two roundings and can be
    negative, by no more than the rounding allows:
    [ne * Ne >= - 10u Ni (ni + ne * area_ratio)]. *)
Theorem guess_init_N_nonneg (g : Guesser) (bc : bool)
    (Hbc : N_bc g = Ok bc)
    (Htot : 0 <= FP.N_tot fl_sum g) :
  (bc = false -> (0 < no_cultures (plate g))%nat ->
   exists N_all,
     FP._guess_init_N rnd fl_sum g = Ok [FP.Fin N_all] /\ 0 <= N_all) /\
  (bc = true -> forall r : Q,
   area_ratio g = Some r -> 0 <= r ->
   0 < n_edge g ->
   ~ n_internal g + n_edge g * r == 0 ->
   exists Ni Ne,
     FP._guess_init_N rnd fl_sum g = Ok [FP.Fin Ni; FP.Fin Ne] /\
     0 <= Ni /\
     - (10 * u * (Ni * (n_internal g + n_edge g * r))) <= n_edge g * Ne).
Proof.
  unfold N_bc in Hbc.
  apply bind_ok_inv in Hbc as [N_index [HN Hbc]].
  apply bind_ok_inv in Hbc as [flag [Hflag Hbc]].
  injection Hbc as Hbc.
  unfold FP._guess_init_N. rewrite HN. cbn [bind]. rewrite Hflag. cbn [bind].
  rewrite Hbc.
  set (N := FP.N_tot fl_sum g) in *.
  split.
  - intros -> Hpos.
    pose proof (of_nat_pos _ Hpos) as Hn.
    unfold FP.fl_div.
    destruct (Qeq_bool _ 0) eqn:E; [apply Qeq_bool_eq in E; lra |].
    eexists. split; [reflexivity |].
    apply rnd_nonneg. apply Qle_shift_div_l; [exact Hn | lra].
  - intros -> r Hr Hr0 Hne Hden.
    rewrite Hr. cbn [bind ratio].
    fold (n_internal g) (n_edge g).
    assert (Hni : 0 <= n_internal g)
      by (unfold n_internal, of_nat, Qle; simpl; lia).
    assert (Ht : 0 <= rnd (n_edge g * r)) by (apply rnd_nonneg; nra).
    assert (Hden' : ~ n_internal g + rnd (n_edge g * r) == 0).
    { intros H. apply Hden.
      assert (Hz : rnd (n_edge g * r) == 0) by lra.
      destruct (Qeq_dec (n_edge g * r) 0) as [Z | Z].
      - rewrite Z. lra.
      - exfalso. now apply (rnd_nonzero _ Z). }
    destruct (bc_amounts_bounds N (n_internal g) (n_edge g) r Hne Hden')
      as [HD [_ H2]].
    cbn [FP.fl_mul FP.fl_add FP.fl_div].
    destruct (Qeq_bool (rnd (n_internal g + rnd (n_edge g * r))) 0) eqn:E;
      [apply Qeq_bool_eq in E; contradiction |].
    cbn [FP.fl_mul FP.fl_sub FP.fl_div].
    destruct (Qeq_bool (n_edge g) 0) eqn:E';
      [apply Qeq_bool_eq in E'; lra |].
    do 2 eexists. split; [reflexivity |].
    set (D := rnd (n_internal g + rnd (n_edge g * r))) in *.
    set (Ni := rnd (N / D)) in *.
    assert (HDpos : 0 < D).
    { apply rnd_pos.
      destruct (Qeq_dec (n_internal g + rnd (n_edge g * r)) 0); [contradiction | lra]. }
    assert (HNi : 0 <= Ni).
    { apply rnd_nonneg. apply Qle_shift_div_l; [exact HDpos | lra]. }
    split; [exact HNi |].
    rewrite (Qabs_pos (n_internal g)), (Qabs_pos Ni),
      (Qabs_pos (n_edge g * r)) in H2 by nra.
    apply Qabs_Qle_condition in H2.
    assert (Hp : 0 <= n_edge g * (Ni * r)).
    { apply Qmult_le_0_compat; [lra |]. now apply Qmult_le_0_compat. }
    lra.
Qed.

(** [min(l)] is an entry of [l]. *)
Lemma FP_py_min_in (l : list FP.fl) (m : FP.fl) :
  FP.py_min l = Ok m -> In m l.
Proof.
  destruct l as [| a l]; simpl; [discriminate |].
  intros H. injection H as <-.
  revert a. induction l as [| v l IH]; intros a; simpl; [now left |].
  destruct (IH (if FP.fl_ltb v a then v else a)) as [H | H];
    [| now right; right].
  rewrite <- H. destruct (FP.fl_ltb v a); auto.
Qed.

(** X10.  In rounded arithmetic the number [k] of neighbours computed for
    [N_0_min > 0] is the least integer with [k * N_0_min >= C_f_max] up to
    the rounding of the quotient: [k * N_0_min] is at least
    [C_f_max - u |C_f_max|], and one neighbour less stays below
    [C_f_max + u |C_f_max|].  It is not negative when [C_f_max] is not,
    and [(1 + k) * N_0_min] exceeds [C_f_max] when
    [u |C_f_max| < N_0_min].  [N_0_min] is one of the guessed nutrient
    amounts, or the entry of [plate_lvl] at the index of N. *)
Theorem no_neighs_least (g : Guesser) (N_index : nat)
    (plate_lvl : option (list Q)) (N_0_min C_f_max : Q)
    (HN : FP.imag_N_0_min rnd fl_sum g N_index plate_lvl
          = Ok (FP.Fin N_0_min))
    (HC : imag_C_f_max g = Ok C_f_max)
    (Hpos : 0 < N_0_min) :
  match plate_lvl with
  | None =>
      exists N_0,
        FP._guess_init_N rnd fl_sum g = Ok N_0 /\ In (FP.Fin N_0_min) N_0
  | Some pl => nth_error pl N_index = Some N_0_min
  end /\
  exists k : Z,
    FP.imag_no_neighs rnd fl_sum g N_index None plate_lvl = Ok k /\
    C_f_max - u * Qabs C_f_max <= inject_Z k * N_0_min /\
    inject_Z (k - 1) * N_0_min < C_f_max + u * Qabs C_f_max /\
    (0 <= C_f_max -> (0 <= k)%Z) /\
    (u * Qabs C_f_max < N_0_min -> C_f_max < (1 + inject_Z k) * N_0_min).
Proof.
  split.
  - unfold FP.imag_N_0_min in HN. destruct plate_lvl as [pl |].
    + unfold getitem in HN.
      destruct (nth_error pl N_index) as [a |]; [| discriminate].
      cbn [bind] in HN. now injection HN as <-.
    + apply bind_ok_inv in HN as [N_0 [HN0 Hmin]].
      exists N_0. split; [exact HN0 | now apply FP_py_min_in].
  - assert (H0 : ~ N_0_min == 0) by lra.
    set (q := rnd (C_f_max / N_0_min)).
    exists (Qceiling q).
    assert (Hk : FP.imag_no_neighs rnd fl_sum g N_index None plate_lvl
                 = Ok (Qceiling q)).
    { unfold FP.imag_no_neighs. rewrite HN. cbn [bind]. rewrite HC.
      cbn [bind FP.fl_div].
      destruct (Qeq_bool N_0_min 0) eqn:E;
        [apply Qeq_bool_eq in E; contradiction | reflexivity]. }
    split; [exact Hk |].
    pose proof (Qle_ceiling q) as Hc1.
    pose proof (Qceiling_lt q) as Hc2.
    pose proof (quotient_bound C_f_max N_0_min H0) as Hq. fold q in Hq.
    apply Qabs_Qle_condition in Hq.
    pose proof (Qabs_nonneg C_f_max) as Ha.
    assert (Hk1 : inject_Z (Qceiling q - 1) == inject_Z (Qceiling q) - 1).
    { unfold Z.sub. rewrite inject_Z_plus. reflexivity. }
    rewrite Hk1.
    set (k := inject_Z (Qceiling q)) in *.
    assert (Hu0 : 0 <= u * Qabs C_f_max) by nra.
    split; [nra |]. split; [nra |]. split.
    + intros HC0.
      assert (Hq0 : 0 <= q).
      { apply rnd_nonneg. apply Qle_shift_div_l; [exact Hpos | lra]. }
      assert (Hk0 : 0 <= k) by lra.
      unfold k, Qle in Hk0. simpl in Hk0. lia.
    + intros Hcov. nra.
Qed.

End Rounding_error.

(** With no rounding and an exact sum the rounded code is the exact one:
    what [_guess_init_N] returns in exact arithmetic, the rounded code
    returns for [rnd] the identity. *)
Lemma guess_init_N_exact_rounding (g : Guesser) (Ns : list Q) :
  _guess_init_N g = Ok Ns ->
  FP._guess_init_N (fun v => v) np_sum g = Ok (map FP.Fin Ns).
Proof.
  unfold _guess_init_N, FP._guess_init_N, FP.N_tot. fold (N_tot g).
  destruct (py_index "N" (species (model g))) as [N_index | e];
    [| discriminate].
  cbn [bind].
  destruct (getitem (species_bc (model g)) N_index) as [bc | e];
    [| discriminate].
  cbn [bind]. destruct (truthy bc).
  - destruct (ratio (area_ratio g)) as [r | e]; [| discriminate].
    cbn [bind FP.fl_mul FP.fl_add FP.fl_div]. unfold fdiv.
    destruct (Qeq_bool _ 0); [discriminate |].
    cbn [bind FP.fl_mul FP.fl_sub FP.fl_div].
    destruct (Qeq_bool _ 0); [discriminate |].
    cbn [bind]. intros H. injection H as <-. reflexivity.
  - unfold fdiv, FP.fl_div.
    destruct (Qeq_bool _ 0); [discriminate |].
    cbn [bind]. intros H. injection H as <-. reflexivity.
Qed.

Lemma round_away_model (v : Q) :
  Qabs (round_away v - v) <= unit_roundoff * Qabs v.
Proof.
  unfold round_away.
  assert (H : v * (1 + unit_roundoff) - v == unit_roundoff * v) by ring.
  rewrite H, Qabs_Qmult. apply Qle_refl.
Qed.

Lemma unit_roundoff_small : 0 <= unit_roundoff <= 1 # 4.
Proof. split; discriminate. Qed.

Lemma np_sum_abs_nonneg (l : list Q) : 0 <= np_sum (map Qabs l).
Proof.
  induction l as [| v l IH]; [apply Qle_refl |].
  cbn [map]. change (np_sum (Qabs v :: map Qabs l)) with (Qabs v + np_sum (map Qabs l)). pose proof (Qabs_nonneg v). lra.
Qed.

(** The exact sum is within every bound on the rounding of a sum. *)
Lemma np_sum_model (w : Q) (l : list Q) :
  0 <= w ->
  Qabs (np_sum l - np_sum l)
  <= ((1 + w) ^ Z.of_nat (length l) - 1) * np_sum (map Qabs l).
Proof.
  intros Hw.
  assert (E : np_sum l - np_sum l == 0) by ring.
  rewrite E. change (Qabs 0) with 0.
  apply Qmult_le_0_compat; [| apply np_sum_abs_nonneg].
  assert (H1 : 1 <= (1 + w) ^ Z.of_nat (length l))
    by (apply Qpower_1_le; [lra | lia]).
  lra.
Qed.

(** C1, witness: the 3x3 plate under both models, with a rounding that is
    off by the whole unit roundoff and an exact sum. *)
Lemma guess_init_N_conserves_witness :
  (exists N_all,
     FP._guess_init_N round_away np_sum
       (mkGuesser plate_3x3 CompModel (Some 1) (Some (1 # 10000)))
     = Ok [FP.Fin N_all] /\
     Qabs (N_all * 9 - 28) <= unit_roundoff * Qabs 28) /\
  (exists Ni Ne,
     FP._guess_init_N round_away np_sum
       (mkGuesser plate_3x3 CompModelBC (Some (3 # 2)) None)
     = Ok [FP.Fin Ni; FP.Fin Ne] /\
     Qabs (1 * Ni + 8 * Ne - 28)
       <= 3 * unit_roundoff * Qabs 28 + 4 * unit_roundoff * Qabs (1 * Ni) /\
     Qabs (8 * (Ne - Ni * (3 # 2)))
       <= 10 * unit_roundoff * (Qabs Ni * (1 + Qabs (8 * (3 # 2))))).
Proof.
  assert (Hs : forall l,
            Qabs (np_sum l - np_sum l)
            <= ((1 + unit_roundoff) ^ Z.of_nat (length l) - 1)
               * np_sum (map Qabs l))
    by (intros l; apply np_sum_model; discriminate).
  split.
  - apply (proj1 (proj2 (guess_init_N_conserves unit_roundoff round_away
                    unit_roundoff_small round_away_model np_sum Hs
                    (mkGuesser plate_3x3 CompModel (Some 1) (Some (1 # 10000)))
                    false eq_refl))).
    + reflexivity.
    + simpl. lia.
  - apply (proj2 (proj2 (guess_init_N_conserves unit_roundoff round_away
                    unit_roundoff_small round_away_model np_sum Hs
                    (mkGuesser plate_3x3 CompModelBC (Some (3 # 2)) None)
                    true eq_refl))).
    + reflexivity.
    + reflexivity.
    + reflexivity.
    + vm_compute. discriminate.
Defined.

(** C1, counterexample to the claim as stated: the code run in binary64.
    On the 7x7 plate with [N_tot = 1] it returns [N_all] with
    [N_all * 49 = 0.9999999999999999], and the product is not 1 in exact
    arithmetic either; on the 3x3 plate with area ratio 1.5 and
    [N_tot = 5] it returns [Ne = 0.5769230769230769], not
    [Ni * 1.5 = 0.576923076923077]; both are off by less than the
    rounded arithmetic allows.  On the plate without cultures it returns
    [[nan]]. *)
Lemma guess_init_N_binary64 :
  (exists N_all q,
     F64.np_sum (F64.c_meas_obj (F64.plate F64.guesser_7x7)) = 1%float /\
     F64._guess_init_N F64.guesser_7x7 = Ok [N_all] /\
     PrimFloat.eqb (N_all * 49) 1 = false /\
     F64.value N_all = Some q /\ ~ q * 49 == 1 /\
     Qabs (q * 49 - 1) <= unit_roundoff * Qabs 1) /\
  (exists Ni Ne qi qe,
     F64.np_sum (F64.c_meas_obj (F64.plate F64.guesser_3x3)) = 5%float /\
     F64._guess_init_N F64.guesser_3x3 = Ok [Ni; Ne] /\
     PrimFloat.eqb Ne (Ni * 1.5) = false /\
     F64.value Ni = Some qi /\ F64.value Ne = Some qe /\
     ~ qe == qi * (3 # 2) /\
     Qabs (8 * (qe - qi * (3 # 2)))
       <= 10 * unit_roundoff * (Qabs qi * (1 + Qabs (8 * (3 # 2))))) /\
  (exists N_all,
     F64._guess_init_N F64.guesser_0x0 = Ok [N_all] /\
     PrimFloat.is_nan N_all = true).
Proof.
  split; [| split].
  - do 2 eexists. split; [vm_compute; reflexivity |].
    split; [vm_compute; reflexivity |].
    split; [vm_compute; reflexivity |].
    split; [vm_compute; reflexivity |].
    split; vm_compute; discriminate.
  - do 4 eexists. split; [vm_compute; reflexivity |].
    split; [vm_compute; reflexivity |].
    split; [vm_compute; reflexivity |].
    split; [vm_compute; reflexivity |].
    split; [vm_compute; reflexivity |].
    split; vm_compute; discriminate.
  - eexists. split; vm_compute; reflexivity.
Qed.

(** X4, witness: the 3x3 plate under both models. *)
Lemma guess_init_N_nonneg_witness :
  (exists N_all,
     FP._guess_init_N round_away np_sum
       (mkGuesser plate_3x3 CompModel (Some 1) (Some (1 # 10000)))
     = Ok [FP.Fin N_all] /\ 0 <= N_all) /\
  (exists Ni Ne,
     FP._guess_init_N round_away np_sum
       (mkGuesser plate_3x3 CompModelBC (Some (3 # 2)) None)
     = Ok [FP.Fin Ni; FP.Fin Ne] /\
     0 <= Ni /\
     - (10 * unit_roundoff * (Ni * (1 + 8 * (3 # 2)))) <= 8 * Ne).
Proof.
  split.
  - apply (proj1 (guess_init_N_nonneg unit_roundoff round_away
                    unit_roundoff_small round_away_model np_sum
                    (mkGuesser plate_3x3 CompModel (Some 1) (Some (1 # 10000)))
                    false eq_refl ltac:(discriminate))).
    + reflexivity.
    + simpl. lia.
  - apply (proj2 (guess_init_N_nonneg unit_roundoff round_away
                    unit_roundoff_small round_away_model np_sum
                    (mkGuesser plate_3x3 CompModelBC (Some (3 # 2)) None)
                    true eq_refl ltac:(discriminate))).
    + reflexivity.
    + reflexivity.
    + discriminate.
    + reflexivity.
    + vm_compute. discriminate.
Defined.

(** X10, witness: the 3x3 plate with the nutrient amount 2 given in
    [plate_lvl] and [C_f_max = 8]: the quotient 4 is rounded up and five
    neighbours are computed, one more than in exact arithmetic. *)
Lemma no_neighs_least_witness :
  FP.imag_no_neighs round_away np_sum
    (mkGuesser plate_3x3 CompModel None None) 1 None (Some [1 # 100; 2])
  = Ok 5%Z /\
  exists k : Z,
    FP.imag_no_neighs round_away np_sum
      (mkGuesser plate_3x3 CompModel None None) 1 None (Some [1 # 100; 2])
    = Ok k /\
    8 - unit_roundoff * Qabs 8 <= inject_Z k * 2 /\
    inject_Z (k - 1) * 2 < 8 + unit_roundoff * Qabs 8.
Proof.
  split; [vm_compute; reflexivity |].
  destruct (no_neighs_least unit_roundoff round_away unit_roundoff_small
              round_away_model np_sum
              (mkGuesser plate_3x3 CompModel None None) 1
              (Some [1 # 100; 2]) 2 8 eq_refl eq_refl eq_refl)
    as [_ [k [Hk [H1 [H2 _]]]]].
  exists k. repeat split; assumption.
Defined.


(** ** Bounds *)

Lemma map_const_seq {A : Type} (a : A) (n s : nat) :
  map (fun _ => a) (seq s n) = repeat a n.
Proof.
  revert s. induction n as [| n IH]; intros s; simpl; [reflexivity |].
  now rewrite IH.
Qed.

Lemma div_le_self (v d : Q) : 0 <= v -> 1 <= d -> v / d <= v.
Proof.
  intros Hv Hd. apply Qle_shift_div_r; [lra |]. nra.
Qed.

Lemma le_mul_self (v d : Q) : 0 <= v -> 1 <= d -> v <= v * d.
Proof.
  intros Hv Hd. nra.
Qed.

Lemma within_symmetric (v d : Q) :
  0 <= v -> 1 <= d -> within v (v / d, Some (v * d)).
Proof.
  intros Hv Hd. split; simpl; [now apply div_le_self | now apply le_mul_self].
Qed.

Lemma within_asymmetric (v d : Q) :
  0 <= v -> 1 <= d -> within v (v * (9 # 10), Some (v * d)).
Proof.
  intros Hv Hd. split; simpl; [lra | now apply le_mul_self].
Qed.

Lemma within_unbounded (bs : list Q) :
  Forall (Qle 0) bs -> Forall2 within bs (repeat (0, None) (length bs)).
Proof.
  induction 1 as [| b bs Hb _ IH]; simpl; constructor; [| exact IH].
  split; simpl; [exact Hb | exact I].
Qed.

Lemma within_interval (v hi : Q) : 0 <= v <= hi -> within v (0, Some hi).
Proof.
  intros H. exact H.
Qed.

Create HintDb bounds.
#[local] Hint Resolve within_symmetric within_asymmetric within_unbounded
  within_interval : bounds.

(** C4.  For doubt factors [C_doubt >= 1] and [N_doubt >= 1], nonnegative
    amount guesses, a kn guess in [[0, kn_max]] and nonnegative growth-rate
    guesses, [get_bounds] returns one bound per parameter with
    [lower <= guess <= upper] at every position.  The bounds are
    [(C0 / C_doubt, C0 * C_doubt)], then [(0.9 * N0, N_doubt * N0)] for a
    single nutrient or [(N / N_doubt, N * N_doubt)] for each of two, then
    [(0, kn_max)], then [(0, None)] for every culture. *)
Theorem get_bounds_enclose (g : Guesser) (bc : bool)
    (C0 kn C_doubt N_doubt kn_max : Q) (Ns bs : list Q)
    (Hbc : N_bc g = Ok bc)
    (HNs : length Ns = if bc then 2%nat else 1%nat)
    (Hbs : length bs = no_cultures (plate g))
    (HCd : 1 <= C_doubt) (HNd : 1 <= N_doubt)
    (HC0 : 0 <= C0) (HN : Forall (Qle 0) Ns)
    (Hkn : 0 <= kn <= kn_max) (Hb : Forall (Qle 0) bs) :
  let guess := C0 :: Ns ++ kn :: bs in
  exists bounds,
    get_bounds g guess C_doubt N_doubt kn_max = Ok bounds /\
    Forall2 within guess bounds /\
    bounds =
      (C0 / C_doubt, Some (C0 * C_doubt))
      :: (if bc
          then map (fun N => (N / N_doubt, Some (N * N_doubt))) Ns
          else map (fun N => (N * (9 # 10), Some (N * N_doubt))) Ns)
      ++ (0, Some kn_max)
      :: repeat (0, None) (no_cultures (plate g)).
Proof.
  intros guess. subst guess.
  unfold N_bc in Hbc.
  apply bind_ok_inv in Hbc as [N_index [HN_index Hbc]].
  apply bind_ok_inv in Hbc as [flag [Hflag Hbc]].
  injection Hbc as Hbc.
  assert (HCd0 : ~ C_doubt == 0) by lra.
  assert (HNd0 : ~ N_doubt == 0) by lra.
  unfold get_bounds, _bound_init_amounts.
  cbn [getitem nth_error bind].
  rewrite (fdiv_ok _ _ HCd0). cbn [bind].
  rewrite HN_index. cbn [bind]. rewrite Hflag. cbn [bind]. rewrite Hbc.
  rewrite map_const_seq, <- Hbs.
  destruct bc; cbn [negb].
  - destruct Ns as [| Ni [| Ne [| ? ?]]]; try discriminate HNs.
    inversion HN as [| ? ? HNi HN']; subst.
    inversion HN' as [| ? ? HNe _]; subst.
    cbn [app getitem nth_error bind].
    rewrite !(fdiv_ok _ _ HNd0). cbn [bind app map].
    eexists. split; [reflexivity |]. split; [| reflexivity].
    repeat (constructor; [solve [auto with bounds] |]).
    auto with bounds.
  - destruct Ns as [| N0 [| ? ?]]; try discriminate HNs.
    inversion HN as [| ? ? HN0 _]; subst.
    cbn [app getitem nth_error bind map].
    eexists. split; [reflexivity |]. split; [| reflexivity].
    repeat (constructor; [solve [auto with bounds] |]).
    auto with bounds.
Qed.

(** C4, witness: the 3x3 plate, single nutrient, default doubt factors. *)
Lemma get_bounds_enclose_witness :
  exists bounds,
    get_bounds (mkGuesser plate_3x3 CompModel (Some 1) (Some (1 # 10000)))
      [8 # 10000; 28 # 9; 1 # 2; 1; 1; 1; 1; 1; 1; 1; 1; 0]
      1000 2 10 = Ok bounds /\
    Forall2 within
      [8 # 10000; 28 # 9; 1 # 2; 1; 1; 1; 1; 1; 1; 1; 1; 0] bounds.
Proof.
  destruct (get_bounds_enclose
              (mkGuesser plate_3x3 CompModel (Some 1) (Some (1 # 10000)))
              false (8 # 10000) (1 # 2) 1000 2 10 [28 # 9]
              [1; 1; 1; 1; 1; 1; 1; 1; 0] eq_refl eq_refl eq_refl)
    as [bounds [H1 [H2 _]]].
  - discriminate.
  - discriminate.
  - discriminate.
  - repeat constructor; discriminate.
  - split; discriminate.
  - repeat constructor; discriminate.
  - exists bounds. split; [exact H1 | exact H2].
Defined.

(** ** The number of imaginary neighbours *)

Lemma fold_max_ge_init (l : list Q) (a : Q) : a <= fold_left Qmax l a.
Proof.
  revert a. induction l as [| v l IH]; intros a; simpl; [lra |].
  eapply Qle_trans; [apply (Q.le_max_l a v) | apply IH].
Qed.

Lemma fold_max_ge (l : list Q) (a : Q) :
  Forall (fun v => v <= fold_left Qmax l a) l.
Proof.
  revert a. induction l as [| v l IH]; intros a; simpl; constructor.
  - eapply Qle_trans; [apply (Q.le_max_r a v) | apply fold_max_ge_init].
  - apply IH.
Qed.

Lemma py_max_ge (l : list Q) (m : Q) :
  py_max l = Ok m -> Forall (fun v => v <= m) l.
Proof.
  destruct l as [| a l]; simpl; [discriminate |].
  intros H. injection H as <-. constructor.
  - apply fold_max_ge_init.
  - apply fold_max_ge.
Qed.


Lemma fold_max_attained (l : list Q) (a : Q) :
  In (fold_left Qmax l a) (a :: l).
Proof.
  revert a. induction l as [| v l IH]; intros a; simpl; [now left |].
  destruct (IH (Qmax a v)) as [H | H]; [| now right; right].
  rewrite <- H. unfold Qmax, GenericMinMax.gmax.
  destruct (a ?= v); auto.
Qed.

Lemma py_max_attained (l : list Q) (m : Q) : py_max l = Ok m -> In m l.
Proof.
  destruct l as [| a l]; simpl; [discriminate |].
  intros H. injection H as <-. apply fold_max_attained.
Qed.






(** ** Computations that raise no [TypeError] *)

Lemma nte_bind {A B : Type} (m : res A) (f : A -> res B) :
  no_type_error m -> (forall a, m = Ok a -> no_type_error (f a)) ->
  no_type_error (x <- m ;; f x).
Proof.
  intros Hm Hf. destruct m as [a | e]; cbn [bind]; [now apply Hf |].
  intros H. apply Hm. injection H as ->. reflexivity.
Qed.

Lemma nte_raise {A B : Type} (e : error) :
  no_type_error (@Raise A e) -> no_type_error (@Raise B e).
Proof.
  intros Hm H. apply Hm. injection H as ->. reflexivity.
Qed.

Lemma nte_index (s : string) (l : list string) : no_type_error (py_index s l).
Proof.
  induction l as [| t l IH]; simpl; [discriminate |].
  destruct (String.eqb t s); [discriminate |].
  apply nte_bind; [exact IH | discriminate].
Qed.

Lemma nte_getitem {A : Type} (l : list A) (i : nat) :
  no_type_error (getitem l i).
Proof. unfold getitem. destruct (nth_error l i); discriminate. Qed.

Lemma nte_getlast {A : Type} (l : list A) : no_type_error (getlast l).
Proof. unfold getlast. destruct (rev l); discriminate. Qed.

Lemma nte_fdiv (a b : Q) : no_type_error (fdiv a b).
Proof. unfold fdiv. destruct (Qeq_bool b 0); discriminate. Qed.

Lemma nte_py_max (l : list Q) : no_type_error (py_max l).
Proof. destruct l; discriminate. Qed.

Lemma nte_delete_at {A : Type} (i : nat) (l : list A) :
  no_type_error (delete_at i l).
Proof.
  revert i. induction l as [| a l IH]; intros [| i]; simpl; try discriminate.
  apply nte_bind; [apply IH | discriminate].
Qed.

Lemma nte_setitem {A : Type} (l : list A) (i : nat) (v : A) :
  no_type_error (setitem l i v).
Proof.
  revert i. induction l as [| a l IH]; intros [| i]; simpl; try discriminate.
  apply nte_bind; [apply IH | discriminate].
Qed.

Lemma nte_assign {A : Type} (ivs : list (nat * A)) (h : list A) :
  no_type_error (assign h ivs).
Proof.
  revert h. induction ivs as [| [i v] ivs IH]; intros h; simpl;
    [discriminate |].
  apply nte_bind; [apply nte_setitem | intros; apply IH].
Qed.

Lemma nte_put (h : list Q) (idxs : list nat) (vals : list Q) :
  no_type_error (put h idxs vals).
Proof.
  unfold put. destruct (Nat.eqb _ _); [apply nte_assign |].
  destruct (Nat.eqb _ _); [apply nte_assign | discriminate].
Qed.

Lemma nte_column (j : nat) (rws : list (list Q)) :
  no_type_error (column j rws).
Proof.
  unfold column. destruct rws as [| r0 rws]; [discriminate |].
  destruct (forallb _ _); [| discriminate].
  destruct (Nat.ltb _ _); discriminate.
Qed.

Lemma nte_getattr_est (c : Culture) (name : string) :
  no_type_error (getattr_est c name).
Proof.
  unfold getattr_est.
  destruct (String.eqb _ _); [destruct (log_est c); discriminate |].
  destruct (String.eqb _ _); [destruct (im_neigh_est c); discriminate |].
  discriminate.
Qed.

Lemma nte_collect_ests (name : string) (gr : list nat) (cs : list Culture)
    (i : nat) : no_type_error (collect_ests name gr i cs).
Proof.
  revert i. induction cs as [| c cs IH]; intros i; simpl; [discriminate |].
  destruct (mem i gr); [| apply IH].
  apply nte_bind; [apply nte_getattr_est | intros r _].
  apply nte_bind; [apply IH | discriminate].
Qed.

Create HintDb nte.
#[local] Hint Resolve nte_index nte_getitem nte_getlast nte_fdiv nte_py_max
  nte_delete_at nte_setitem nte_assign nte_put nte_column nte_getattr_est
  nte_collect_ests : nte.

(** Walks down a chain of binds whose steps are in the database. *)
Ltac nte_steps :=
  repeat (apply nte_bind; [solve [auto with nte] | intros ? _]);
  try discriminate.

Lemma nte_b_est_holder (j : nat) (g : Guesser) (name : string) (b : Q)
    (clip : bool) : no_type_error (b_est_holder j g name b clip).
Proof.
  unfold b_est_holder. nte_steps.
Qed.

Lemma nte__sep_by_N_0 (g : Guesser) (pg : list Q) (bds : list bound) :
  no_type_error (_sep_by_N_0 g pg bds).
Proof.
  unfold _sep_by_N_0. nte_steps.
  match goal with |- context [truthy ?bc] => destruct (truthy bc) end;
    nte_steps.
Qed.

#[local] Hint Resolve nte_b_est_holder nte__sep_by_N_0 : nte.

(** ** The imaginary-neighbour stage with plate-level parameters *)

Section Imag_neigh_plate_lvl.

Variable b_index : QuickModel -> nat.
Variable fit_model :
  Culture -> QuickModel -> list Q -> list bound -> FitResult.

(** The loop over the cultures reads the plate of the guesser and nothing
    else of it. *)
Lemma fit_imag_neigh_cultures_plate (g1 g2 : Guesser) (N_bc : bool)
    (md : QuickModel) (ps : list (list Q)) (bds : list (list bound))
    (cs : list Culture) (i : nat) (idx : option nat) :
  plate g1 = plate g2 ->
  fit_imag_neigh_cultures fit_model g1 N_bc md ps bds i idx cs =
  fit_imag_neigh_cultures fit_model g2 N_bc md ps bds i idx cs.
Proof.
  intros Hp. revert i idx.
  induction cs as [| c cs IH]; intros i idx; [reflexivity |].
  cbn [fit_imag_neigh_cultures]. rewrite Hp.
  destruct (mem i (empties (plate g2))).
  - now rewrite IH.
  - destruct (k <- _ ;; _) as [[p b] | e]; [| reflexivity].
    now rewrite IH.
Qed.

Lemma nte_fit_imag_neigh_cultures (g : Guesser) (N_bc : bool)
    (md : QuickModel) (ps : list (list Q)) (bds : list (list bound))
    (cs : list Culture) (i : nat) (idx : option nat) :
  no_type_error
    (fst (fit_imag_neigh_cultures fit_model g N_bc md ps bds i idx cs)).
Proof.
  revert i idx. induction cs as [| c cs IH]; intros i idx;
    [discriminate |].
  cbn [fit_imag_neigh_cultures].
  set (idx' := if negb N_bc then _ else _).
  destruct (mem i (empties (plate g))).
  - specialize (IH (S i) idx').
    destruct (fit_imag_neigh_cultures _ _ _ _ _ _ _ _ _). exact IH.
  - destruct (k <- _ ;; _) as [[p b] | e] eqn:E.
    + specialize (IH (S i) idx').
      destruct (fit_imag_neigh_cultures _ _ _ _ _ _ _ _ _). exact IH.
    + cbn [fst]. intros H. injection H as ->.
      revert E. apply nte_bind; [destruct idx'; discriminate | intros k _].
      apply nte_bind; [apply nte_getitem | intros pk _].
      apply nte_bind; [apply nte_getitem | discriminate].
Qed.

Lemma nte_imag_setup_plate_lvl (g : Guesser) (inp : list Q)
    (no_neighs : option Z) (v : Q) (pl : list Q) :
  no_type_error (imag_setup g inp no_neighs (Some (v :: pl))).
Proof.
  unfold imag_setup. nte_steps.
  apply nte_bind.
  { cbn [imag_first_guess].
    match goal with |- context [truthy ?bc] => destruct (truthy bc) end;
      discriminate. }
  intros first_guess _.
  apply nte_bind.
  { unfold imag_no_neighs, imag_N_0_min, imag_C_f_max.
    destruct no_neighs; [discriminate | nte_steps]. }
  intros k _. nte_steps.
Qed.

(** C8.  With [plate_lvl] an empty collection [quick_fit_imag_neighs]
    raises, and the guesser it leaves is the one it was given: no culture
    was fitted.  When the model has a nutrient species and
    [imag_neigh_params] is not empty, the exception is the [ValueError] of
    line 481. *)
Theorem quick_fit_imag_neighs_rejects_empty_plate_lvl (g : Guesser)
    (imag_neigh_params : list Q) (no_neighs : option Z) :
  (exists e,
     quick_fit_imag_neighs b_index fit_model g imag_neigh_params no_neighs
       (Some []) = (Raise e, g)) /\
  (is_ok (N_bc g) = true -> imag_neigh_params <> [] ->
   quick_fit_imag_neighs b_index fit_model g imag_neigh_params no_neighs
     (Some []) = (Raise ValueError, g)).
Proof.
  unfold quick_fit_imag_neighs, imag_setup, N_bc.
  destruct (py_index "N" (species (model g))) as [N_index | e]; cbn [bind].
  2: { split; [now exists e | discriminate]. }
  destruct (getitem (species_bc (model g)) N_index) as [bc | e]; cbn [bind].
  2: { split; [now exists e | discriminate]. }
  destruct (getlast imag_neigh_params) as [b_guess | e] eqn:Hlast;
    cbn [bind imag_first_guess].
  - split; [now exists ValueError | reflexivity].
  - split; [now exists e |].
    intros _ Hne. exfalso. unfold getlast in Hlast.
    destruct (rev imag_neigh_params) eqn:Hrev; [| discriminate].
    apply (f_equal (@rev Q)) in Hrev. rewrite rev_involutive in Hrev.
    now apply Hne.
Qed.

(** C10.  With a non-empty [plate_lvl] the result of
    [quick_fit_imag_neighs], and the plate it leaves, are the same
    whatever [area_ratio] and [C_ratio] the guesser was constructed with,
    [None] included: the two attributes are not read.  In particular the
    call on a guesser constructed with both [None] never stops on the
    [TypeError] that arithmetic on a [None] ratio raises. *)
Theorem plate_lvl_path_ignores_ratios (p : Plate) (m : Model)
    (ar cr ar' cr' : option Q) (imag_neigh_params : list Q)
    (no_neighs : option Z) (v : Q) (plate_lvl : list Q) :
  let run a c :=
    quick_fit_imag_neighs b_index fit_model (new_Guesser p m a c)
      imag_neigh_params no_neighs (Some (v :: plate_lvl)) in
  fst (run ar cr) = fst (run ar' cr') /\
  plate (snd (run ar cr)) = plate (snd (run ar' cr')) /\
  no_type_error (fst (run None None)).
Proof.
  intros run. subst run. cbv beta. unfold new_Guesser.
  assert (Hsetup : forall a c,
            imag_setup (mkGuesser p m a c) imag_neigh_params no_neighs
              (Some (v :: plate_lvl)) =
            imag_setup (mkGuesser p m None None) imag_neigh_params no_neighs
              (Some (v :: plate_lvl))) by reflexivity.
  assert (Hrun : forall a c,
            let r := quick_fit_imag_neighs b_index fit_model
                       (mkGuesser p m a c) imag_neigh_params no_neighs
                       (Some (v :: plate_lvl)) in
            let r0 := quick_fit_imag_neighs b_index fit_model
                       (mkGuesser p m None None) imag_neigh_params no_neighs
                       (Some (v :: plate_lvl)) in
            fst r = fst r0 /\ plate (snd r) = plate (snd r0)).
  { intros a c. cbv zeta. unfold quick_fit_imag_neighs.
    rewrite (Hsetup a c).
    destruct (imag_setup _ _ _ _) as [[[[[bc b_guess] md] ps] bds] | e];
      [| split; reflexivity].
    rewrite (fit_imag_neigh_cultures_plate (mkGuesser p m a c)
               (mkGuesser p m None None)) by reflexivity.
    destruct (fit_imag_neigh_cultures _ _ _ _ _ _ _ _ _) as [[u | e] cs];
      split; reflexivity. }
  destruct (Hrun ar cr) as [H1 H2]. destruct (Hrun ar' cr') as [H3 H4].
  split; [congruence |]. split; [congruence |].
  clear Hsetup Hrun H1 H2 H3 H4.
  unfold quick_fit_imag_neighs.
  pose proof (nte_imag_setup_plate_lvl (mkGuesser p m None None)
                imag_neigh_params no_neighs v plate_lvl) as Hs.
  destruct (imag_setup _ _ _ _) as [[[[[bc b_guess] md] ps] bds] | e];
    [| exact (nte_raise e Hs)].
  pose proof (nte_fit_imag_neigh_cultures (mkGuesser p m None None) bc md ps
                bds (cultures p) 0 None) as Hf.
  cbn [plate] in *.
  destruct (fit_imag_neigh_cultures _ _ _ _ _ _ _ _ _) as [[u | e] cs];
    [| exact (nte_raise e Hf)].
  cbn [fst]. unfold _process_quick_ests.
  apply nte_bind; [apply nte_b_est_holder | discriminate].
Qed.

End Imag_neigh_plate_lvl.

(** ** Which cultures the quick-fit stages fit *)

Section Fitted_cultures.

Variable b_index : QuickModel -> nat.
Variable fit_model :
  Culture -> QuickModel -> list Q -> list bound -> FitResult.

Lemma fit_log_eq_cultures_length (md : QuickModel) (bds : list bound)
    (guesses : list (list Q)) (cs : list Culture) :
  length (fit_log_eq_cultures fit_model md bds guesses cs) = length cs.
Proof.
  revert guesses. induction cs as [| c cs IH]; intros [| gs guesses];
    simpl; try reflexivity.
  now rewrite IH.
Qed.

Lemma fit_log_eq_cultures_nth (md : QuickModel) (bds : list bound)
    (guesses : list (list Q)) (cs : list Culture) (i : nat) (c : Culture)
    (gs : list Q) :
  nth_error cs i = Some c -> nth_error guesses i = Some gs ->
  nth_error (fit_log_eq_cultures fit_model md bds guesses cs) i
  = Some (set_log_est c (fit_model c md gs bds)).
Proof.
  revert guesses i. induction cs as [| c0 cs IH]; intros guesses i Hc Hg.
  - destruct i; discriminate.
  - destruct guesses as [| g0 guesses]; [destruct i; discriminate |].
    destruct i as [| i]; simpl in *.
    + injection Hc as ->. injection Hg as ->. reflexivity.
    + now apply IH.
Qed.

Lemma fit_imag_neigh_cultures_length (g : Guesser) (N_bc : bool)
    (md : QuickModel) (ps : list (list Q)) (bds : list (list bound))
    (cs : list Culture) (i : nat) (idx : option nat) :
  length (snd (fit_imag_neigh_cultures fit_model g N_bc md ps bds i idx cs))
  = length cs.
Proof.
  revert i idx. induction cs as [| c cs IH]; intros i idx; [reflexivity |].
  cbn [fit_imag_neigh_cultures].
  set (idx' := if negb N_bc then _ else _).
  specialize (IH (S i) idx').
  destruct (mem i (empties (plate g))).
  - destruct (fit_imag_neigh_cultures _ _ _ _ _ _ _ _ _). simpl in *.
    now rewrite IH.
  - destruct (k <- _ ;; _) as [[p b] | e]; [| reflexivity].
    destruct (fit_imag_neigh_cultures _ _ _ _ _ _ _ _ _). simpl in *.
    now rewrite IH.
Qed.

(** The loop leaves an empty culture as it found it. *)
Lemma fit_imag_neigh_cultures_empty (g : Guesser) (N_bc : bool)
    (md : QuickModel) (ps : list (list Q)) (bds : list (list bound))
    (cs : list Culture) (i : nat) (idx : option nat) (j : nat)
    (c : Culture) :
  nth_error cs j = Some c ->
  mem (i + j) (empties (plate g)) = true ->
  nth_error
    (snd (fit_imag_neigh_cultures fit_model g N_bc md ps bds i idx cs)) j
  = Some c.
Proof.
  revert i idx j. induction cs as [| c0 cs IH]; intros i idx j Hc Hm.
  - destruct j; discriminate.
  - cbn [fit_imag_neigh_cultures].
    set (idx' := if negb N_bc then _ else _).
    destruct j as [| j].
    + rewrite Nat.add_0_r in Hm. rewrite Hm.
      destruct (fit_imag_neigh_cultures _ _ _ _ _ _ _ _ _). exact Hc.
    + specialize (IH (S i) idx' j Hc).
      rewrite Nat.add_succ_r in Hm. specialize (IH Hm).
      destruct (mem i (empties (plate g))).
      * destruct (fit_imag_neigh_cultures _ _ _ _ _ _ _ _ _). exact IH.
      * destruct (k <- _ ;; _) as [[p b] | e]; [| exact Hc].
        destruct (fit_imag_neigh_cultures _ _ _ _ _ _ _ _ _). exact IH.
Qed.

(** A loop that runs to its end has fitted every culture that is not
    empty. *)
Lemma fit_imag_neigh_cultures_grower (g : Guesser) (N_bc : bool)
    (md : QuickModel) (ps : list (list Q)) (bds : list (list bound))
    (cs : list Culture) (i : nat) (idx : option nat) (j : nat)
    (c : Culture) :
  is_ok (fst (fit_imag_neigh_cultures fit_model g N_bc md ps bds i idx cs))
  = true ->
  nth_error cs j = Some c ->
  mem (i + j) (empties (plate g)) = false ->
  exists p b,
    In p ps /\ In b bds /\
    nth_error
      (snd (fit_imag_neigh_cultures fit_model g N_bc md ps bds i idx cs)) j
    = Some (set_im_neigh_est c (fit_model c md p b)).
Proof.
  revert i idx j. induction cs as [| c0 cs IH]; intros i idx j Hok Hc Hm.
  - destruct j; discriminate.
  - cbn [fit_imag_neigh_cultures] in *.
    set (idx' := if negb N_bc then _ else _) in *.
    destruct j as [| j].
    + rewrite Nat.add_0_r in Hm. rewrite Hm in *.
      destruct (k <- _ ;; _) as [[p b] | e] eqn:E; [| discriminate].
      apply bind_ok_inv in E as [k [_ E]].
      apply bind_ok_inv in E as [p' [Hp E]].
      apply bind_ok_inv in E as [b' [Hb E]].
      injection E as -> ->.
      unfold getitem in Hp, Hb.
      destruct (nth_error ps k) eqn:Ep; [| discriminate].
      destruct (nth_error bds k) eqn:Eb; [| discriminate].
      injection Hp as ->. injection Hb as ->.
      apply nth_error_In in Ep. apply nth_error_In in Eb.
      injection Hc as ->.
      exists p, b.
      destruct (fit_imag_neigh_cultures _ _ _ _ _ _ _ _ _). auto.
    + rewrite Nat.add_succ_r in Hm.
      specialize (IH (S i) idx' j).
      destruct (mem i (empties (plate g))).
      * destruct (fit_imag_neigh_cultures _ _ _ _ _ _ _ _ _).
        now apply IH.
      * destruct (k <- _ ;; _) as [[p b] | e]; [| discriminate].
        destruct (fit_imag_neigh_cultures _ _ _ _ _ _ _ _ _).
        now apply IH.
Qed.

Lemma make_first_guess_hd (g : Guesser) (b_guess : Q) (first_guess : list Q) :
  make_first_guess g b_guess = Ok first_guess ->
  getitem first_guess 0 = Ok (hd 0 first_guess).
Proof.
  unfold make_first_guess, _guess_init_C. intros H.
  apply bind_ok_inv in H as [C_0_guess [HC H]].
  apply bind_ok_inv in H as [N_0_guess [_ H]].
  apply bind_ok_inv in HC as [mx [_ HC]].
  apply bind_ok_inv in HC as [r [_ HC]].
  injection HC as <-. injection H as <-. reflexivity.
Qed.

(** What each stage fits.  The logistic-equivalent stage, once it has its
    first guess, fits every culture that has a final measurement, empty or
    not, each from its own guess [[C_0; C_f; b_guess]].  The
    imaginary-neighbour stage leaves every empty culture as it found it,
    and when it returns a guess it has fitted every culture that is not
    empty. *)
Theorem quick_fit_stages_fitted_cultures (g : Guesser) :
  (forall b_guess first_guess,
     make_first_guess g b_guess = Ok first_guess ->
     let g' := snd (quick_fit_log_eq b_index fit_model g b_guess) in
     let C_0 := hd 0 first_guess in
     forall i c C_f,
       nth_error (cultures (plate g)) i = Some c ->
       nth_error (last_n (no_cultures (plate g)) (c_meas (plate g))) i
         = Some C_f ->
       nth_error (cultures (plate g')) i
       = Some (set_log_est c
                 (fit_model c IndeModel [C_0; C_f; b_guess]
                    [(C_0, Some C_0); (0, None); (0, None)]))) /\
  (forall imag_neigh_params no_neighs plate_lvl,
     let run :=
       quick_fit_imag_neighs b_index fit_model g imag_neigh_params
         no_neighs plate_lvl in
     forall i c,
       nth_error (cultures (plate g)) i = Some c ->
       (mem i (empties (plate g)) = true ->
        nth_error (cultures (plate (snd run))) i = Some c) /\
       (mem i (empties (plate g)) = false ->
        is_ok (fst run) = true ->
        exists md p b,
          nth_error (cultures (plate (snd run))) i
          = Some (set_im_neigh_est c (fit_model c md p b)))).
Proof.
  split.
  - intros b_guess first_guess Hfg g' C_0 i c C_f Hc HCf.
    subst g'. unfold quick_fit_log_eq.
    rewrite Hfg, (make_first_guess_hd _ _ _ Hfg). fold C_0.
    cbn [snd plate set_plate cultures set_cultures].
    apply fit_log_eq_cultures_nth; [exact Hc |].
    rewrite nth_error_map, HCf. reflexivity.
  - intros inp no_neighs plate_lvl run i c Hc. subst run.
    unfold quick_fit_imag_neighs.
    destruct (imag_setup g inp no_neighs plate_lvl)
      as [[[[[bc b_guess] md] ps] bds] | e].
    2: { split; [intros _; exact Hc | discriminate]. }
    pose proof (fit_imag_neigh_cultures_empty g bc md ps bds
                  (cultures (plate g)) 0 None i c Hc) as He.
    pose proof (fit_imag_neigh_cultures_grower g bc md ps bds
                  (cultures (plate g)) 0 None i c) as Hg.
    cbn [Nat.add] in He, Hg.
    destruct (fit_imag_neigh_cultures _ _ _ _ _ _ _ _ _) as [r cs].
    cbn [fst snd] in He, Hg.
    split.
    + intros Hm. specialize (He Hm). destruct r; exact He.
    + intros Hm Hok. destruct r as [u | e]; [| discriminate].
      destruct (Hg eq_refl Hc Hm) as [p [b [_ [_ H]]]].
      exists md, p, b. exact H.
Qed.

End Fitted_cultures.

(** Both stages on the 2x2 plate with a gap: the logistic-equivalent stage
    has fitted culture 1, the imaginary-neighbour stage has left the empty
    culture 0 alone. *)
Lemma quick_fit_stages_fitted_cultures_witness :
  let g := guesser_2x2_gap in
  (exists r,
     option_map log_est
       (nth_error
          (cultures
             (plate (snd (quick_fit_log_eq layout_b_index echo_fit_model
                            g 1)))) 1)
     = Some (Some r)) /\
  nth_error
    (cultures
       (plate (snd (quick_fit_imag_neighs layout_b_index echo_fit_model g
                      [0; 0; 1 # 2; 3 # 2; 1] None None)))) 0
  = Some (no_est [0; 0]).
Proof.
  intros g. split.
  - eexists.
    rewrite (proj1 (quick_fit_stages_fitted_cultures layout_b_index
                      echo_fit_model g)
               1 _ eq_refl 1%nat (no_est [0; 9]) 9 eq_refl eq_refl).
    reflexivity.
  - apply (proj2 (quick_fit_stages_fitted_cultures layout_b_index
                    echo_fit_model g)
             [0; 0; 1 # 2; 3 # 2; 1] None None 0%nat (no_est [0; 0])
             eq_refl).
    reflexivity.
Defined.

(** C5, the code at the failing input.  On the 2x2 plate whose culture 0 is
    empty, no culture holding an estimate beforehand, the
    logistic-equivalent stage leaves an estimate on culture 0: the cultures
    it has fitted are not exactly the growing ones. *)
Theorem quick_fit_log_eq_fits_empty_culture :
  let g := guesser_2x2_gap in
  let g' := snd (quick_fit_log_eq layout_b_index echo_fit_model g 1) in
  mem 0 (empties (plate g)) = true /\
  mem 0 (growers (plate g)) = false /\
  Forall (fun c => log_est c = None) (cultures (plate g)) /\
  option_map log_est (nth_error (cultures (plate g')) 0)
  = Some (Some (mkFit [9 # 10000; 0; 1] true)) /\
  ~ (forall i c',
       nth_error (cultures (plate g')) i = Some c' ->
       (log_est c' <> None <-> mem i (growers (plate g)) = true)).
Proof.
  intros g g'. split; [reflexivity |]. split; [reflexivity |].
  split; [repeat constructor |]. split; [reflexivity |].
  intros H.
  specialize (H 0%nat _ eq_refl). simpl in H.
  destruct H as [H _].
  discriminate H. discriminate.
Qed.

(** ** Assignment by index *)

Lemma mem_In (i : nat) (l : list nat) : mem i l = true <-> In i l.
Proof.
  unfold mem. rewrite existsb_exists. split.
  - intros [j [Hj E]]. apply Nat.eqb_eq in E. now subst.
  - intros H. exists i. split; [exact H | apply Nat.eqb_refl].
Qed.

Lemma mem_not_In (i : nat) (l : list nat) : mem i l = false <-> ~ In i l.
Proof.
  rewrite <- mem_In. destruct (mem i l); split; congruence.
Qed.

Lemma setitem_spec {A : Type} (l l' : list A) (i : nat) (v : A) :
  setitem l i v = Ok l' ->
  length l' = length l /\
  nth_error l' i = Some v /\
  forall j, j <> i -> nth_error l' j = nth_error l j.
Proof.
  revert l' i. induction l as [| a l IH]; intros l' [| i] H; simpl in H;
    try discriminate.
  - injection H as <-. repeat split. intros [| j]; [congruence | reflexivity].
  - apply bind_ok_inv in H as [r [Hr H]]. injection H as <-.
    destruct (IH _ _ Hr) as [Hlen [Hi Hj]].
    repeat split; simpl; [now rewrite Hlen | exact Hi |].
    intros [| j] Hne; [reflexivity |]. apply Hj. congruence.
Qed.


Lemma assign_spec {A : Type} (ivs : list (nat * A)) (h h' : list A) :
  assign h ivs = Ok h' ->
  length h' = length h /\
  forall i,
    (~ In i (map fst ivs) -> nth_error h' i = nth_error h i) /\
    (In i (map fst ivs) ->
     exists v, In (i, v) ivs /\ nth_error h' i = Some v).
Proof.
  revert h. induction ivs as [| [i0 v0] ivs IH]; intros h H; simpl in H.
  - injection H as <-. split; [reflexivity |].
    intros i. split; [reflexivity | intros []].
  - apply bind_ok_inv in H as [h1 [H1 H]].
    destruct (setitem_spec _ _ _ _ H1) as [Hlen1 [Hi0 Hother]].
    destruct (IH _ H) as [Hlen IHi].
    split; [congruence |].
    intros i. destruct (IHi i) as [Hout Hin]. split.
    + intros Hni. simpl in Hni. rewrite Hout by tauto.
      apply Hother. intros ->. tauto.
    + intros Hi.
      destruct (in_dec Nat.eq_dec i (map fst ivs)) as [Hrest | Hrest].
      * destruct (Hin Hrest) as [v [Hv Hnth]].
        exists v. split; [now right | exact Hnth].
      * simpl in Hi. destruct Hi as [<- | Hi]; [| contradiction].
        exists v0. split; [now left |].
        rewrite (Hout Hrest). exact Hi0.
Qed.

Lemma map_fst_combine {A B : Type} (l : list A) (l' : list B) :
  length l = length l' -> map fst (combine l l') = l.
Proof.
  revert l'. induction l as [| a l IH]; intros [| b l'] H; simpl in *;
    try discriminate; [reflexivity |].
  f_equal. apply IH. lia.
Qed.

Lemma put_spec (h h' : list Q) (idxs : list nat) (vals : list Q) :
  put h idxs vals = Ok h' ->
  length h' = length h /\
  forall i,
    (~ In i idxs -> nth_error h' i = nth_error h i) /\
    (In i idxs -> exists v, In v vals /\ nth_error h' i = Some v).
Proof.
  unfold put. intros H.
  destruct (Nat.eqb (length vals) (length idxs)) eqn:E.
  - apply Nat.eqb_eq in E.
    destruct (assign_spec _ _ _ H) as [Hlen Hi].
    rewrite map_fst_combine in Hi by congruence.
    split; [exact Hlen |].
    intros i. destruct (Hi i) as [Hout Hin]. split; [exact Hout |].
    intros Hidx. destruct (Hin Hidx) as [v [Hv Hnth]].
    exists v. split; [| exact Hnth]. eapply in_combine_r. exact Hv.
  - destruct (Nat.eqb (length vals) 1) eqn:E1; [| discriminate].
    apply Nat.eqb_eq in E1.
    destruct vals as [| v0 [| ? ?]]; try discriminate.
    destruct (assign_spec _ _ _ H) as [Hlen Hi].
    rewrite map_map, map_id in Hi.
    split; [exact Hlen |].
    intros i. destruct (Hi i) as [Hout Hin]. split; [exact Hout |].
    intros Hidx. destruct (Hin Hidx) as [v [Hv Hnth]].
    apply in_map_iff in Hv as [j [Hj _]]. injection Hj as _ <-.
    exists v0. split; [now left | exact Hnth].
Qed.

(** ** The growth rates of the aggregated guess *)

Lemma np_insert_before {A : Type} (k : nat) (a b v : list A) (e : A) :
  np_insert (a ++ b) k e = Ok v -> (k <= length a)%nat ->
  exists pre, v = pre ++ b /\ length pre = S (length a).
Proof.
  revert a v. induction k as [| k IH]; intros a v H Hk; simpl in H.
  - injection H as <-. exists (e :: a). split; reflexivity.
  - destruct a as [| a0 a]; [simpl in Hk; lia |].
    simpl in H. apply bind_ok_inv in H as [r [Hr H]]. injection H as <-.
    destruct (IH a r Hr) as [pre [-> Hlen]]; [simpl in Hk; lia |].
    exists (a0 :: pre). split; [reflexivity | simpl; now rewrite Hlen].
Qed.

Lemma b_est_holder_spec (j : nat) (g : Guesser) (est_name : string)
    (b_guess : Q) (clip : bool) (all_ests : list (list Q))
    (b_ests : list Q) :
  b_est_holder j g est_name b_guess clip = Ok (all_ests, b_ests) ->
  length b_ests = no_cultures (plate g) /\
  (forall i, (i < no_cultures (plate g))%nat ->
             mem i (growers (plate g)) = false ->
             nth_error b_ests i = Some 0) /\
  (clip = true -> forall i b,
     mem i (growers (plate g)) = true ->
     nth_error b_ests i = Some b -> b <= 3 * b_guess).
Proof.
  unfold b_est_holder. intros H.
  apply bind_ok_inv in H as [ests [_ H]].
  apply bind_ok_inv in H as [col [_ H]].
  apply bind_ok_inv in H as [holder [Hput H]].
  injection H as _ <-.
  destruct (put_spec _ _ _ _ Hput) as [Hlen Hi].
  rewrite repeat_length in Hlen.
  split; [exact Hlen |]. split.
  - intros i Hlt Hm. apply mem_not_In in Hm.
    rewrite (proj1 (Hi i) Hm). now apply nth_error_repeat.
  - intros -> i b Hm Hb. apply mem_In in Hm.
    destruct (proj2 (Hi i) Hm) as [v [Hv Hnth]].
    rewrite Hnth in Hb. injection Hb as <-.
    apply in_map_iff in Hv as [w [<- _]]. apply Q.le_min_r.
Qed.

(** What [b_est_holder] computes: the column [b_index] of the growers'
    estimates, clipped at [3 * b_guess] when [clip] is set, written over a
    vector of zeros at the indices of the growers. *)
Lemma b_est_holder_inv (j : nat) (g : Guesser) (est_name : string)
    (b_guess : Q) (clip : bool) (ests : list (list Q)) (b_ests : list Q) :
  b_est_holder j g est_name b_guess clip = Ok (ests, b_ests) ->
  exists all_ests col,
    collect_ests est_name (growers (plate g)) 0 (cultures (plate g))
      = Ok all_ests /\
    column j all_ests = Ok col /\
    put (repeat 0 (no_cultures (plate g))) (growers (plate g))
        (if clip then map (fun b => Qmin b (3 * b_guess)) col else col)
      = Ok b_ests.
Proof.
  unfold b_est_holder. intros H.
  apply bind_ok_inv in H as [all_ests [Hc H]].
  apply bind_ok_inv in H as [col [Hcol H]].
  apply bind_ok_inv in H as [holder [Hput H]].
  injection H as _ <-.
  exists all_ests, col. repeat split; assumption.
Qed.

(** The entries of the holder: zero away from the growers, one of the
    values written at a grower. *)
Lemma holder_entries (n : nat) (growers : list nat) (vals b_ests : list Q) :
  put (repeat 0 n) growers vals = Ok b_ests ->
  length b_ests = n /\
  forall i b,
    nth_error b_ests i = Some b ->
    (mem i growers = false -> b = 0) /\
    (mem i growers = true -> In b vals).
Proof.
  intros Hput. destruct (put_spec _ _ _ _ Hput) as [Hlen Hi].
  rewrite repeat_length in Hlen. split; [exact Hlen |].
  intros i b Hb. split; intros Hm.
  - apply mem_not_In in Hm. rewrite (proj1 (Hi i) Hm) in Hb.
    assert (Hlt : (i < n)%nat).
    { rewrite <- (repeat_length 0 n). apply nth_error_Some. congruence. }
    rewrite (nth_error_repeat 0 Hlt) in Hb. now injection Hb as <-.
  - apply mem_In in Hm. destruct (proj2 (Hi i) Hm) as [w [Hw Hnth]].
    rewrite Hnth in Hb. now injection Hb as <-.
Qed.

Lemma imag_setup_b_guess (g : Guesser) (imag_neigh_params : list Q)
    (no_neighs : option Z) (plate_lvl : option (list Q)) (N_bc : bool)
    (b_guess : Q) (md : QuickModel) (ps : list (list Q))
    (bds : list (list bound)) :
  imag_setup g imag_neigh_params no_neighs plate_lvl
  = Ok (N_bc, b_guess, md, ps, bds) ->
  getlast imag_neigh_params = Ok b_guess /\
  exists k, md = ImagNeighModel k.
Proof.
  unfold imag_setup. intros H.
  apply bind_ok_inv in H as [N_index [_ H]].
  apply bind_ok_inv in H as [bc [_ H]].
  apply bind_ok_inv in H as [b [Hb H]].
  apply bind_ok_inv in H as [first_guess [_ H]].
  apply bind_ok_inv in H as [k [_ H]].
  apply bind_ok_inv in H as [p2 [_ H]].
  apply bind_ok_inv in H as [p3 [_ H]].
  apply bind_ok_inv in H as [sep [_ H]].
  injection H as _ <- <- _ _. split; [exact Hb | eauto].
Qed.

Section Stage_growth_rates.

Variable b_index : QuickModel -> nat.
Variable fit_model :
  Culture -> QuickModel -> list Q -> list bound -> FitResult.

(** The vector [_process_quick_ests] returns ends in the holder of the
    growth rates. *)
Lemma process_quick_ests_holder (g : Guesser) (quick_mod : QuickModel)
    (est_name : string) (b_guess : Q) (clip : bool) (C_0_handling : string)
    (plate_lvl : option (list Q)) (v : list entry) :
  _process_quick_ests b_index g quick_mod est_name b_guess clip
    C_0_handling plate_lvl = Ok v ->
  exists ests b_ests,
    b_est_holder (b_index quick_mod) g est_name b_guess clip
    = Ok (ests, b_ests) /\
    growth_rates_of g plate_lvl v b_ests.
Proof.
  intros Hv. unfold _process_quick_ests in Hv.
  apply bind_ok_inv in Hv as [[ests b_ests] [Hab Hv]].
  cbn [fst snd] in Hv. exists ests, b_ests. split; [exact Hab |].
  unfold growth_rates_of. destruct plate_lvl as [pl |].
  - injection Hv as <-. exists pl. split; [reflexivity | apply map_app].
  - apply bind_ok_inv in Hv as [C_0_opt [_ Hv]].
    apply bind_ok_inv in Hv as [N_0_guess [_ Hv]].
    apply bind_ok_inv in Hv as [C_0_guess [_ Hv]].
    apply bind_ok_inv in Hv as [kn_index [Hkn Hv]].
    exists (C_0_guess ++ N_0_guess), kn_index.
    rewrite app_assoc, map_app in Hv.
    split; [exact Hkn |]. split; [exact Hv |].
    intros Hle.
    destruct (np_insert_before _ _ _ _ _ Hv) as [pre [Hpre _]].
    + now rewrite length_map.
    + exists pre. exact Hpre.
Qed.

(** C3.  In the vector [v] a quick-fit stage returns, the growth rates
    [b_ests] follow the plate-level amounts; they are one per culture and
    exactly zero at every culture that is not a grower, an empty culture
    among them.  The imaginary-neighbour stage clips: [b_ests] holds, at
    the indices of the growers, the growth rates [col] that the fits
    stored on the cultures, each cut down to [3 * b_guess], with
    [b_guess] the last of [imag_neigh_params]; so the growth rate of a
    grower is at most [3 * b_guess].  The logistic-equivalent stage does
    not clip: [b_ests] holds the growth rates [col] as the fits stored
    them.  The hypothesis is the plate's partition: an empty culture is
    not a grower. *)
Theorem quick_fit_stages_growth_rates (g : Guesser)
    (Hpart : forall i, mem i (empties (plate g)) = true ->
                       mem i (growers (plate g)) = false) :
  (forall imag_neigh_params no_neighs plate_lvl v,
     let run := quick_fit_imag_neighs b_index fit_model g imag_neigh_params
                  no_neighs plate_lvl in
     fst run = Ok v ->
     exists b_guess b_ests all_ests col k,
       getlast imag_neigh_params = Ok b_guess /\
       growth_rates_of g plate_lvl v b_ests /\
       length b_ests = no_cultures (plate g) /\
       (forall i, (i < no_cultures (plate g))%nat ->
                  mem i (empties (plate g)) = true ->
                  nth_error b_ests i = Some 0) /\
       collect_ests "im_neigh_est" (growers (plate g)) 0
         (cultures (plate (snd run))) = Ok all_ests /\
       column (b_index (ImagNeighModel k)) all_ests = Ok col /\
       put (repeat 0 (no_cultures (plate g))) (growers (plate g))
           (map (fun b => Qmin b (3 * b_guess)) col) = Ok b_ests /\
       (forall i b, nth_error b_ests i = Some b ->
          (mem i (growers (plate g)) = false -> b = 0) /\
          (mem i (growers (plate g)) = true -> b <= 3 * b_guess))) /\
  (forall b_guess v,
     let run := quick_fit_log_eq b_index fit_model g b_guess in
     fst run = Ok v ->
     exists b_ests all_ests col,
       growth_rates_of g None v b_ests /\
       length b_ests = no_cultures (plate g) /\
       (forall i, (i < no_cultures (plate g))%nat ->
                  mem i (empties (plate g)) = true ->
                  nth_error b_ests i = Some 0) /\
       collect_ests "log_est" (growers (plate g)) 0
         (cultures (plate (snd run))) = Ok all_ests /\
       column (b_index IndeModel) all_ests = Ok col /\
       put (repeat 0 (no_cultures (plate g))) (growers (plate g)) col
         = Ok b_ests /\
       (forall i b, nth_error b_ests i = Some b ->
          (mem i (growers (plate g)) = false -> b = 0) /\
          (mem i (growers (plate g)) = true -> In b col))).
Proof.
  split.
  - intros inp nn plate_lvl v run Hv. subst run.
    unfold quick_fit_imag_neighs in *.
    destruct (imag_setup g inp nn plate_lvl)
      as [[[[[bc b] md] ps] bds] | e] eqn:Es; [| discriminate].
    destruct (imag_setup_b_guess _ _ _ _ _ _ _ _ _ Es) as [Hb [k ->]].
    destruct (fit_imag_neigh_cultures _ _ _ _ _ _ _ _ _) as [[u | e] cs];
      [| discriminate].
    cbn [fst snd] in *.
    destruct (process_quick_ests_holder _ _ _ _ _ _ _ _ Hv)
      as [ests [b_ests [Hab Hlay]]].
    destruct (b_est_holder_inv _ _ _ _ _ _ _ Hab)
      as [all_ests [col [Hc [Hcol Hput]]]].
    cbn [plate set_plate set_cultures no_cultures growers cultures] in *.
    destruct (holder_entries _ _ _ _ Hput) as [Hlen Hent].
    exists b, b_ests, all_ests, col, k.
    repeat split; try assumption.
    + intros i Hlt He.
      destruct (nth_error b_ests i) as [b0 |] eqn:Hn.
      * now rewrite (proj1 (Hent i b0 Hn) (Hpart i He)).
      * apply nth_error_None in Hn. lia.
    + now apply (Hent i b0).
    + intros Hm. apply (Hent i b0 H) in Hm.
      apply in_map_iff in Hm as [w [<- _]]. apply Q.le_min_r.
  - intros b_guess v run Hv. subst run.
    unfold quick_fit_log_eq in *.
    destruct (make_first_guess g b_guess) as [fg | e]; [| discriminate].
    destruct (getitem fg 0) as [C0 | e]; [| discriminate].
    cbn [fst snd] in *.
    destruct (process_quick_ests_holder _ _ _ _ _ _ _ _ Hv)
      as [ests [b_ests [Hab Hlay]]].
    destruct (b_est_holder_inv _ _ _ _ _ _ _ Hab)
      as [all_ests [col [Hc [Hcol Hput]]]].
    cbn [plate set_plate set_cultures no_cultures growers cultures] in *.
    destruct (holder_entries _ _ _ _ Hput) as [Hlen Hent].
    exists b_ests, all_ests, col.
    repeat split; try assumption.
    + intros i Hlt He.
      destruct (nth_error b_ests i) as [b0 |] eqn:Hn.
      * now rewrite (proj1 (Hent i b0 Hn) (Hpart i He)).
      * apply nth_error_None in Hn. lia.
    + now apply (Hent i b).
    + now apply (Hent i b).
Qed.

End Stage_growth_rates.

(** C3, witness: the two stages on the 2x2 plate with a gap, [b_guess = 1]
    and a solver whose estimate for culture 1 is 9.  The
    imaginary-neighbour stage returns [[0.0009; 3; nan; 0; 3; 1; 2]], the
    estimate 9 cut down to 3; the logistic-equivalent stage returns
    [[0.0009; 3; nan; 0; 9; 1; 2]]. *)
Lemma quick_fit_stages_growth_rates_witness :
  (exists b_ests,
     growth_rates_of guesser_2x2_gap None
       [Some (9 # 10000); Some (12 # 4); None;
        Some 0; Some 3; Some 1; Some 2] b_ests /\
     length b_ests = 4%nat /\
     nth_error b_ests 0 = Some 0 /\
     forall i b, nth_error b_ests i = Some b ->
                 mem i [1; 2; 3]%nat = true -> b <= 3 * 1) /\
  (exists b_ests col,
     growth_rates_of guesser_2x2_gap None
       [Some (9 # 10000); Some (12 # 4); None;
        Some 0; Some 9; Some 1; Some 2] b_ests /\
     put (repeat 0 4) [1; 2; 3]%nat col = Ok b_ests).
Proof.
  assert (Hpart : forall i,
            mem i (empties (plate guesser_2x2_gap)) = true ->
            mem i (growers (plate guesser_2x2_gap)) = false)
    by (intros [| i]; [reflexivity | discriminate]).
  destruct (quick_fit_stages_growth_rates layout_b_index scaling_fit_model
              guesser_2x2_gap Hpart) as [Himag Hlog].
  split.
  - destruct (Himag [0; 0; 1 # 2; 3 # 2; 1] None None
                [Some (9 # 10000); Some (12 # 4); None;
                 Some 0; Some 3; Some 1; Some 2])
      as [b_guess [b_ests [all_ests [col [k H]]]]];
      [vm_compute; reflexivity |].
    destruct H as [Hb [Hlay [Hlen [Hzero [_ [_ [_ Hent]]]]]]].
    injection Hb as <-.
    exists b_ests. split; [exact Hlay |]. split; [exact Hlen |].
    split; [apply Hzero; [simpl; lia | reflexivity] |].
    intros i b Hn Hm. now apply (Hent i b Hn).
  - destruct (Hlog 1 [Some (9 # 10000); Some (12 # 4); None;
                      Some 0; Some 9; Some 1; Some 2])
      as [b_ests [all_ests [col H]]]; [vm_compute; reflexivity |].
    destruct H as [Hlay [_ [_ [_ [_ [Hput _]]]]]].
    exists b_ests, col. split; [exact Hlay | exact Hput].
Defined.

(** ** The top_half policy on a plate without gaps *)

Lemma insert_pair_spec {A : Type} (p : Q * A) (l l' : list (Q * A)) :
  insert_pair p l = Ok l' ->
  Permutation (p :: l) l' /\
  (StronglySorted (fun a b => fst a < fst b) l ->
   StronglySorted (fun a b => fst a < fst b) l').
Proof.
  revert l'. induction l as [| q l IH]; intros l' H; simpl in H.
  - injection H as <-. split; [reflexivity |].
    intros _. repeat constructor.
  - destruct (fst p ?= fst q) eqn:E.
    + discriminate.
    + injection H as <-. split; [reflexivity |].
      intros Hs. constructor; [exact Hs |].
      rewrite <- Qlt_alt in E.
      inversion Hs as [| ? ? _ Hall]; subst.
      constructor; [exact E |].
      eapply Forall_impl; [| exact Hall].
      intros a Ha. simpl in Ha. lra.
    + apply bind_ok_inv in H as [r [Hr H]]. injection H as <-.
      destruct (IH _ Hr) as [Hperm Hsorted]. split.
      * rewrite perm_swap. now constructor.
      * intros Hs. inversion Hs as [| ? ? Hs' Hall]; subst.
        constructor; [now apply Hsorted |].
        rewrite <- Qgt_alt in E.
        rewrite <- Hperm. constructor; [exact E | exact Hall].
Qed.

Lemma sorted_pairs_spec {A : Type} (l s : list (Q * A)) :
  sorted_pairs l = Ok s ->
  Permutation l s /\ StronglySorted (fun a b => fst a < fst b) s.
Proof.
  revert s. induction l as [| p l IH]; intros s H; simpl in H.
  - injection H as <-. split; constructor.
  - apply bind_ok_inv in H as [s' [Hs' H]].
    destruct (IH _ Hs') as [Hperm Hsorted].
    destruct (insert_pair_spec _ _ _ H) as [Hperm' Hsorted'].
    split; [| now apply Hsorted'].
    rewrite <- Hperm'. now constructor.
Qed.

Lemma sorted_app_lt {A : Type} (lo hi : list (Q * A)) :
  StronglySorted (fun a b => fst a < fst b) (lo ++ hi) ->
  forall p q, In p lo -> In q hi -> fst p < fst q.
Proof.
  induction lo as [| a lo IH]; intros Hs p q Hp Hq; [destruct Hp |].
  simpl in Hs. inversion Hs as [| ? ? Hs' Hall]; subst.
  destruct Hp as [<- | Hp].
  - rewrite Forall_forall in Hall. apply Hall, in_or_app. now right.
  - now apply IH.
Qed.

(** When every culture of the plate has its estimate in [all_ests] and the
    final amounts differ, [_get_top_half_C_f_ests] splits the cultures in
    two: it returns the estimates [map snd high] of [ceil(n/2)] cultures,
    and each of them has a larger final amount than every culture it
    leaves out. *)
Lemma top_half_without_gaps (g : Guesser) (all_ests top : list (list Q)) :
  let n := no_cultures (plate g) in
  let C_fs := last_n n (c_meas (plate g)) in
  length all_ests = n -> length C_fs = n ->
  _get_top_half_C_f_ests g all_ests = Ok top ->
  exists low high,
    Permutation (combine C_fs all_ests) (low ++ high) /\
    top = map snd high /\
    length high = Nat.div (n + 1) 2 /\
    forall p q, In p low -> In q high -> fst p < fst q.
Proof.
  intros n C_fs Hests HCfs H. unfold _get_top_half_C_f_ests in H.
  fold n in H. fold C_fs in H.
  apply bind_ok_inv in H as [s [Hs H]]. injection H as <-.
  destruct (sorted_pairs_spec _ _ Hs) as [Hperm Hsorted].
  exists (firstn (Nat.div n 2) s), (skipn (Nat.div n 2) s).
  rewrite firstn_skipn. split; [exact Hperm |].
  split; [apply skipn_map |]. split.
  - rewrite length_skipn, <- (Permutation_length Hperm), length_combine.
    rewrite Hests, HCfs, Nat.min_id.
    pose proof (Nat.div_mod_eq n 2). pose proof (Nat.div_mod_eq (n + 1) 2).
    pose proof (Nat.mod_upper_bound n 2). 
    pose proof (Nat.mod_upper_bound (n + 1) 2). lia.
  - apply sorted_app_lt. now rewrite firstn_skipn.
Qed.

(** ** The top_half policy on a plate with a gap *)

(** C7, the code at the failing input.  On the 2x2 plate whose culture 0 is
    empty, after a logistic-equivalent stage, the final amounts of the
    growers 1, 2, 3 are 9, 1, 2, so the upper half of the four cultures is
    [{1, 3}].  [_process_quick_ests] hands the three estimates of the
    growers to [_get_top_half_C_f_ests], which pairs them with the final
    amounts 0, 9, 1 of cultures 0, 1, 2 and keeps the single estimate of
    culture 2, the grower with the lowest final amount; the median C_0 of
    the aggregated guess is that culture's. *)
Theorem top_half_misaligned_on_gap :
  let g :=
    snd (quick_fit_log_eq layout_b_index scaling_fit_model
           guesser_2x2_gap 1) in
  let e1 := [81 # 10000; 81; 9] in
  let e2 := [9 # 10000; 1; 1] in
  let e3 := [18 # 10000; 4; 2] in
  last_n (no_cultures (plate g)) (c_meas (plate g)) = [0; 9; 1; 2] /\
  map (fun c => option_map x (log_est c)) (skipn 1 (cultures (plate g)))
    = [Some e1; Some e2; Some e3] /\
  collect_ests "log_est" (growers (plate g)) 0 (cultures (plate g))
    = Ok [e1; e2; e3] /\
  _get_top_half_C_f_ests g [e1; e2; e3] = Ok [e2] /\
  _process_quick_ests layout_b_index g IndeModel "log_est" 1 false
    "top_half" None
  = Ok [Some (9 # 10000); Some (12 # 4); None;
        Some 0; Some 9; Some 1; Some 2].
Proof.
  intros g e1 e2 e3. repeat split; vm_compute; reflexivity.
Qed.

(** ** Calibration of kn: what the call changes *)

Section Calibration_frame.

Variable new_Plate : nat -> nat -> Plate.
Variable set_sim_data : Plate -> Model -> Plate.

(** The sweep writes only at [kn_index], and returns one variance for
    every candidate kn. *)
Lemma kn_sweep_frame (g : Guesser) (k : nat) (kns : list Q)
    (p0 : list entry) (sp : Plate) :
  let run := kn_sweep set_sim_data g k kns p0 sp in
  length (snd run) = length p0 /\
  (forall j, j <> k -> nth_error (snd run) j = nth_error p0 j) /\
  (forall vars, fst run = Ok vars -> length vars = length kns).
Proof.
  revert p0 sp. induction kns as [| kn kns IH]; intros p0 sp; simpl.
  - repeat split. intros vars H. injection H as <-. reflexivity.
  - destruct (setitem p0 k (Some kn)) as [p1 | e] eqn:E1;
      [| simpl; repeat split; discriminate].
    destruct (setitem_spec _ _ _ _ E1) as [Hlen1 [_ Hother1]].
    destruct (np_var _) as [v | e]; [| simpl; repeat split; try discriminate].
    + specialize (IH p1 (set_sim_data (set_sim_params sp p1) (model g))).
      simpl in IH. destruct (kn_sweep _ _ _ _ _ _) as [r p2].
      simpl in *. destruct IH as [Hlen [Hother Hvars]].
      split; [congruence |]. split.
      * intros j Hj. rewrite Hother by exact Hj. now apply Hother1.
      * intros vars H. destruct r as [vs | e]; [| discriminate].
        simpl in H. injection H as <-. simpl. now rewrite (Hvars vs).
    + exact Hlen1.
    + exact Hother1.
Qed.

(** What [guess_kn] returns when it returns: the array the sweep left,
    with the kn guess written at [kn_index], clipped at zero. *)
Lemma guess_kn_inv (g : Guesser) (start stop : Q) (num : nat)
    (params0 out params2 : list entry) :
  guess_kn new_Plate set_sim_data g start stop num params0
  = (Ok out, params2) ->
  exists C_f_var_true kn_index C_f_vars kn_guess,
    let kns := linspace start stop num in
    let sim_plate :=
      set_times (new_Plate (rows (plate g)) (cols (plate g)))
                (times (plate g)) in
    let sweep := kn_sweep set_sim_data g kn_index kns params0 sim_plate in
    np_var (last_n (no_cultures (plate g)) (c_meas (plate g)))
      = Ok C_f_var_true /\
    py_index "kn" (params (model g)) = Ok kn_index /\
    fst sweep = Ok C_f_vars /\
    fdiv (C_f_var_true - snd (lstsq_line kns C_f_vars))
         (fst (lstsq_line kns C_f_vars)) = Ok kn_guess /\
    setitem (snd sweep) kn_index (Some kn_guess) = Ok params2 /\
    out = map clip_min0 params2.
Proof.
  unfold guess_kn. intros H.
  destruct (np_var _) as [vt | e]; [| discriminate].
  destruct (py_index "kn" _) as [k | e]; [| discriminate].
  destruct (kn_sweep _ _ _ _ _ _) as [r p1] eqn:Es.
  destruct r as [vars | e]; [| discriminate].
  destruct (lstsq_line _ vars) as [m c] eqn:El.
  destruct (fdiv _ m) as [kn_guess | e] eqn:Ed; [| discriminate].
  destruct (setitem p1 k _) as [p2 | e] eqn:E2; [| discriminate].
  injection H as <- <-.
  exists vt, k, vars, kn_guess. cbv zeta. rewrite Es, El. simpl.
  repeat split; assumption.
Qed.

(** C6 (as amended).  In the vector [guess_kn] returns, every entry at an
    index other than that of kn is the entry of the input vector clipped
    at zero: equal to it when it is NaN or not negative, zero when it is
    negative.  The caller's array itself changes at the index of kn
    only. *)
Theorem guess_kn_frame (g : Guesser) (start stop : Q) (num : nat)
    (params0 out params2 : list entry) (kn_index : nat)
    (Hk : py_index "kn" (params (model g)) = Ok kn_index)
    (Hrun : guess_kn new_Plate set_sim_data g start stop num params0
            = (Ok out, params2)) :
  length out = length params0 /\
  (forall j, j <> kn_index ->
     nth_error out j = option_map clip_min0 (nth_error params0 j)) /\
  (forall j q, j <> kn_index ->
     nth_error params0 j = Some (Some q) ->
     exists q', nth_error out j = Some (Some q') /\
                (0 <= q -> q' == q) /\ (q <= 0 -> q' == 0)) /\
  (forall j, j <> kn_index ->
     nth_error params0 j = Some None -> nth_error out j = Some None) /\
  (forall j, j <> kn_index -> nth_error params2 j = nth_error params0 j).
Proof.
  destruct (guess_kn_inv _ _ _ _ _ _ _ Hrun)
    as [vt [k [vars [kn_guess [_ [Hk' [_ [_ [Hset Hout]]]]]]]]].
  cbv zeta in *. rewrite Hk in Hk'. injection Hk' as <-.
  destruct (kn_sweep_frame g kn_index (linspace start stop num) params0
              (set_times (new_Plate (rows (plate g)) (cols (plate g)))
                 (times (plate g)))) as [Hlen1 [Hother1 _]].
  destruct (setitem_spec _ _ _ _ Hset) as [Hlen2 [_ Hother2]].
  assert (Hframe : forall j, j <> kn_index ->
            nth_error params2 j = nth_error params0 j).
  { intros j Hj. rewrite Hother2 by exact Hj. now apply Hother1. }
  assert (Hclip : forall j, j <> kn_index ->
            nth_error out j = option_map clip_min0 (nth_error params0 j)).
  { intros j Hj. subst out. rewrite nth_error_map. now rewrite Hframe. }
  split; [subst out; rewrite length_map; congruence |].
  split; [exact Hclip |]. split; [| split; [| exact Hframe]].
  - intros j q Hj Hq. exists (Qmax 0 q).
    rewrite (Hclip j Hj), Hq. split; [reflexivity |].
    split; intros H; [now apply Q.max_r | now apply Q.max_l].
  - intros j Hj Hq. rewrite (Hclip j Hj), Hq. reflexivity.
Qed.

End Calibration_frame.

(** C6, witness: the 1x2 plate, the toy simulator, a sweep over
    [[0; 1]]. *)
Lemma guess_kn_frame_witness :
  exists out params2,
    guess_kn grid_Plate toy_set_sim_data guesser_1x2 0 1 2
      [Some (1 # 100); Some (1 # 2); None; Some 1; Some 1]
    = (Ok out, params2) /\
    nth_error out 1 = Some (Some (Qmax 0 (1 # 2))) /\
    nth_error params2 1 = Some (Some (1 # 2)).
Proof.
  destruct (guess_kn grid_Plate toy_set_sim_data guesser_1x2 0 1 2
              [Some (1 # 100); Some (1 # 2); None; Some 1; Some 1])
    as [[out | e] params2] eqn:E; [| vm_compute in E; discriminate E].
  exists out, params2. split; [reflexivity |].
  destruct (guess_kn_frame grid_Plate toy_set_sim_data guesser_1x2 0 1 2
              _ out params2 2%nat eq_refl E) as [_ [H1 [_ [_ H2]]]].
  split; [apply (H1 1%nat); discriminate | apply (H2 1%nat); discriminate].
Defined.

(** C6, counterexample to the claim as stated for every input vector: a
    negative entry away from the index of kn comes back as zero. *)
Lemma guess_kn_clips_other_entries :
  let params0 := [Some (- (1 # 100)); Some (1 # 2); None; Some 1; Some 1] in
  exists out params2,
    py_index "kn" (params (model guesser_1x2)) = Ok 2%nat /\
    guess_kn grid_Plate toy_set_sim_data guesser_1x2 0 1 2 params0
    = (Ok out, params2) /\
    ~ (forall j, j <> 2%nat -> nth_error out j = nth_error params0 j).
Proof.
  intros params0.
  destruct (guess_kn grid_Plate toy_set_sim_data guesser_1x2 0 1 2 params0)
    as [[out | e] params2] eqn:E; [| vm_compute in E; discriminate E].
  exists out, params2. split; [reflexivity |]. split; [reflexivity |].
  intros H. specialize (H 0%nat). vm_compute in E.
  injection E as <- _. simpl in H.
  assert (H0 : Some (Some 0) = Some (Some (- (1 # 100))))
    by (apply H; discriminate).
  discriminate H0.
Qed.

(** ** The least-squares line *)

Lemma np_sum_cons (v : Q) (l : list Q) : np_sum (v :: l) = v + np_sum l.
Proof. reflexivity. Qed.

Lemma dot_cons (a b : Q) (xs ys : list Q) :
  dot (a :: xs) (b :: ys) = a * b + dot xs ys.
Proof. reflexivity. Qed.


Lemma of_nat_length_cons (v : Q) (l : list Q) :
  of_nat (length (v :: l)) == of_nat (length l) + 1.
Proof. cbn [length]. apply of_nat_S. Qed.

(** Sums over empty lists are zero by computation. *)
Ltac empty_sums :=
  change (np_sum (map _ (@nil Q))) with 0;
  change (dot [] []) with 0;
  change (np_sum (@nil Q)) with 0;
  change (of_nat (length (@nil Q))) with 0.


Lemma square_nonneg (v : Q) : 0 <= v * v.
Proof.
  unfold Qle, Qmult. simpl. nia.
Qed.



(** *** The spread of the abscissas *)

Lemma sum_squares_nonneg (a : Q) (l : list Q) :
  0 <= np_sum (map (fun v => (a - v) * (a - v)) l).
Proof.
  induction l as [| v l IH]; [apply Qle_refl |].
  cbn [map]. rewrite np_sum_cons.
  pose proof (square_nonneg (a - v)). lra.
Qed.

Lemma sum_squares_expand (a : Q) (l : list Q) :
  np_sum (map (fun v => (a - v) * (a - v)) l)
  == of_nat (length l) * a * a - 2 * a * np_sum l + dot l l.
Proof.
  induction l as [| v l IH].
  - empty_sums.
    ring.
  - cbn [map]. rewrite !np_sum_cons, dot_cons, of_nat_length_cons, IH. ring.
Qed.

Lemma spread_cons (a : Q) (l : list Q) :
  spread (a :: l)
  == spread l + np_sum (map (fun v => (a - v) * (a - v)) l).
Proof.
  unfold spread.
  rewrite sum_squares_expand, dot_cons, np_sum_cons, of_nat_length_cons.
  ring.
Qed.

Lemma spread_nonneg (l : list Q) : 0 <= spread l.
Proof.
  induction l as [| a l IH].
  - unfold spread. empty_sums.
    assert (E : 0 * 0 - 0 * 0 == 0) by ring. rewrite E. apply Qle_refl.
  - rewrite spread_cons. pose proof (sum_squares_nonneg a l). lra.
Qed.

Lemma sum_squares_zero (a : Q) (l : list Q) :
  np_sum (map (fun v => (a - v) * (a - v)) l) <= 0 ->
  Forall (fun v => v == a) l.
Proof.
  induction l as [| v l IH]; intros H; [constructor |].
  cbn [map] in H. rewrite np_sum_cons in H.
  pose proof (square_nonneg (a - v)) as Hv.
  pose proof (sum_squares_nonneg a l) as Hl.
  constructor.
  - assert (E : (a - v) * (a - v) == 0) by lra.
    apply Qmult_integral in E. lra.
  - apply IH. lra.
Qed.

(** The spread is zero only when all abscissas coincide. *)
Lemma spread_zero (a : Q) (l : list Q) :
  spread (a :: l) == 0 -> Forall (fun v => v == a) l.
Proof.
  intros H. rewrite spread_cons in H.
  pose proof (spread_nonneg l). pose proof (sum_squares_nonneg a l).
  apply sum_squares_zero. lra.
Qed.

Lemma spread_pos (a v : Q) (l : list Q) :
  In v l -> ~ v == a -> 0 < spread (a :: l).
Proof.
  intros Hin Hne.
  destruct (Qlt_le_dec 0 (spread (a :: l))) as [H | H]; [exact H |].
  exfalso. pose proof (spread_nonneg (a :: l)) as H0.
  assert (E : spread (a :: l) == 0) by lra.
  apply spread_zero in E. rewrite Forall_forall in E.
  apply Hne. now apply E.
Qed.




Lemma linear_law_sums (m0 c0 : Q) (xs ys : list Q) :
  Forall2 (fun a b => b == m0 * a + c0) xs ys ->
  np_sum ys == m0 * np_sum xs + c0 * of_nat (length xs) /\
  dot xs ys == m0 * dot xs xs + c0 * np_sum xs.
Proof.
  induction 1 as [| a b xs ys Hab _ [IH1 IH2]].
  - empty_sums. split; ring.
  - rewrite !np_sum_cons, !dot_cons, of_nat_length_cons, IH1, IH2, Hab.
    split; ring.
Qed.

(** Points on a line with at least two different abscissas: the fit is
    that line. *)
Lemma lstsq_line_exact (m0 c0 : Q) (xs ys : list Q) :
  ~ spread xs == 0 ->
  Forall2 (fun a b => b == m0 * a + c0) xs ys ->
  fst (lstsq_line xs ys) == m0 /\ snd (lstsq_line xs ys) == c0.
Proof.
  intros Hd Hlaw. destruct (linear_law_sums _ _ _ _ Hlaw) as [H1 H2].
  unfold lstsq_line.
  destruct (Qeq_bool (spread xs) 0) eqn:E;
    [apply Qeq_bool_eq in E; contradiction |].
  cbn [fst snd]. rewrite H1, H2. unfold spread in *.
  split; field; exact Hd.
Qed.

Lemma linspace_spread (start stop : Q) (num : nat) :
  (2 <= num)%nat -> ~ start == stop ->
  0 < spread (linspace start stop num).
Proof.
  intros Hn Hne. destruct num as [| [| k]]; try lia.
  unfold linspace. cbn [seq map].
  set (step := (stop - start) / of_nat (S (S k) - 1)).
  apply (spread_pos _ (start + of_nat 1 * step)); [now left |].
  assert (Hk : 0 < of_nat (S (S k) - 1)) by (apply of_nat_pos; lia).
  assert (Hs : ~ step == 0).
  { unfold step. intros H.
    assert (E : stop - start == (stop - start) / of_nat (S (S k) - 1)
                                 * of_nat (S (S k) - 1)) by (field; lra).
    rewrite H in E. lra. }
  change (of_nat 1) with 1. change (of_nat 0) with 0. lra.
Qed.

(** ** Calibration of kn: the estimate *)


Section Calibration_estimate.

Variable new_Plate : nat -> nat -> Plate.
Variable set_sim_data : Plate -> Model -> Plate.



End Calibration_estimate.



(** * Further properties of the guesser *)

(** ** Initial cell amounts *)

Lemma last_n_nil {A : Type} (n : nat) (l : list A) :
  last_n n l = [] -> l = [].
Proof.
  destruct n as [| n]; simpl; [auto |].
  intros H. destruct l as [| a l]; [reflexivity |].
  apply (f_equal (@length A)) in H. rewrite length_skipn in H.
  cbn [length] in H. lia.
Qed.

(** X1.  With measurements and a ratio [C_ratio >= 0], [_guess_init_C]
    returns one amount [C_0]: the product of [C_ratio] and one of the final
    measurements, and at least the product of [C_ratio] and any of them. *)
Theorem guess_init_C_scales_max (g : Guesser) (r : Q)
    (Hmeas : c_meas (plate g) <> [])
    (Hr : C_ratio g = Some r) (Hr0 : 0 <= r) :
  let finals := last_n (no_cultures (plate g)) (c_meas (plate g)) in
  exists C_0,
    _guess_init_C g = Ok [C_0] /\
    (exists C_f, In C_f finals /\ C_0 = C_f * r) /\
    Forall (fun C_f => C_f * r <= C_0) finals.
Proof.
  intros finals. unfold _guess_init_C. fold finals.
  destruct (py_max finals) as [m | e] eqn:E.
  - rewrite Hr. cbn [bind ratio]. exists (m * r).
    split; [reflexivity |]. split.
    + exists m. split; [now apply py_max_attained | reflexivity].
    + apply py_max_ge in E. eapply Forall_impl; [| exact E].
      intros v Hv. simpl in Hv. nra.
  - exfalso. destruct finals as [| a l] eqn:Ef; [| discriminate E].
    apply Hmeas. now apply (last_n_nil (no_cultures (plate g))).
Qed.

Lemma guess_init_C_scales_max_witness :
  exists C_0,
    _guess_init_C guesser_2x2_gap = Ok [C_0] /\
    (exists C_f, In C_f [0; 9; 1; 2] /\ C_0 = C_f * (1 # 10000)) /\
    Forall (fun C_f => C_f * (1 # 10000) <= C_0) [0; 9; 1; 2].
Proof.
  apply (guess_init_C_scales_max guesser_2x2_gap (1 # 10000)).
  - discriminate.
  - reflexivity.
  - discriminate.
Defined.

(** X2.  [_guess_init_C] on a plate without measurements raises
    [ValueError], whatever [C_ratio] is; with measurements and
    [C_ratio = None] it raises [TypeError]. *)
Theorem guess_init_C_errors (g : Guesser) :
  (c_meas (plate g) = [] -> _guess_init_C g = Raise ValueError) /\
  (c_meas (plate g) <> [] -> C_ratio g = None ->
   _guess_init_C g = Raise TypeError).
Proof.
  unfold _guess_init_C. split.
  - intros H. rewrite H.
    destruct (no_cultures (plate g)); reflexivity.
  - intros Hmeas Hr.
    destruct (py_max _) as [m | e] eqn:E.
    + rewrite Hr. reflexivity.
    + exfalso.
      destruct (last_n _ _) as [| a l] eqn:Ef; [| discriminate E].
      apply Hmeas. now apply (last_n_nil (no_cultures (plate g))).
Qed.

Lemma guess_init_C_errors_witness :
  _guess_init_C (mkGuesser plate_0x0 CompModel None None) = Raise ValueError
  /\ _guess_init_C (mkGuesser plate_3x3 CompModel None None)
     = Raise TypeError.
Proof.
  split.
  - apply (proj1 (guess_init_C_errors
                    (mkGuesser plate_0x0 CompModel None None))).
    reflexivity.
  - apply (proj2 (guess_init_C_errors
                    (mkGuesser plate_3x3 CompModel None None)));
      [discriminate | reflexivity].
Defined.

(** ** Initial nutrient amounts: what is read *)

(** X3.  [_guess_init_N] reads [area_ratio] under a boundary condition
    only: without one its result is the same for every [area_ratio] and
    [C_ratio]; with one and [area_ratio = None] it raises [TypeError]; and
    when the model has no species N with a boundary flag it raises what
    the lookup raises. *)
Theorem guess_init_N_area_ratio (g : Guesser) :
  (N_bc g = Ok false -> forall ar cr,
     _guess_init_N (mkGuesser (plate g) (model g) ar cr)
     = _guess_init_N g) /\
  (N_bc g = Ok true -> area_ratio g = None ->
   _guess_init_N g = Raise TypeError) /\
  (forall e, N_bc g = Raise e -> _guess_init_N g = Raise e).
Proof.
  unfold N_bc, _guess_init_N, N_tot. cbn [plate model].
  destruct (py_index "N" (species (model g))) as [N_index | e0];
    cbn [bind].
  2: { repeat split; try discriminate. intros e H. now injection H as ->. }
  destruct (getitem (species_bc (model g)) N_index) as [bc | e0];
    cbn [bind].
  2: { repeat split; try discriminate. intros e H. now injection H as ->. }
  repeat split.
  - intros H ar cr. injection H as ->. reflexivity.
  - intros H Har. injection H as ->. rewrite Har. reflexivity.
  - discriminate.
Qed.

Lemma guess_init_N_area_ratio_witness :
  _guess_init_N (mkGuesser plate_3x3 CompModel None None)
  = _guess_init_N (mkGuesser plate_3x3 CompModel (Some 1) (Some 1)) /\
  _guess_init_N (mkGuesser plate_3x3 CompModelBC None (Some 1))
  = Raise TypeError /\
  _guess_init_N (mkGuesser plate_3x3 (mkModel [] [] []) None None)
  = Raise ValueError.
Proof.
  split; [| split].
  - apply (proj1 (guess_init_N_area_ratio
                    (mkGuesser plate_3x3 CompModel (Some 1) (Some 1)))
             eq_refl None None).
  - apply (proj1 (proj2 (guess_init_N_area_ratio
                    (mkGuesser plate_3x3 CompModelBC None (Some 1))))
             eq_refl eq_refl).
  - apply (proj2 (proj2 (guess_init_N_area_ratio
                    (mkGuesser plate_3x3 (mkModel [] [] []) None None)))
             ValueError eq_refl).
Defined.

(** ** Bounds: what [get_bounds] reads and what it does not check *)

(** X5.  [get_bounds] reads the initial amounts of [params] and nothing
    else: with [amounts] the first two entries (three under a boundary
    condition), the result is the same whatever follows them, and when it
    is a list of bounds it has one bound per amount, one for kn and one
    per culture. *)
Theorem get_bounds_reads_amounts (g : Guesser) (bc : bool)
    (amounts rest rest' : list Q) (C_doubt N_doubt kn_max : Q)
    (Hbc : N_bc g = Ok bc)
    (Hlen : length amounts = if bc then 3%nat else 2%nat) :
  get_bounds g (amounts ++ rest) C_doubt N_doubt kn_max
  = get_bounds g (amounts ++ rest') C_doubt N_doubt kn_max /\
  forall bounds,
    get_bounds g (amounts ++ rest) C_doubt N_doubt kn_max = Ok bounds ->
    length bounds = (length amounts + 1 + no_cultures (plate g))%nat.
Proof.
  unfold N_bc in Hbc.
  apply bind_ok_inv in Hbc as [N_index [HN Hbc]].
  apply bind_ok_inv in Hbc as [flag [Hflag Hbc]].
  injection Hbc as Hbc.
  unfold get_bounds, _bound_init_amounts.
  rewrite HN. cbn [bind]. rewrite Hflag. cbn [bind]. rewrite Hbc.
  destruct bc; cbn [negb].
  - destruct amounts as [| C0 [| Ni [| Ne [| ? ?]]]]; try discriminate Hlen.
    cbn [app getitem nth_error bind].
    split; [reflexivity |].
    intros bounds H.
    destruct (fdiv C0 C_doubt); [| discriminate]. cbn [bind] in H.
    destruct (fdiv Ni N_doubt); [| discriminate]. cbn [bind] in H.
    destruct (fdiv Ne N_doubt); [| discriminate]. cbn [bind] in H.
    injection H as <-.
    cbn [app length]. rewrite length_map, length_seq. lia.
  - destruct amounts as [| C0 [| N0 [| ? ?]]]; try discriminate Hlen.
    cbn [app getitem nth_error bind].
    split; [reflexivity |].
    intros bounds H.
    destruct (fdiv C0 C_doubt); [| discriminate]. cbn [bind] in H.
    injection H as <-.
    cbn [app length]. rewrite length_map, length_seq. lia.
Qed.

Lemma get_bounds_reads_amounts_witness :
  get_bounds guesser_2x2_gap ([1; 3] ++ [1 # 2; 1; 1; 1; 1]) 1000 2 10
  = get_bounds guesser_2x2_gap ([1; 3] ++ []) 1000 2 10.
Proof.
  apply (proj1 (get_bounds_reads_amounts guesser_2x2_gap false [1; 3]
                  [1 # 2; 1; 1; 1; 1] [] 1000 2 10 eq_refl eq_refl)).
Defined.

(** X6.  [get_bounds] does not check the doubt factors: for a positive
    cell amount and [0 < C_doubt < 1] the bound it returns for the cell
    amount has its lower end above its upper end. *)
Theorem get_bounds_inverted (g : Guesser) (C0 : Q) (rest : list Q)
    (C_doubt N_doubt kn_max : Q) (bounds : list bound)
    (Hrun : get_bounds g (C0 :: rest) C_doubt N_doubt kn_max = Ok bounds)
    (HC0 : 0 < C0) (HCd : 0 < C_doubt < 1) :
  exists lo hi tl,
    bounds = (lo, Some hi) :: tl /\ hi < lo /\ ~ within C0 (lo, Some hi).
Proof.
  unfold get_bounds, _bound_init_amounts in Hrun.
  cbn [getitem nth_error bind] in Hrun.
  assert (Hd : ~ C_doubt == 0) by lra.
  rewrite (fdiv_ok _ _ Hd) in Hrun. cbn [bind] in Hrun.
  apply bind_ok_inv in Hrun as [ab [Hab Hrun]]. injection Hrun as <-.
  assert (Hlo : C0 < C0 / C_doubt).
  { apply Qlt_shift_div_l; [lra | nra]. }
  assert (Hhi : C0 * C_doubt < C0) by nra.
  assert (Hab' : exists tl, ab = (C0 / C_doubt, Some (C0 * C_doubt)) :: tl).
  { apply bind_ok_inv in Hab as [N_index [_ Hab]].
    apply bind_ok_inv in Hab as [bc [_ Hab]].
    destruct (negb (truthy bc)).
    - apply bind_ok_inv in Hab as [g1 [_ Hab]]. injection Hab as <-.
      eexists. reflexivity.
    - apply bind_ok_inv in Hab as [g1 [_ Hab]].
      apply bind_ok_inv in Hab as [lo1 [_ Hab]].
      apply bind_ok_inv in Hab as [g2 [_ Hab]].
      apply bind_ok_inv in Hab as [lo2 [_ Hab]]. injection Hab as <-.
      eexists. reflexivity. }
  destruct Hab' as [tl ->].
  exists (C0 / C_doubt), (C0 * C_doubt). eexists.
  split; [reflexivity |]. split; [lra |].
  intros [H _]. simpl in H. lra.
Qed.

Lemma get_bounds_inverted_witness :
  exists lo hi tl,
    get_bounds guesser_2x2_gap [1; 3; 1 # 2; 1; 1; 1; 1] (1 # 2) 2 10
    = Ok ((lo, Some hi) :: tl) /\ hi < lo.
Proof.
  destruct (get_bounds_inverted guesser_2x2_gap 1
              [3; 1 # 2; 1; 1; 1; 1] (1 # 2) 2 10 _ eq_refl)
    as [lo [hi [tl [H1 [H2 _]]]]].
  - reflexivity.
  - split; reflexivity.
  - exists lo, hi, tl. rewrite <- H1. split; [reflexivity | exact H2].
Defined.

(** ** Separating a guess by nutrient amount *)

(** X7.  [_sep_by_N_0] returns the guess and the bounds as they are, in
    one group, when the nutrient has no boundary condition.  Under a
    boundary condition it returns two groups: the first without the entry
    at index 2 (the edge amount), the second without the entry at index 1
    (the internal amount); a guess or bounds with fewer than three
    entries raise [IndexError]. *)
Theorem sep_by_N_0_groups (g : Guesser) (bc : bool)
    (param_guess : list Q) (bounds : list bound)
    (Hbc : N_bc g = Ok bc) :
  (bc = false ->
   _sep_by_N_0 g param_guess bounds = Ok ([param_guess], [bounds])) /\
  (bc = true -> forall C N NE ps bC bN bNE bs,
   param_guess = C :: N :: NE :: ps -> bounds = bC :: bN :: bNE :: bs ->
   _sep_by_N_0 g param_guess bounds
   = Ok ([C :: N :: ps; C :: NE :: ps], [bC :: bN :: bs; bC :: bNE :: bs]))
  /\
  (bc = true -> (length param_guess < 3 \/ length bounds < 3)%nat ->
   _sep_by_N_0 g param_guess bounds = Raise IndexError).
Proof.
  unfold N_bc in Hbc.
  apply bind_ok_inv in Hbc as [N_index [HN Hbc]].
  apply bind_ok_inv in Hbc as [flag [Hflag Hbc]].
  injection Hbc as Hbc.
  unfold _sep_by_N_0. rewrite HN. cbn [bind]. rewrite Hflag. cbn [bind].
  rewrite Hbc. repeat split.
  - intros ->. reflexivity.
  - intros -> C N NE ps bC bN bNE bs -> ->. reflexivity.
  - intros -> [H | H].
    + destruct param_guess as [| a [| b [| c l]]]; try reflexivity.
      simpl in H. lia.
    + destruct bounds as [| a [| b [| c l]]];
        destruct param_guess as [| a' [| b' [| c' l']]];
        try reflexivity; simpl in H; lia.
Qed.

Lemma sep_by_N_0_groups_witness :
  _sep_by_N_0 (mkGuesser plate_3x3 CompModelBC (Some 1) None)
    [1; 2; 3; 4] [(1, None); (2, None); (3, None); (4, None)]
  = Ok ([[1; 2; 4]; [1; 3; 4]],
        [[(1, None); (2, None); (4, None)];
         [(1, None); (3, None); (4, None)]]) /\
  _sep_by_N_0 (mkGuesser plate_3x3 CompModelBC (Some 1) None)
    [1; 2] [(1, None); (2, None); (3, None)]
  = Raise IndexError.
Proof.
  split.
  - apply (proj1 (proj2 (sep_by_N_0_groups
             (mkGuesser plate_3x3 CompModelBC (Some 1) None) true
             [1; 2; 3; 4] [(1, None); (2, None); (3, None); (4, None)]
             eq_refl)) eq_refl 1 2 3 [4] (1, None) (2, None) (3, None)
             [(4, None)] eq_refl eq_refl).
  - apply (proj2 (proj2 (sep_by_N_0_groups
             (mkGuesser plate_3x3 CompModelBC (Some 1) None) true
             [1; 2] [(1, None); (2, None); (3, None)] eq_refl)) eq_refl).
    left. simpl. lia.
Defined.

(** ** The imaginary-neighbour stage: guesses, bounds and regimes *)

Lemma delete_at_Forall2 {A B : Type} (R : A -> B -> Prop) (i : nat)
    (l l' : list A) (m m' : list B) :
  Forall2 R l m -> delete_at i l = Ok l' -> delete_at i m = Ok m' ->
  Forall2 R l' m'.
Proof.
  intros H. revert i l' m'.
  induction H as [| a b l m Hab H IH]; intros i l' m' Hl Hm.
  - destruct i; discriminate.
  - destruct i as [| i]; simpl in Hl, Hm.
    + injection Hl as <-. injection Hm as <-. exact H.
    + apply bind_ok_inv in Hl as [r [Hr Hl]]. injection Hl as <-.
      apply bind_ok_inv in Hm as [s [Hs Hm]]. injection Hm as <-.
      constructor; [exact Hab | now apply (IH i)].
Qed.

Lemma fixed_amounts_within (amounts : list Q) :
  Forall2 within amounts (map (fun amount => (amount, Some amount)) amounts).
Proof.
  induction amounts as [| a l IH]; simpl; constructor; [| exact IH].
  split; simpl; apply Qle_refl.
Qed.

(** X8.  When the setup of the imaginary-neighbour stage succeeds on
    parameters [[kn1; kn2; b-; b+; b]] with [kn1], [kn2] and [b] not
    negative, it yields one group of guess and bounds, or two under a
    boundary condition, and in every group the guess has as many entries
    as the bounds and every entry lies within its bound. *)
Theorem imag_setup_guess_within_bounds (g : Guesser)
    (kn1 kn2 b_minus b_plus b : Q) (no_neighs : option Z)
    (plate_lvl : option (list Q)) (N_bc0 : bool) (b_guess : Q)
    (md : QuickModel) (ps : list (list Q)) (bds : list (list bound))
    (Hrun : imag_setup g [kn1; kn2; b_minus; b_plus; b] no_neighs plate_lvl
            = Ok (N_bc0, b_guess, md, ps, bds))
    (Hkn1 : 0 <= kn1) (Hkn2 : 0 <= kn2) (Hb : 0 <= b) :
  b_guess = b /\
  N_bc g = Ok N_bc0 /\
  length ps = (if N_bc0 then 2%nat else 1%nat) /\
  Forall2 (Forall2 within) ps bds.
Proof.
  unfold imag_setup in Hrun. unfold N_bc.
  apply bind_ok_inv in Hrun as [N_index [HN Hrun]]. rewrite HN. cbn [bind].
  apply bind_ok_inv in Hrun as [bc [Hflag Hrun]]. rewrite Hflag. cbn [bind].
  apply bind_ok_inv in Hrun as [b0 [Hb0 Hrun]].
  injection Hb0 as <-.
  apply bind_ok_inv in Hrun as [first_guess [_ Hrun]].
  apply bind_ok_inv in Hrun as [k [_ Hrun]].
  cbn [getitem nth_error bind] in Hrun.
  apply bind_ok_inv in Hrun as [sep [Hsep Hrun]].
  injection Hrun as <- <- _ <- <-.
  split; [reflexivity |]. split; [reflexivity |].
  set (amounts := removelast first_guess) in *.
  assert (Hall : Forall2 within (amounts ++ [kn1; kn2; b_minus; b_plus; b])
            (map (fun amount => (amount, Some amount)) amounts
             ++ [(0, None); (0, None); (b_minus, Some b_minus);
                 (b_plus, Some b_plus); (0, None)])).
  { apply Forall2_app; [apply fixed_amounts_within |].
    repeat constructor; simpl; try assumption; apply Qle_refl. }
  unfold _sep_by_N_0 in Hsep. rewrite HN in Hsep. cbn [bind] in Hsep.
  rewrite Hflag in Hsep. cbn [bind] in Hsep.
  destruct (truthy bc).
  - apply bind_ok_inv in Hsep as [p2 [Hp2 Hsep]].
    apply bind_ok_inv in Hsep as [p1 [Hp1 Hsep]].
    apply bind_ok_inv in Hsep as [b2 [Hb2 Hsep]].
    apply bind_ok_inv in Hsep as [b1 [Hb1 Hsep]].
    injection Hsep as <-. cbn [fst snd].
    split; [reflexivity |].
    constructor; [now apply (delete_at_Forall2 within 2 _ _ _ _ Hall) |].
    constructor; [now apply (delete_at_Forall2 within 1 _ _ _ _ Hall) |].
    constructor.
  - injection Hsep as <-. cbn [fst snd].
    split; [reflexivity |]. constructor; [exact Hall | constructor].
Qed.

Lemma imag_setup_guess_within_bounds_witness :
  exists md ps bds,
    imag_setup guesser_2x2_gap [0; 0; 1 # 2; 3 # 2; 1] None None
    = Ok (false, 1, md, ps, bds) /\
    length ps = 1%nat /\ Forall2 (Forall2 within) ps bds.
Proof.
  destruct (imag_setup guesser_2x2_gap [0; 0; 1 # 2; 3 # 2; 1] None None)
    as [[[[[bc b_guess] md] ps] bds] | e] eqn:E;
    [| vm_compute in E; discriminate E].
  assert (Hbc : bc = false /\ b_guess = 1).
  { vm_compute in E. injection E as <- <- _ _ _. split; reflexivity. }
  destruct Hbc as [-> ->].
  exists md, ps, bds. split; [reflexivity |].
  destruct (imag_setup_guess_within_bounds guesser_2x2_gap 0 0 (1 # 2)
              (3 # 2) 1 None None false 1 md ps bds E)
    as [_ [_ [H1 H2]]]; try discriminate.
  split; assumption.
Defined.

Section Imag_neigh_regime.

Variable fit_model :
  Culture -> QuickModel -> list Q -> list bound -> FitResult.

(** X9.  The loop of the imaginary-neighbour stage, when it runs to its
    end, has fitted every culture that is not empty with the guess and
    bounds of its regime: group 0 when the nutrient has no boundary
    condition or the culture is internal, group 1 when the culture is an
    edge and not internal.  Under a boundary condition, a first culture
    that is neither internal, edge nor empty stops the loop with
    [NameError], no culture fitted. *)
Theorem imag_neigh_regime (g : Guesser) (N_bc0 : bool) (md : QuickModel)
    (ps : list (list Q)) (bds : list (list bound)) (cs : list Culture) :
  let loop i idx cs :=
    fit_imag_neigh_cultures fit_model g N_bc0 md ps bds i idx cs in
  (forall i idx j c,
     is_ok (fst (loop i idx cs)) = true ->
     nth_error cs j = Some c ->
     mem (i + j) (empties (plate g)) = false ->
     forall k,
       (N_bc0 = false \/ mem (i + j) (internals (plate g)) = true ->
        k = 0%nat) ->
       (N_bc0 = true -> mem (i + j) (internals (plate g)) = false ->
        mem (i + j) (edges (plate g)) = true /\ k = 1%nat) ->
       exists p b,
         nth_error ps k = Some p /\ nth_error bds k = Some b /\
         nth_error (snd (loop i idx cs)) j
         = Some (set_im_neigh_est c (fit_model c md p b))) /\
  (forall i c cs',
     cs = c :: cs' -> N_bc0 = true ->
     mem i (internals (plate g)) = false ->
     mem i (edges (plate g)) = false ->
     mem i (empties (plate g)) = false ->
     loop i None cs = (Raise NameError, cs)).
Proof.
  intros loop. subst loop. cbv beta. split.
  - induction cs as [| c0 cs0 IH]; intros i idx j c Hok Hc Hm k Hk0 Hk1.
    + destruct j; discriminate.
    + cbn [fit_imag_neigh_cultures] in *.
      set (idx' := if negb N_bc0 then _ else _) in *.
      destruct j as [| j].
      * rewrite Nat.add_0_r in *. rewrite Hm in *.
        assert (Hidx : idx' = Some k).
        { subst idx'. destruct N_bc0; cbn [negb].
          - destruct (mem i (internals (plate g))) eqn:Ei.
            + rewrite Hk0 by now right. reflexivity.
            + destruct (Hk1 eq_refl eq_refl) as [-> ->]. reflexivity.
          - rewrite Hk0 by now left. reflexivity. }
        rewrite Hidx in *. cbn [bind] in *.
        unfold getitem in *.
        destruct (nth_error ps k) as [p |]; [| discriminate].
        destruct (nth_error bds k) as [b |]; [| discriminate].
        cbn [bind] in *. injection Hc as ->.
        exists p, b.
        destruct (fit_imag_neigh_cultures _ _ _ _ _ _ _ _ _). auto.
      * rewrite Nat.add_succ_r in *.
        specialize (IH (S i) idx' j c).
        destruct (mem i (empties (plate g))).
        -- destruct (fit_imag_neigh_cultures _ _ _ _ _ _ _ _ _).
           now apply IH.
        -- destruct (k0 <- _ ;; _) as [[p b] | e]; [| discriminate].
           destruct (fit_imag_neigh_cultures _ _ _ _ _ _ _ _ _).
           now apply IH.
  - intros i c cs' -> -> Hi He Hm.
    cbn [fit_imag_neigh_cultures negb]. rewrite Hi, He, Hm. reflexivity.
Qed.

End Imag_neigh_regime.

Lemma imag_neigh_regime_witness :
  fit_imag_neigh_cultures echo_fit_model
    (mkGuesser plate_3x3 CompModelBC (Some 1) None) true (ImagNeighModel 1)
    [[1]; [2]] [[]; []] 9 None [no_est []]
  = (Raise NameError, [no_est []]).
Proof.
  apply (proj2 (imag_neigh_regime echo_fit_model
                  (mkGuesser plate_3x3 CompModelBC (Some 1) None) true
                  (ImagNeighModel 1) [[1]; [2]] [[]; []] [no_est []])
           9%nat (no_est []) [] eq_refl eq_refl eq_refl eq_refl eq_refl).
Defined.

(** ** Stages without [C_ratio] *)

Section Stages_need_C_ratio.

Variable b_index : QuickModel -> nat.
Variable fit_model :
  Culture -> QuickModel -> list Q -> list bound -> FitResult.

(** X11.  On a plate with measurements, a guesser constructed with
    [C_ratio = None] cannot infer its first guess: [quick_fit_log_eq], and
    [quick_fit_imag_neighs] without [plate_lvl], raise [TypeError] and
    leave the guesser as it was, no culture fitted. *)
Theorem stages_need_C_ratio (g : Guesser) (b_guess : Q)
    (imag_neigh_params : list Q) (no_neighs : option Z)
    (Hmeas : c_meas (plate g) <> [])
    (Hr : C_ratio g = None) :
  quick_fit_log_eq b_index fit_model g b_guess = (Raise TypeError, g) /\
  (is_ok (N_bc g) = true -> imag_neigh_params <> [] ->
   quick_fit_imag_neighs b_index fit_model g imag_neigh_params no_neighs
     None = (Raise TypeError, g)).
Proof.
  assert (HC : _guess_init_C g = Raise TypeError).
  { unfold _guess_init_C.
    destruct (py_max _) as [m | e] eqn:E; [now rewrite Hr |].
    exfalso. destruct (last_n _ _) as [| a l] eqn:Ef; [| discriminate E].
    apply Hmeas. now apply (last_n_nil (no_cultures (plate g))). }
  assert (Hfg : make_first_guess g b_guess = Raise TypeError)
    by (unfold make_first_guess; now rewrite HC).
  split.
  - unfold quick_fit_log_eq. now rewrite Hfg.
  - intros Hbc Hne. unfold quick_fit_imag_neighs, imag_setup.
    unfold N_bc in Hbc.
    destruct (py_index "N" (species (model g))) as [N_index | e];
      [| discriminate]. cbn [bind] in *.
    destruct (getitem (species_bc (model g)) N_index) as [bc | e];
      [| discriminate]. cbn [bind].
    destruct (getlast imag_neigh_params) as [b | e] eqn:El.
    + cbn [bind imag_first_guess].
      assert (Hfg' : make_first_guess g b = Raise TypeError)
        by (unfold make_first_guess; now rewrite HC).
      now rewrite Hfg'.
    + exfalso. unfold getlast in El.
      destruct (rev imag_neigh_params) eqn:Hrev; [| discriminate].
      apply (f_equal (@rev Q)) in Hrev. rewrite rev_involutive in Hrev.
      now apply Hne.
Qed.

End Stages_need_C_ratio.

Lemma stages_need_C_ratio_witness :
  quick_fit_log_eq layout_b_index echo_fit_model
    (mkGuesser plate_3x3 CompModel (Some 1) None) 1
  = (Raise TypeError, mkGuesser plate_3x3 CompModel (Some 1) None).
Proof.
  apply (proj1 (stages_need_C_ratio layout_b_index echo_fit_model
                  (mkGuesser plate_3x3 CompModel (Some 1) None) 1 [] None
                  ltac:(discriminate) eq_refl)).
Defined.


(** ** Aggregation: errors *)

Lemma getattr_est_error (c : Culture) (name : string) (e : error) :
  getattr_est c name = Raise e -> e = AttributeError.
Proof.
  unfold getattr_est.
  destruct (String.eqb name "log_est");
    [destruct (log_est c); [discriminate | now intros [= <-]] |].
  destruct (String.eqb name "im_neigh_est");
    [destruct (im_neigh_est c); [discriminate | now intros [= <-]] |].
  now intros [= <-].
Qed.

Lemma collect_ests_missing (name : string) (gr : list nat)
    (cs : list Culture) (i j : nat) (c : Culture) :
  nth_error cs j = Some c -> mem (i + j) gr = true ->
  getattr_est c name = Raise AttributeError ->
  collect_ests name gr i cs = Raise AttributeError.
Proof.
  revert i j. induction cs as [| c0 cs IH]; intros i j Hc Hm Hatt.
  - destruct j; discriminate.
  - cbn [collect_ests]. destruct j as [| j].
    + rewrite Nat.add_0_r in Hm. injection Hc as ->.
      rewrite Hm, Hatt. reflexivity.
    + rewrite Nat.add_succ_r in Hm.
      rewrite (IH (S i) j Hc Hm Hatt).
      destruct (mem i gr); [| reflexivity].
      destruct (getattr_est c0 name) as [r | e] eqn:E; [reflexivity |].
      apply getattr_est_error in E. now subst.
Qed.

Lemma collect_ests_no_grower (name : string) (gr : list nat)
    (cs : list Culture) (i : nat) :
  (forall j, (j < length cs)%nat -> mem (i + j) gr = false) ->
  collect_ests name gr i cs = Ok [].
Proof.
  revert i. induction cs as [| c cs IH]; intros i H; [reflexivity |].
  cbn [collect_ests].
  rewrite <- (Nat.add_0_r i) at 1. rewrite (H 0%nat) by (simpl; lia).
  apply IH. intros j Hj. rewrite Nat.add_succ_comm. apply H. simpl. lia.
Qed.

Section Aggregation_errors.

Variable b_index : QuickModel -> nat.

(** X12.  [_process_quick_ests] raises [AttributeError] as soon as one
    growing culture of the plate does not hold the estimate named
    [est_name], whatever its other arguments: the stage that stores the
    estimate has not fitted that culture, or the name is not that of a
    stage. *)
Theorem process_quick_ests_missing_estimate (g : Guesser) (j : nat)
    (c : Culture) (est_name : string)
    (Hc : nth_error (cultures (plate g)) j = Some c)
    (Hgrower : mem j (growers (plate g)) = true)
    (Hmissing : getattr_est c est_name = Raise AttributeError) :
  forall quick_mod b_guess clip C_0_handling plate_lvl,
    _process_quick_ests b_index g quick_mod est_name b_guess clip
      C_0_handling plate_lvl = Raise AttributeError.
Proof.
  intros. unfold _process_quick_ests, b_est_holder.
  rewrite (collect_ests_missing est_name _ _ 0 j c Hc Hgrower Hmissing).
  reflexivity.
Qed.

(** X13.  On a plate none of whose cultures is a grower there is no
    estimate to aggregate: [_process_quick_ests] raises [IndexError]. *)
Theorem process_quick_ests_no_grower (g : Guesser)
    (Hnone : forall j, (j < length (cultures (plate g)))%nat ->
                       mem j (growers (plate g)) = false) :
  forall quick_mod est_name b_guess clip C_0_handling plate_lvl,
    _process_quick_ests b_index g quick_mod est_name b_guess clip
      C_0_handling plate_lvl = Raise IndexError.
Proof.
  intros. unfold _process_quick_ests, b_est_holder.
  rewrite (collect_ests_no_grower est_name _ _ 0 Hnone). reflexivity.
Qed.

(** X14.  The policy [C_0_handling] is not read when [plate_lvl] is given.
    Without [plate_lvl], a policy that is none of [first_guess], [median]
    and [top_half] never yields a guess: once the estimates are collected
    and the nutrient amounts guessed, the call raises [NameError]. *)
Theorem process_quick_ests_policy (g : Guesser) (quick_mod : QuickModel)
    (est_name : string) (b_guess : Q) (clip : bool) :
  (forall C_0_handling C_0_handling' plate_lvl,
     _process_quick_ests b_index g quick_mod est_name b_guess clip
       C_0_handling (Some plate_lvl)
     = _process_quick_ests b_index g quick_mod est_name b_guess clip
         C_0_handling' (Some plate_lvl)) /\
  (forall C_0_handling,
     C_0_handling <> "first_guess"%string ->
     C_0_handling <> "median"%string ->
     C_0_handling <> "top_half"%string ->
     is_ok (_process_quick_ests b_index g quick_mod est_name b_guess clip
              C_0_handling None) = false /\
     (is_ok (b_est_holder (b_index quick_mod) g est_name b_guess clip)
      = true ->
      is_ok (_guess_init_N g) = true ->
      _process_quick_ests b_index g quick_mod est_name b_guess clip
        C_0_handling None = Raise NameError)).
Proof.
  split; [reflexivity |].
  intros h H1 H2 H3. unfold _process_quick_ests.
  apply String.eqb_neq in H1, H2, H3. rewrite H1, H2, H3.
  destruct (b_est_holder _ _ _ _ _) as [ab | e]; cbn [bind];
    [| split; [reflexivity | discriminate]].
  destruct (_guess_init_N g) as [Ns | e]; cbn [bind];
    split; try reflexivity; discriminate.
Qed.

End Aggregation_errors.

Lemma process_quick_ests_missing_estimate_witness :
  _process_quick_ests layout_b_index guesser_2x2_gap IndeModel "log_est" 1
    false "first_guess" None = Raise AttributeError.
Proof.
  apply (process_quick_ests_missing_estimate layout_b_index guesser_2x2_gap
           1 (no_est [0; 9]) "log_est" eq_refl eq_refl eq_refl).
Defined.

Lemma process_quick_ests_no_grower_witness :
  _process_quick_ests layout_b_index
    (mkGuesser plate_0x0 CompModel (Some 1) (Some 1)) IndeModel "log_est" 1
    false "first_guess" None = Raise IndexError.
Proof.
  apply (process_quick_ests_no_grower layout_b_index
           (mkGuesser plate_0x0 CompModel (Some 1) (Some 1))).
  intros j Hj. simpl in Hj. lia.
Defined.

Lemma process_quick_ests_policy_witness :
  let g :=
    snd (quick_fit_log_eq layout_b_index scaling_fit_model
           guesser_2x2_gap 1) in
  _process_quick_ests layout_b_index g IndeModel "log_est" 1 false "mean"
    None = Raise NameError.
Proof.
  intros g.
  apply (proj2 (process_quick_ests_policy layout_b_index g IndeModel
                  "log_est" 1 false) "mean"%string);
    try discriminate; reflexivity.
Defined.

(** ** Aggregation: the layout of the guess and the median policy *)

Lemma np_insert_at_end {A : Type} (a b v : list A) (e : A) :
  np_insert (a ++ b) (length a) e = Ok v -> v = a ++ e :: b.
Proof.
  revert v. induction a as [| a0 a IH]; intros v H; simpl in H.
  - now injection H as <-.
  - apply bind_ok_inv in H as [r [Hr H]]. injection H as <-.
    simpl. f_equal. now apply IH.
Qed.

Section Aggregation_layout.

Variable b_index : QuickModel -> nat.
Variable fit_model :
  Culture -> QuickModel -> list Q -> list bound -> FitResult.

Lemma process_quick_ests_first_guess (g : Guesser) (quick_mod : QuickModel)
    (est_name : string) (b_guess : Q) (clip : bool) (v : list entry) :
  _process_quick_ests b_index g quick_mod est_name b_guess clip
    "first_guess" None = Ok v ->
  exists C_0 Ns bs kn_index,
    _guess_init_C g = Ok [C_0] /\
    _guess_init_N g = Ok Ns /\
    py_index "kn" (params (model g)) = Ok kn_index /\
    length bs = no_cultures (plate g) /\
    np_insert (Some C_0 :: map Some Ns ++ map Some bs) kn_index None = Ok v /\
    (kn_index = S (length Ns) ->
     v = Some C_0 :: map Some Ns ++ None :: map Some bs).
Proof.
  unfold _process_quick_ests. intros H.
  apply bind_ok_inv in H as [[all_ests bs] [Hab H]]. cbn [fst snd] in H.
  cbn [String.eqb Ascii.eqb Bool.eqb] in H.
  apply bind_ok_inv in H as [C_0_opt [HC H]].
  apply bind_ok_inv in HC as [C [HC HC']]. injection HC' as <-.
  apply bind_ok_inv in H as [Ns [HN H]]. cbn [bind] in H.
  apply bind_ok_inv in H as [k [Hk H]].
  assert (HC1 : exists C_0, C = [C_0]).
  { unfold _guess_init_C in HC.
    apply bind_ok_inv in HC as [m [_ HC]].
    apply bind_ok_inv in HC as [r [_ HC]]. injection HC as <-. eauto. }
  destruct HC1 as [C_0 ->].
  destruct (b_est_holder_spec _ _ _ _ _ _ _ Hab) as [Hlen _].
  exists C_0, Ns, bs, k.
  cbn [app map] in H. rewrite map_app in H.
  repeat split; try assumption.
  intros ->.
  apply (np_insert_at_end (Some C_0 :: map Some Ns) (map Some bs)).
  cbn [length]. now rewrite length_map.
Qed.

(** X15.  A guess [v] returned by a quick-fit stage that infers the
    plate-level amounts holds, before the growth rates, the amounts
    [_guess_init_C] and [_guess_init_N] compute from the measurements,
    whatever the fits estimated, with NaN inserted at the index of kn;
    when kn comes right after the amounts in [model.params], [v] is
    [[C_0] + N_0 + [nan] + b_ests] with one growth rate per culture. *)
Theorem quick_fit_guess_layout (g : Guesser) (v : list entry) :
  (forall b_guess,
     fst (quick_fit_log_eq b_index fit_model g b_guess) = Ok v \/
     (exists imag_neigh_params no_neighs,
        fst (quick_fit_imag_neighs b_index fit_model g imag_neigh_params
               no_neighs None) = Ok v) ->
     exists C_0 Ns bs kn_index,
       _guess_init_C g = Ok [C_0] /\
       _guess_init_N g = Ok Ns /\
       py_index "kn" (params (model g)) = Ok kn_index /\
       length bs = no_cultures (plate g) /\
       np_insert (Some C_0 :: map Some Ns ++ map Some bs) kn_index None
         = Ok v /\
       (kn_index = S (length Ns) ->
        v = Some C_0 :: map Some Ns ++ None :: map Some bs)).
Proof.
  intros b_guess [H | [inp [nn H]]].
  - unfold quick_fit_log_eq in H.
    destruct (make_first_guess g b_guess) as [fg | e]; [| discriminate].
    destruct (getitem fg 0) as [C0 | e]; [| discriminate].
    cbn [fst] in H.
    apply process_quick_ests_first_guess in H. exact H.
  - unfold quick_fit_imag_neighs in H.
    destruct (imag_setup g inp nn None)
      as [[[[[bc b] md] ps] bds] | e]; [| discriminate].
    destruct (fit_imag_neigh_cultures _ _ _ _ _ _ _ _ _) as [[u | e] cs];
      [| discriminate].
    cbn [fst] in H.
    apply process_quick_ests_first_guess in H. exact H.
Qed.

End Aggregation_layout.

Lemma quick_fit_guess_layout_witness :
  exists C_0 Ns bs,
    _guess_init_C guesser_2x2_gap = Ok [C_0] /\
    _guess_init_N guesser_2x2_gap = Ok Ns /\
    [Some (9 # 10000); Some (12 # 4); None;
     Some 0; Some 9; Some 1; Some 2]
    = Some C_0 :: map Some Ns ++ None :: map Some bs.
Proof.
  destruct (quick_fit_guess_layout layout_b_index scaling_fit_model
              guesser_2x2_gap
              [Some (9 # 10000); Some (12 # 4); None;
               Some 0; Some 9; Some 1; Some 2] 1)
    as [C_0 [Ns [bs [k [HC [HN [Hk [_ [_ Hv]]]]]]]]].
  - left. vm_compute. reflexivity.
  - exists C_0, Ns, bs. split; [exact HC |]. split; [exact HN |].
    apply Hv.
    assert (E : _guess_init_N guesser_2x2_gap = Ok [12 / 4])
      by reflexivity.
    rewrite E in HN. injection HN as <-.
    assert (E' : py_index "kn" (params (model guesser_2x2_gap)) = Ok 2%nat)
      by reflexivity.
    rewrite E' in Hk. injection Hk as <-. reflexivity.
Defined.

(** *** The median *)

Lemma insert_Q_perm (v : Q) (l : list Q) : Permutation (v :: l) (insert_Q v l).
Proof.
  induction l as [| w l IH]; simpl; [reflexivity |].
  destruct (Qle_bool v w); [reflexivity |].
  rewrite perm_swap. now constructor.
Qed.

Lemma insert_Q_sorted (v : Q) (l : list Q) :
  StronglySorted Qle l -> StronglySorted Qle (insert_Q v l).
Proof.
  induction 1 as [| w l Hs IH Hall]; simpl; [repeat constructor |].
  destruct (Qle_bool v w) eqn:E.
  - apply Qle_bool_iff in E.
    constructor; [now constructor |].
    constructor; [exact E |].
    eapply Forall_impl; [| exact Hall]. intros a Ha. simpl in Ha. lra.
  - assert (Hwv : w <= v).
    { destruct (Qlt_le_dec w v) as [H | H]; [lra |].
      apply Qle_bool_iff in H. congruence. }
    constructor; [exact IH |].
    rewrite <- (insert_Q_perm v l). now constructor.
Qed.

Lemma sort_Q_spec (l : list Q) :
  Permutation l (sort_Q l) /\ StronglySorted Qle (sort_Q l).
Proof.
  induction l as [| v l [IHp IHs]]; simpl; [split; constructor |].
  split; [| now apply insert_Q_sorted].
  rewrite <- insert_Q_perm. now constructor.
Qed.

Lemma sorted_nth_le (s : list Q) (i j : nat) :
  StronglySorted Qle s -> (i <= j < length s)%nat ->
  nth i s 0 <= nth j s 0.
Proof.
  intros Hs. revert i j. induction Hs as [| a s Hs IH Hall]; intros i j Hij.
  - simpl in Hij. lia.
  - destruct i as [| i], j as [| j]; simpl in *; try lia.
    + apply Qle_refl.
    + rewrite Forall_forall in Hall. apply Hall, nth_In. lia.
    + apply IH. lia.
Qed.

Lemma mean_between (a b : Q) :
  a <= b -> a <= (a + b) / 2 /\ (a + b) / 2 <= b.
Proof.
  intros H. assert (E : (a + b) / 2 == (1 # 2) * (a + b)) by field.
  rewrite E. split; lra.
Qed.

Lemma np_median_spec (l : list Q) (m : Q) :
  np_median l = Ok m ->
  Forall (fun v => v <= m) (firstn (Nat.div (length l + 1) 2) (sort_Q l)) /\
  Forall (fun v => m <= v) (skipn (Nat.div (length l) 2) (sort_Q l)).
Proof.
  destruct (sort_Q_spec l) as [Hperm Hsorted].
  unfold np_median. rewrite (Permutation_length Hperm).
  set (s := sort_Q l) in *. set (n := length s).
  intros Hm.
  assert (Hn : (0 < n)%nat) by (destruct n; [discriminate | lia]).
  pose proof (Nat.div_mod_eq n 2) as D1.
  pose proof (Nat.div_mod_eq (n + 1) 2) as D2.
  pose proof (Nat.mod_upper_bound n 2 ltac:(lia)) as U1.
  pose proof (Nat.mod_upper_bound (n + 1) 2 ltac:(lia)) as U2.
  assert (Hmid : exists lo hi,
            lo <= m /\ m <= hi /\
            (forall i, (i < (n + 1) / 2)%nat -> nth i s 0 <= lo) /\
            (forall i, (n / 2 + i < n)%nat -> hi <= nth (n / 2 + i) s 0)).
  { destruct n as [| n'] eqn:En; [lia |].
    destruct (Nat.even (S n')) eqn:Ev.
    - injection Hm as Hm.
      apply Nat.even_spec in Ev. destruct Ev as [h Eh].
      exists (nth (S n' / 2 - 1) s 0), (nth (S n' / 2) s 0).
      assert (Hle : nth (S n' / 2 - 1) s 0 <= nth (S n' / 2) s 0)
        by (apply sorted_nth_le; [exact Hsorted | fold n; lia]).
      destruct (mean_between _ _ Hle) as [M1 M2].
      rewrite <- Hm. split; [exact M1 |]. split; [exact M2 |]. split.
      + intros i Hi. apply sorted_nth_le; [exact Hsorted | fold n; lia].
      + intros i Hi. apply sorted_nth_le; [exact Hsorted | fold n; lia].
    - injection Hm as Hm.
      rewrite <- Nat.negb_odd in Ev. apply negb_false_iff in Ev.
      apply Nat.odd_spec in Ev. destruct Ev as [h Eh].
      exists (nth (S n' / 2) s 0), (nth (S n' / 2) s 0).
      rewrite <- Hm. split; [apply Qle_refl |]. split; [apply Qle_refl |].
      split.
      + intros i Hi. apply sorted_nth_le; [exact Hsorted | fold n; lia].
      + intros i Hi. apply sorted_nth_le; [exact Hsorted | fold n; lia]. }
  destruct Hmid as [lo [hi [Hlo [Hhi [Hfirst Hsecond]]]]].
  split.
  - apply Forall_forall. intros a Ha.
    apply (In_nth _ _ 0) in Ha as [i [Hi <-]].
    rewrite length_firstn in Hi. rewrite nth_firstn.
    assert (Hi' : (i < (n + 1) / 2)%nat) by lia.
    apply Nat.ltb_lt in Hi'. rewrite Hi'. apply Nat.ltb_lt in Hi'.
    specialize (Hfirst i Hi'). lra.
  - apply Forall_forall. intros a Ha.
    apply (In_nth _ _ 0) in Ha as [i [Hi <-]].
    rewrite length_skipn in Hi. rewrite nth_skipn.
    assert (Hi' : (n / 2 + i < n)%nat) by (fold n in Hi; lia).
    specialize (Hsecond i Hi'). lra.
Qed.

(** X16.  The value [np_median] returns is a median: with the values
    sorted, the first half of them (the larger half for an odd count) is
    at most the median and the second half (likewise) at least the
    median.  Under the policy [median] it is the cell amount at the head
    of the aggregated guess, taken over the cell-amount estimates of all
    growers. *)
Theorem median_policy_is_median (b_index : QuickModel -> nat)
    (g : Guesser) (quick_mod : QuickModel) (est_name : string)
    (b_guess : Q) (clip : bool) (v : list entry)
    (Hrun : _process_quick_ests b_index g quick_mod est_name b_guess clip
              "median" None = Ok v) :
  exists all_ests bs col m s,
    b_est_holder (b_index quick_mod) g est_name b_guess clip
      = Ok (all_ests, bs) /\
    column 0 all_ests = Ok col /\
    np_median col = Ok m /\
    Permutation col s /\ StronglySorted Qle s /\
    Forall (fun C_0 => C_0 <= m) (firstn (Nat.div (length col + 1) 2) s) /\
    Forall (fun C_0 => m <= C_0) (skipn (Nat.div (length col) 2) s) /\
    (forall k, py_index "kn" (params (model g)) = Ok (S k) ->
               nth_error v 0 = Some (Some m)).
Proof.
  unfold _process_quick_ests in Hrun.
  apply bind_ok_inv in Hrun as [[all_ests bs] [Hab H]]. cbn [fst snd] in H.
  cbn [String.eqb Ascii.eqb Bool.eqb] in H.
  apply bind_ok_inv in H as [C_0_opt [HC H]].
  apply bind_ok_inv in HC as [col [Hcol HC]].
  apply bind_ok_inv in HC as [m [Hm HC]]. injection HC as <-.
  apply bind_ok_inv in H as [Ns [_ H]]. cbn [bind] in H.
  apply bind_ok_inv in H as [k [Hk H]].
  destruct (sort_Q_spec col) as [Hperm Hsorted].
  destruct (np_median_spec col m Hm) as [Hfirst Hsecond].
  exists all_ests, bs, col, m, (sort_Q col).
  repeat split; try assumption.
  intros k' Hk'. rewrite Hk in Hk'. injection Hk' as ->.
  cbn [app map np_insert] in H.
  apply bind_ok_inv in H as [r [_ H]]. injection H as <-. reflexivity.
Qed.

Lemma median_policy_is_median_witness :
  let g :=
    snd (quick_fit_log_eq layout_b_index scaling_fit_model
           guesser_2x2_gap 1) in
  exists v m,
    _process_quick_ests layout_b_index g IndeModel "log_est" 1 false
      "median" None = Ok v /\
    nth_error v 0 = Some (Some m) /\ m == 18 # 10000.
Proof.
  intros g.
  destruct (_process_quick_ests layout_b_index g IndeModel "log_est" 1
              false "median" None) as [v | e] eqn:E;
    [| vm_compute in E; discriminate E].
  destruct (median_policy_is_median layout_b_index g IndeModel "log_est" 1
              false v E)
    as [all_ests [bs [col [m [s [_ [_ [_ [_ [_ [_ [_ Hhead]]]]]]]]]]]].
  exists v, m. split; [reflexivity |].
  specialize (Hhead 1%nat eq_refl). split; [exact Hhead |].
  vm_compute in E. injection E as <-.
  injection Hhead as <-. reflexivity.
Defined.

(** ** Calibration of kn: result, errors and sweep *)

Section Calibration_result.

Variable new_Plate : nat -> nat -> Plate.
Variable set_sim_data : Plate -> Model -> Plate.

(** X17.  When [guess_kn] returns, no division by zero met on the way,
    the vector it returns is a copy of the caller's array clipped at zero:
    it has no negative entry, and its kn entry is [max(0, kn_guess)],
    where [kn_guess], the estimate before clipping, possibly negative, is
    what the caller's array is left with. *)
Theorem guess_kn_returns_clipped_copy (g : Guesser) (start stop : Q)
    (num : nat) (params0 out params2 : list entry) (kn_index : nat)
    (Hk : py_index "kn" (params (model g)) = Ok kn_index)
    (Hrun : guess_kn new_Plate set_sim_data g start stop num params0
            = (Ok out, params2)) :
  out = map clip_min0 params2 /\
  Forall (fun e => match e with Some q => 0 <= q | None => True end) out /\
  exists kn_guess,
    nth_error params2 kn_index = Some (Some kn_guess) /\
    nth_error out kn_index = Some (Some (Qmax 0 kn_guess)).
Proof.
  destruct (guess_kn_inv _ _ _ _ _ _ _ _ _ Hrun)
    as [vt [k [vars [kn_guess [_ [Hk' [_ [_ [Hset Hout]]]]]]]]].
  cbv zeta in *. rewrite Hk in Hk'. injection Hk' as <-.
  destruct (setitem_spec _ _ _ _ Hset) as [_ [Hnth _]].
  split; [exact Hout |]. split.
  - subst out. apply Forall_forall. intros e He.
    apply in_map_iff in He as [e0 [<- _]].
    destruct e0 as [q |]; simpl; [apply Q.le_max_l | exact I].
  - exists kn_guess. split; [exact Hnth |].
    subst out. rewrite nth_error_map, Hnth. reflexivity.
Qed.

(** X18.  [guess_kn] raises [ValueError], and leaves the caller's array as
    it was, when the model has no parameter [kn].  When the array has no
    entry at the index of [kn] the call does not return a vector and the
    array is as it was; for a sweep with at least one candidate the
    exception is the [IndexError] of the first assignment. *)
Theorem guess_kn_errors (g : Guesser) (start stop : Q) (num : nat)
    (params0 : list entry) :
  let run := guess_kn new_Plate set_sim_data g start stop num params0 in
  (c_meas (plate g) <> [] ->
   py_index "kn" (params (model g)) = Raise ValueError ->
   run = (Raise ValueError, params0)) /\
  (forall kn_index,
     py_index "kn" (params (model g)) = Ok kn_index ->
     (length params0 <= kn_index)%nat ->
     is_ok (fst run) = false /\ snd run = params0 /\
     (c_meas (plate g) <> [] -> (1 <= num)%nat ->
      run = (Raise IndexError, params0))).
Proof.
  intros run. subst run. unfold guess_kn.
  assert (Hvar : c_meas (plate g) <> [] ->
            exists vt, np_var (last_n (no_cultures (plate g))
                                 (c_meas (plate g))) = Ok vt).
  { intros Hmeas. unfold np_var, np_mean.
    destruct (last_n _ _) as [| a l] eqn:El.
    - exfalso. apply Hmeas.
      now apply (last_n_nil (no_cultures (plate g))).
    - assert (H0 : ~ of_nat (length (a :: l)) == 0).
      { pose proof (of_nat_pos (length (a :: l))). simpl in *.
        assert (0 < of_nat (S (length l))) by (apply H; lia). lra. }
      rewrite (fdiv_ok _ _ H0). cbn [bind].
      rewrite length_map, (fdiv_ok _ _ H0). eauto. }
  split.
  - intros Hmeas Hk. destruct (Hvar Hmeas) as [vt ->]. now rewrite Hk.
  - intros k Hk Hlen.
    assert (Hset : forall e, setitem params0 k e = Raise IndexError).
    { clear -Hlen. revert k Hlen.
      induction params0 as [| a l IH]; intros k Hlen e;
        [destruct k; reflexivity |].
      destruct k as [| k]; simpl in *; [lia |].
      rewrite IH by lia. reflexivity. }
    destruct (np_var _) as [vt | e] eqn:Ev.
    2: { repeat split. intros Hmeas.
         destruct (Hvar Hmeas) as [vt Hvt]. congruence. }
    rewrite Hk.
    destruct num as [| [| n]].
    + cbn [linspace kn_sweep lstsq_line]. simpl.
      repeat split. intros _ H. lia.
    + cbn [linspace kn_sweep]. rewrite Hset. repeat split.
    + unfold linspace. cbn [seq map kn_sweep]. rewrite Hset. repeat split.
Qed.

End Calibration_result.

Lemma guess_kn_returns_clipped_copy_witness :
  exists out params2 kn_guess,
    guess_kn grid_Plate toy_set_sim_data guesser_1x2 0 1 2
      [Some (1 # 100); Some (1 # 2); None; Some 1; Some 1]
    = (Ok out, params2) /\
    nth_error params2 2 = Some (Some kn_guess) /\
    nth_error out 2 = Some (Some (Qmax 0 kn_guess)).
Proof.
  destruct (guess_kn grid_Plate toy_set_sim_data guesser_1x2 0 1 2
              [Some (1 # 100); Some (1 # 2); None; Some 1; Some 1])
    as [[out | e] params2] eqn:E; [| vm_compute in E; discriminate E].
  destruct (guess_kn_returns_clipped_copy grid_Plate toy_set_sim_data
              guesser_1x2 0 1 2 _ out params2 2%nat eq_refl E)
    as [_ [_ [kn_guess [H1 H2]]]].
  exists out, params2, kn_guess. repeat split; assumption.
Defined.

Lemma guess_kn_errors_witness :
  guess_kn grid_Plate toy_set_sim_data guesser_1x2 0 1 2 [Some 1; Some 1]
  = (Raise IndexError, [Some 1; Some 1]) /\
  guess_kn grid_Plate toy_set_sim_data
    (mkGuesser plate_1x2 (mkModel ["C"; "N"]%string [""; ""]%string
          ["C_0"; "N_0"]%string)
       None None) 0 1 2 [Some 1; Some 1]
  = (Raise ValueError, [Some 1; Some 1]).
Proof.
  split.
  - destruct (proj2 (guess_kn_errors grid_Plate toy_set_sim_data
                       guesser_1x2 0 1 2 [Some 1; Some 1]) 2%nat)
      as [_ [_ H]]; [reflexivity | simpl; lia |].
    apply H; [discriminate | lia].
  - apply (proj1 (guess_kn_errors grid_Plate toy_set_sim_data
             (mkGuesser plate_1x2
                (mkModel ["C"; "N"]%string [""; ""]%string
                   ["C_0"; "N_0"]%string) None None)
             0 1 2 [Some 1; Some 1]));
      [discriminate | reflexivity].
Defined.

(** *** The sweep *)

Lemma linspace_length (start stop : Q) (num : nat) :
  length (linspace start stop num) = num.
Proof.
  destruct num as [| [| n]]; try reflexivity.
  unfold linspace. now rewrite length_map, length_seq.
Qed.

Lemma linspace_range (start stop : Q) (num : nat) :
  start <= stop ->
  Forall (fun kn => start <= kn <= stop) (linspace start stop num).
Proof.
  intros Hle. destruct num as [| [| n]].
  - constructor.
  - repeat constructor; simpl; lra.
  - unfold linspace. apply Forall_forall. intros kn Hin.
    apply in_map_iff in Hin as [i [<- Hi]]. apply in_seq in Hi.
    set (d := of_nat (S (S n) - 1)).
    assert (Hd : 0 < d) by (apply of_nat_pos; lia).
    assert (Hi0 : 0 <= of_nat i).
    { destruct i; [apply Qle_refl | apply Qlt_le_weak, of_nat_pos; lia]. }
    assert (Hid : of_nat i <= d).
    { unfold d, of_nat. rewrite <- Zle_Qle. lia. }
    assert (Hstep : 0 <= (stop - start) / d)
      by (apply Qle_shift_div_l; lra).
    assert (E : stop == start + d * ((stop - start) / d)) by (field; lra).
    set (step := (stop - start) / d) in *.
    split.
    + pose proof (Qmult_le_0_compat _ _ Hi0 Hstep). lra.
    + rewrite E.
      assert (of_nat i * step <= d * step)
        by (apply Qmult_le_compat_r; assumption).
      lra.
Qed.

(** X19.  A call of [guess_kn] that returns has simulated the model once
    for each of the [num] candidates of the sweep; for [start <= stop]
    every candidate lies between [start] and [stop]. *)
Theorem guess_kn_sweep (new_Plate : nat -> nat -> Plate)
    (set_sim_data : Plate -> Model -> Plate) (g : Guesser) (start stop : Q)
    (num : nat) (params0 out params2 : list entry)
    (Hrun : guess_kn new_Plate set_sim_data g start stop num params0
            = (Ok out, params2)) :
  exists kn_index C_f_vars,
    fst (kn_sweep set_sim_data g kn_index (linspace start stop num) params0
           (set_times (new_Plate (rows (plate g)) (cols (plate g)))
              (times (plate g))))
    = Ok C_f_vars /\
    length C_f_vars = num /\
    length (linspace start stop num) = num /\
    (start <= stop ->
     Forall (fun kn => start <= kn <= stop) (linspace start stop num)).
Proof.
  destruct (guess_kn_inv _ _ _ _ _ _ _ _ _ Hrun)
    as [vt [k [vars [kn_guess [_ [_ [Hsweep _]]]]]]].
  cbv zeta in *.
  pose proof (kn_sweep_frame set_sim_data g k (linspace start stop num)
                params0
                (set_times (new_Plate (rows (plate g)) (cols (plate g)))
                   (times (plate g)))) as [_ [_ Hvars]].
  cbv zeta in Hvars. specialize (Hvars _ Hsweep).
  rewrite linspace_length in Hvars.
  exists k, vars. split; [exact Hsweep |]. split; [exact Hvars |].
  split; [apply linspace_length | apply linspace_range].
Qed.

Lemma guess_kn_sweep_witness :
  exists kn_index C_f_vars,
    fst (kn_sweep toy_set_sim_data guesser_1x2 kn_index (linspace 0 1 2)
           [Some (1 # 100); Some (1 # 2); None; Some 1; Some 1]
           (set_times (grid_Plate 1 2) [1]))
    = Ok C_f_vars /\ length C_f_vars = 2%nat.
Proof.
  destruct (guess_kn grid_Plate toy_set_sim_data guesser_1x2 0 1 2
              [Some (1 # 100); Some (1 # 2); None; Some 1; Some 1])
    as [[out | e] params2] eqn:E; [| vm_compute in E; discriminate E].
  destruct (guess_kn_sweep grid_Plate toy_set_sim_data guesser_1x2 0 1 2
              _ out params2 E) as [k [vars [H1 [H2 _]]]].
  exists k, vars. split; assumption.
Defined.

(** ** The module functions *)

Lemma np_insert_spec {A : Type} (l v : list A) (k : nat) (e : A) :
  np_insert l k e = Ok v ->
  length v = S (length l) /\
  forall j a, j <> k -> nth_error v j = Some a -> In a l.
Proof.
  revert l v. induction k as [| k IH]; intros l v H; simpl in H.
  - injection H as <-. split; [reflexivity |].
    intros [| j] a Hj Ha; [congruence |]. simpl in Ha.
    now apply nth_error_In in Ha.
  - destruct l as [| a0 l]; [discriminate |].
    apply bind_ok_inv in H as [r [Hr H]]. injection H as <-.
    destruct (IH _ _ Hr) as [Hlen Hin]. split; [simpl; now rewrite Hlen |].
    intros [| j] a Hj Ha; simpl in Ha.
    + injection Ha as <-. now left.
    + right. apply (Hin j); [lia | exact Ha].
Qed.

Section Module_functions.

Variable b_index : QuickModel -> nat.
Variable fit_model :
  Culture -> QuickModel -> list Q -> list bound -> FitResult.
Variable new_Plate : nat -> nat -> Plate.
Variable set_sim_data : Plate -> Model -> Plate.

(** Calibrating a guess of a quick-fit stage that inferred the amounts
    leaves a vector of nonnegative numbers. *)
Lemma calibrated_guess_complete (g g' : Guesser) (quick_mod : QuickModel)
    (est_name : string) (b_guess : Q) (clip : bool) (start stop : Q)
    (num : nat) (v out : list entry) :
  model g' = model g ->
  _process_quick_ests b_index g quick_mod est_name b_guess clip
    "first_guess" None = Ok v ->
  fst (guess_kn new_Plate set_sim_data g' start stop num v) = Ok out ->
  Forall (fun e => exists q, e = Some q /\ 0 <= q) out /\
  exists Ns,
    _guess_init_N g = Ok Ns /\
    length out = (2 + length Ns + no_cultures (plate g))%nat.
Proof.
  intros Hmodel Hv Hout.
  destruct (process_quick_ests_first_guess b_index _ _ _ _ _ _ Hv)
    as [C_0 [Ns [bs [k [_ [HN [Hk [Hbs [Hins _]]]]]]]]].
  destruct (np_insert_spec _ _ _ _ Hins) as [Hlenv Hin].
  destruct (guess_kn new_Plate set_sim_data g' start stop num v)
    as [r params2] eqn:E.
  cbn [fst] in Hout. subst r.
  destruct (guess_kn_inv _ _ _ _ _ _ _ _ _ E)
    as [vt [k' [vars [kn_guess [_ [Hk' [_ [_ [Hset Hmap]]]]]]]]].
  cbv zeta in *. rewrite Hmodel, Hk in Hk'. injection Hk' as <-.
  destruct (kn_sweep_frame set_sim_data g' k (linspace start stop num) v
              (set_times (new_Plate (rows (plate g')) (cols (plate g')))
                 (times (plate g')))) as [Hlen1 [Hother1 _]].
  cbv zeta in Hlen1, Hother1.
  destruct (setitem_spec _ _ _ _ Hset) as [Hlen2 [Hnth Hother2]].
  split.
  - subst out. apply Forall_forall. intros e He.
    apply in_map_iff in He as [e2 [<- He2]].
    apply In_nth_error in He2 as [j Hj].
    destruct (Nat.eq_dec j k) as [-> | Hne].
    + rewrite Hnth in Hj. injection Hj as <-.
      exists (Qmax 0 kn_guess). split; [reflexivity | apply Q.le_max_l].
    + rewrite (Hother2 j Hne), (Hother1 j Hne) in Hj.
      apply (Hin j _ Hne) in Hj.
      assert (Hq : exists q, e2 = Some q).
      { destruct Hj as [<- | Hj]; [eauto |].
        apply in_app_or in Hj as [Hj | Hj];
          apply in_map_iff in Hj as [q [<- _]]; eauto. }
      destruct Hq as [q ->].
      exists (Qmax 0 q). split; [reflexivity | apply Q.le_max_l].
  - exists Ns. split; [exact HN |].
    subst out. rewrite length_map.
    cbn [length] in Hlenv. rewrite length_app, !length_map in Hlenv.
    unfold entry in *. lia.
Qed.

(** X20.  A guess returned by [fit_log_eq], or by [fit_imag_neigh] without
    [plate_lvl], no division by zero met on the way, is complete: the NaN
    placeholder of kn is gone, every entry is a number and none is
    negative, kn included; and it has one entry for the cell amount, one
    per nutrient amount, one for kn and one per culture. *)
Theorem fit_functions_guess_complete (plate : Plate) (plate_model : Model)
    (area_ratio C_ratio : option Q) (kn_start kn_stop : Q) (kn_num : nat)
    (out : list entry) :
  (exists b_guess,
     fst (fit_log_eq b_index fit_model new_Plate set_sim_data plate
            plate_model b_guess area_ratio C_ratio kn_start kn_stop kn_num)
     = Ok out) \/
  (exists imag_neigh_params no_neighs,
     fst (fit_imag_neigh b_index fit_model new_Plate set_sim_data plate
            plate_model area_ratio C_ratio imag_neigh_params no_neighs
            kn_start kn_stop kn_num None)
     = Ok out) ->
  Forall (fun e => exists q, e = Some q /\ 0 <= q) out /\
  exists Ns,
    _guess_init_N (new_Guesser plate plate_model area_ratio C_ratio)
      = Ok Ns /\
    length out = (2 + length Ns + no_cultures plate)%nat.
Proof.
  set (g := new_Guesser plate plate_model area_ratio C_ratio).
  intros [[b_guess H] | [inp [nn H]]].
  - unfold fit_log_eq in H. fold g in H.
    unfold quick_fit_log_eq in H.
    destruct (make_first_guess g b_guess) as [fg | e]; [| discriminate].
    destruct (getitem fg 0) as [C0 | e]; [| discriminate].
    set (g' := set_plate g _) in H.
    destruct (_process_quick_ests _ g' _ _ _ _ _ _) as [v | e] eqn:Ev;
      [| discriminate].
    cbn [fst] in H.
    exact (calibrated_guess_complete g' g' _ _ _ _ _ _ _ _ _
             eq_refl Ev H).
  - unfold fit_imag_neigh in H. fold g in H.
    unfold quick_fit_imag_neighs in H.
    destruct (imag_setup g inp nn None)
      as [[[[[bc b] md] ps] bds] | e]; [| discriminate].
    destruct (fit_imag_neigh_cultures _ _ _ _ _ _ _ _ _) as [[u | e] cs];
      [| discriminate].
    set (g' := set_plate g _) in H.
    destruct (_process_quick_ests _ g' _ _ _ _ _ _) as [v | e] eqn:Ev;
      [| discriminate].
    cbn [fst] in H.
    exact (calibrated_guess_complete g' g' _ _ _ _ _ _ _ _ _
             eq_refl Ev H).
Qed.

(** X21.  With [plate_lvl] given, [fit_imag_neigh] does not calibrate kn:
    it returns what [quick_fit_imag_neighs] returns, whatever the sweep
    arguments and the simulator, and a guess it returns is [plate_lvl],
    entry for entry and unclipped, followed by one growth rate per
    culture. *)
Theorem fit_imag_neigh_plate_lvl (plate : Plate) (plate_model : Model)
    (area_ratio C_ratio : option Q) (imag_neigh_params : list Q)
    (no_neighs : option Z) (kn_start kn_stop : Q) (kn_num : nat)
    (plate_lvl : list Q) :
  let run :=
    fit_imag_neigh b_index fit_model new_Plate set_sim_data plate
      plate_model area_ratio C_ratio imag_neigh_params no_neighs kn_start
      kn_stop kn_num (Some plate_lvl) in
  run = quick_fit_imag_neighs b_index fit_model
          (new_Guesser plate plate_model area_ratio C_ratio)
          imag_neigh_params no_neighs (Some plate_lvl) /\
  forall v, fst run = Ok v ->
    exists b_ests,
      v = map Some plate_lvl ++ map Some b_ests /\
      length b_ests = no_cultures plate.
Proof.
  intros run.
  assert (Hrun : run = quick_fit_imag_neighs b_index fit_model
            (new_Guesser plate plate_model area_ratio C_ratio)
            imag_neigh_params no_neighs (Some plate_lvl)).
  { subst run. unfold fit_imag_neigh.
    destruct (quick_fit_imag_neighs _ _ _ _ _ _) as [[v | e] g'];
      reflexivity. }
  split; [exact Hrun |].
  intros v Hv. rewrite Hrun in Hv. clear Hrun run.
  unfold quick_fit_imag_neighs in Hv.
  destruct (imag_setup _ _ _ _) as [[[[[bc b] md] ps] bds] | e];
    [| discriminate].
  destruct (fit_imag_neigh_cultures _ _ _ _ _ _ _ _ _) as [[u | e] cs];
    [| discriminate].
  cbn [fst] in Hv. unfold _process_quick_ests in Hv.
  apply bind_ok_inv in Hv as [[all_ests bs] [Hab Hv]].
  cbn [fst snd] in Hv. injection Hv as <-.
  destruct (b_est_holder_spec _ _ _ _ _ _ _ Hab) as [Hlen _].
  exists bs. split; [apply map_app | exact Hlen].
Qed.

End Module_functions.

Lemma fit_functions_guess_complete_witness :
  exists out,
    fst (fit_log_eq layout_b_index echo_fit_model grid_Plate
           toy_set_sim_data plate_1x2 CompModel 1 (Some 1)
           (Some (1 # 10000)) 0 1 2) = Ok out /\
    Forall (fun e => exists q, e = Some q /\ 0 <= q) out /\
    length out = 5%nat.
Proof.
  destruct (fst (fit_log_eq layout_b_index echo_fit_model grid_Plate
                   toy_set_sim_data plate_1x2 CompModel 1 (Some 1)
                   (Some (1 # 10000)) 0 1 2)) as [out | e] eqn:E;
    [| vm_compute in E; discriminate E].
  exists out. split; [reflexivity |].
  destruct (fit_functions_guess_complete layout_b_index echo_fit_model
              grid_Plate toy_set_sim_data plate_1x2 CompModel (Some 1)
              (Some (1 # 10000)) 0 1 2 out) as [H1 [Ns [HN H2]]].
  - left. exists 1. exact E.
  - split; [exact H1 |].
    assert (E' : _guess_init_N (new_Guesser plate_1x2 CompModel (Some 1)
                                  (Some (1 # 10000))) = Ok [1 / 2])
      by reflexivity.
    rewrite E' in HN. injection HN as <-. exact H2.
Defined.

(** * cans.parser: cleaning lines and grouping data *)

Lemma before_hash_clean (line : string) :
  all_chars clean_char line = true -> before_hash line = line.
Proof.
  induction line as [| c line IH]; simpl; [reflexivity |].
  unfold clean_char at 1. intros H.
  apply andb_prop in H as [H1 H2]. apply andb_prop in H1 as [H1 _].
  apply negb_true_iff in H1. rewrite H1. now rewrite IH.
Qed.

Lemma remove_whitespace_clean (line : string) :
  all_chars clean_char line = true -> remove_whitespace line = line.
Proof.
  induction line as [| c line IH]; simpl; [reflexivity |].
  unfold clean_char at 1. intros H.
  apply andb_prop in H as [H1 H2]. apply andb_prop in H1 as [_ H1].
  apply negb_true_iff in H1. rewrite H1. now rewrite IH.
Qed.

Lemma before_hash_no_hash (line : string) :
  all_chars (fun c => negb (Ascii.eqb c "#"%char)) (before_hash line) = true.
Proof.
  induction line as [| c line IH]; simpl; [reflexivity |].
  destruct (Ascii.eqb c "#"%char) eqn:E; simpl; [reflexivity |].
  now rewrite E, IH.
Qed.

Lemma remove_whitespace_result (line : string) :
  all_chars (fun c => negb (Ascii.eqb c "#"%char)) line = true ->
  all_chars clean_char (remove_whitespace line) = true.
Proof.
  induction line as [| c line IH]; simpl; [reflexivity |].
  intros H. apply andb_prop in H as [H1 H2].
  destruct (is_space c) eqn:E; [now apply IH |].
  simpl. unfold clean_char at 1. rewrite H1, E. simpl. now apply IH.
Qed.

(** X22.  No line [_clean_lines] returns holds a [#] or a whitespace
    character. *)
Theorem clean_lines_are_clean (lines : list string) :
  Forall (fun line => all_chars clean_char line = true)
         (_clean_lines lines).
Proof.
  unfold _clean_lines. apply Forall_forall. intros line Hin.
  apply in_map_iff in Hin as [l [<- Hl]].
  apply filter_In in Hl as [Hl _].
  apply in_map_iff in Hl as [l0 [<- _]].
  apply remove_whitespace_result, before_hash_no_hash.
Qed.

Lemma clean_lines_of_clean (lines : list string) :
  Forall (fun line => all_chars clean_char line = true) lines ->
  _clean_lines lines = filter nonempty lines.
Proof.
  unfold _clean_lines.
  induction 1 as [| l ls Hl _ IH]; [reflexivity |].
  cbn [map filter]. rewrite (before_hash_clean l Hl).
  destruct (nonempty l); cbn [map]; [| exact IH].
  now rewrite (remove_whitespace_clean l Hl), IH.
Qed.

Lemma filter_nonempty_idem (lines : list string) :
  filter nonempty (filter nonempty lines) = filter nonempty lines.
Proof.
  induction lines as [| l ls IH]; [reflexivity |].
  cbn [filter]. destruct (nonempty l) eqn:E; [| exact IH].
  cbn [filter]. now rewrite E, IH.
Qed.

(** X23.  [_clean_lines] drops the lines that are empty or hold a comment
    only, and keeps a line of whitespace as an empty string: cleaning its
    result once more drops exactly the empty strings, and a third
    cleaning changes nothing. *)
Theorem clean_lines_twice (lines : list string) :
  _clean_lines (_clean_lines lines) = filter nonempty (_clean_lines lines) /\
  _clean_lines (_clean_lines (_clean_lines lines))
  = _clean_lines (_clean_lines lines) /\
  (forall line,
     In line lines -> nonempty (before_hash line) = true ->
     In (remove_whitespace (before_hash line)) (_clean_lines lines)) /\
  (forall line,
     In line (_clean_lines lines) ->
     exists line0, In line0 lines /\ nonempty (before_hash line0) = true /\
                   line = remove_whitespace (before_hash line0)).
Proof.
  pose proof (clean_lines_are_clean lines) as Hc.
  assert (H2 : _clean_lines (_clean_lines lines)
               = filter nonempty (_clean_lines lines))
    by now apply clean_lines_of_clean.
  split; [exact H2 |]. split; [| split].
  - rewrite H2. rewrite clean_lines_of_clean.
    + apply filter_nonempty_idem.
    + apply Forall_forall. intros l Hl. apply filter_In in Hl as [Hl _].
      rewrite Forall_forall in Hc. now apply Hc.
  - intros line Hin Hne. unfold _clean_lines.
    apply in_map, filter_In. split; [now apply in_map | exact Hne].
  - intros line Hin. unfold _clean_lines in Hin.
    apply in_map_iff in Hin as [l [<- Hl]].
    apply filter_In in Hl as [Hl Hne].
    apply in_map_iff in Hl as [l0 [<- Hl0]].
    exists l0. repeat split; assumption.
Qed.

Lemma clean_lines_twice_witness :
  _clean_lines ["k = 1.5  # rate"; "   "; "# comment"; ""]%string
  = ["k=1.5"; ""]%string /\
  _clean_lines (_clean_lines ["k = 1.5  # rate"; "   "; "# comment"; ""]%string)
  = ["k=1.5"]%string.
Proof.
  split; [reflexivity |].
  rewrite (proj1 (clean_lines_twice
                    ["k = 1.5  # rate"; "   "; "# comment"; ""]%string)).
  reflexivity.
Defined.

(** *** Groups *)

Lemma findall_at_starts (data : string) :
  Forall (fun m => exists rest, m = String "@"%char rest)
         (snd (findall_at data)).
Proof.
  induction data as [| c data IH]; simpl; [constructor |].
  destruct (findall_at data) as [run found]. cbn [snd] in *.
  destruct (Ascii.eqb c "@"%char) eqn:E; cbn [snd]; [| exact IH].
  apply Ascii.eqb_eq in E. subst c.
  destruct run as [| r run]; [exact IH |].
  constructor; [eauto | exact IH].
Qed.

Lemma split_newline_head (rest : string) :
  exists line lines,
    split_newline (String "@"%char rest) = String "@"%char line :: lines.
Proof.
  cbn [split_newline]. change (Ascii.eqb "@"%char "010"%char) with false.
  cbv iota. destruct (split_newline rest) as [| line lines]; eauto.
Qed.

Lemma clean_lines_head (line : string) (lines : list string) :
  exists header rest,
    _clean_lines (String "@"%char line :: lines)
    = String "@"%char header :: rest.
Proof.
  unfold _clean_lines. cbn [map before_hash].
  change (Ascii.eqb "@"%char "#"%char) with false. cbv iota.
  cbn [filter nonempty map remove_whitespace].
  change (is_space "@"%char) with false. cbv iota. eauto.
Qed.

(** X24.  Every group [group_data] returns has a first line, and that line
    starts with [@]: no group is empty. *)
Theorem group_data_headers (data : string) :
  Forall (fun group =>
            exists header rest, group = String "@"%char header :: rest)
         (group_data data).
Proof.
  unfold group_data. apply Forall_forall. intros group Hin.
  apply in_map_iff in Hin as [lines [<- Hin]].
  apply in_map_iff in Hin as [m [<- Hm]].
  pose proof (findall_at_starts data) as Hall.
  rewrite Forall_forall in Hall. destruct (Hall m Hm) as [rest ->].
  destruct (split_newline_head rest) as [line [lines ->]].
  apply clean_lines_head.
Qed.

Lemma findall_at_prefix (pre data : string) :
  all_chars not_at pre = true ->
  snd (findall_at (pre ++ data)) = snd (findall_at data).
Proof.
  induction pre as [| c pre IH]; simpl; [reflexivity |].
  intros H. apply andb_prop in H as [H1 H2].
  unfold not_at in H1. apply negb_true_iff in H1.
  destruct (findall_at (pre ++ data)) as [run found] eqn:E.
  rewrite H1. cbn [snd]. rewrite <- (IH H2). reflexivity.
Qed.

(** X25.  [group_data] ignores what comes before the first [@]: data
    without [@] give no group, and a prefix without [@] does not change
    the groups. *)
Theorem group_data_prefix (pre data : string) :
  all_chars not_at pre = true ->
  group_data pre = [] /\
  group_data (pre ++ data) = group_data data.
Proof.
  intros H. unfold group_data. split.
  - replace pre with (pre ++ "")%string.
    + rewrite (findall_at_prefix pre "" H). reflexivity.
    + clear H. induction pre as [| c pre IH]; simpl; [reflexivity |].
      now rewrite IH.
  - now rewrite (findall_at_prefix pre data H).
Qed.

Lemma group_data_prefix_witness :
  group_data "# a reaction file" = [] /\
  group_data ("# a reaction file" ++ "@init_amounts")
  = group_data "@init_amounts".
Proof.
  apply (group_data_prefix "# a reaction file" "@init_amounts").
  reflexivity.
Defined.
